(** * Verification of the Pixel power/perf arbitration node and the
      brownout log reporter

    Two translation units are embedded:

    - [power-libperfmgr/libperfmgr/EventNode.cc]  (module [EventNode])
    - [pixelstats/BrownoutDetectedReporter.cpp]   (module [Brownout])

    Every function is a Rocq function that threads the state the C++
    code mutates and records the externally visible calls (callback,
    trace macros, file writes, uploads) in a log.  Indexing a vector out
    of range, which C++ leaves undefined, makes the model return no
    result. *)

From Stdlib Require Import ZArith Lia String Ascii List Bool.
From stdpp Require Import base option list strings pretty gmap.

Local Open Scope string_scope.
Local Open Scope list_scope.
Local Open Scope Z_scope.

(* ===================================================================== *)
(** * EventNode.cc *)
(* ===================================================================== *)

Module EventNode.

(** [std::chrono::milliseconds] has a signed 64-bit tick count;
    [std::chrono::milliseconds::max()] is the largest one. *)
Definition milliseconds_max : Z := 2 ^ 63 - 1.

(** The class [RequestGroup] is declared in [perfmgr/RequestGroup.h],
    which is not part of the translation unit.  [EventNode.cc] uses two
    of its methods, taken here as an interface:

    - [bool GetExpireTime(std::chrono::milliseconds *expire_time)] reads
      the steady clock, may rewrite the group (it is not [const]) and may
      store through the out-parameter; the model receives the clock
      reading and the value currently held by the out-parameter, and
      returns the flag, the value left in the out-parameter and the
      group afterwards;
    - [const std::string &GetRequestValue() const]. *)
Class RequestGroupOps (G : Type) := {
  GetExpireTime : Z -> G -> Z -> bool * Z * G;
  GetRequestValue : G -> string
}.

(** Calls that leave the object, in program order. *)
Inductive event :=
| EvGetExpireTime (i : nat) (active : bool)
| EvAtraceInt (name : string) (value : nat)
| EvAtraceBegin (tag : string)
| EvAtraceEnd
| EvCallback (name node_path value : string)
| EvWriteStringToFd (buf : string) (fd : Z)
| EvLogError (msg : string)
| EvGroupDumpToFd (i : nat) (fd : Z) (prefix : string).

(** What the surrounding process supplies to one call: the state of the
    trace switch read by [ATRACE_ENABLED()], the steady clock, and the
    outcome of [android::base::WriteStringToFd]. *)
Record Env := {
  ATRACE_ENABLED : bool;
  steady_clock_now : Z;
  WriteStringToFd : string -> Z -> bool
}.

Definition is_callback (e : event) : bool :=
  match e with EvCallback _ _ _ => true | _ => false end.

Definition is_trace (e : event) : bool :=
  match e with
  | EvAtraceInt _ _ | EvAtraceBegin _ | EvAtraceEnd => true
  | _ => false
  end.

Definition is_group_dump (e : event) : bool :=
  match e with EvGroupDumpToFd _ _ _ => true | _ => false end.

Definition is_query (e : event) : bool :=
  match e with EvGetExpireTime _ _ => true | _ => false end.

Definition queries (log : list event) : list event := List.filter is_query log.

(** Groups [i], [i+1], ..., [i+k-1] were asked and answered inactive. *)
Definition inactive_run (i k : nat) : list event :=
  map (fun j => EvGetExpireTime j false) (seq i k).

Definition callbacks (log : list event) : list event := List.filter is_callback log.
Definition erase_trace (log : list event) : list event :=
  List.filter (fun e => negb (is_trace e)) log.
Definition group_dumps (log : list event) : list event := List.filter is_group_dump log.

Section Node.

Context {G : Type} `{RequestGroupOps G}.

(** The fields of [Node] that [EventNode] reads and writes.  The
    callback [update_callback_] is an opaque [std::function]; invoking it
    is recorded as [EvCallback] with its three arguments. *)
Record EventNode := mkEventNode {
  name_ : string;
  node_path_ : string;
  req_sorted_ : list G;
  default_val_index_ : nat;
  current_val_index_ : nat;
  reset_on_init_ : bool
}.

(** [Node::GetName()]; [perfmgr/Node.h] is not among the sources, the
    getter is taken to return [name_].  It is used in trace labels
    only. *)
Definition GetName (n : EventNode) : string := name_ n.

(** The [for] loop of [Update], lines 46-51, from index [i] on: the
    selected index if some group reported active, the value left in
    [expire_time], the groups after the calls, and the calls made. *)
Fixpoint scan (now : Z) (i : nat) (gs : list G) (expire_time : Z)
  : option nat * Z * list G * list event :=
  match gs with
  | [] => (None, expire_time, [], [])
  | g :: rest =>
      let '(active, expire_time', g') := GetExpireTime now g expire_time in
      if active then (Some i, expire_time', g' :: rest, [EvGetExpireTime i true])
      else
        let '(found, e, rest', log) := scan now (S i) rest expire_time' in
        (found, e, g' :: rest', EvGetExpireTime i false :: log)
  end.

(** [value_index] after the loop. *)
Definition value_index_of (n : EventNode) (found : option nat) : nat :=
  match found with Some i => i | None => default_val_index_ n end.

(** [std::chrono::milliseconds EventNode::Update(bool)], lines 41-70.
    The result is [None] when [req_sorted_[value_index]] is out of
    range. *)
Definition Update (env : Env) (_ : bool) (n : EventNode)
  : option (Z * EventNode * list event) :=
  let '(found, expire_time, gs, log) :=
    scan (steady_clock_now env) 0 (req_sorted_ n) milliseconds_max in
  let value_index := value_index_of n found in
  if negb (Nat.eqb value_index (current_val_index_ n)) || reset_on_init_ n then
    match gs !! value_index with
    | None => None
    | Some g =>
        let req_value := GetRequestValue g in
        let trace_begin :=
          if ATRACE_ENABLED env then
            [EvAtraceInt ("N:" +:+ GetName n) value_index;
             EvAtraceBegin (GetName n +:+ ":" +:+ req_value +:+ ":" +:+ pretty expire_time)]
          else [] in
        let trace_end := if ATRACE_ENABLED env then [EvAtraceEnd] else [] in
        Some (expire_time,
              mkEventNode (name_ n) (node_path_ n) gs (default_val_index_ n)
                          value_index false,
              log ++ trace_begin
                  ++ [EvCallback (name_ n) (node_path_ n) req_value]
                  ++ trace_end)
    end
  else
    Some (expire_time,
          mkEventNode (name_ n) (node_path_ n) gs (default_val_index_ n)
                      (current_val_index_ n) (reset_on_init_ n),
          log).

(** The index [Update] selects: the loop's result or the default. *)
Definition selected_index (env : Env) (n : EventNode) : nat :=
  value_index_of n
    (fst (fst (fst (scan (steady_clock_now env) 0 (req_sorted_ n) milliseconds_max)))).

(** The value [expire_time] holds when the loop is left. *)
Definition expiry_after_scan (env : Env) (n : EventNode) : Z :=
  snd (fst (fst (scan (steady_clock_now env) 0 (req_sorted_ n) milliseconds_max))).

Definition tab : string := String "009" "".
Definition newline : string := String "010" "".

(** The [for] loop of [DumpToFd], lines 84-86. *)
Fixpoint dump_groups (fd : Z) (i : nat) (gs : list G) : list event :=
  match gs with
  | [] => []
  | _ :: rest =>
      EvGroupDumpToFd i fd (tab +:+ tab +:+ "Req" +:+ pretty i +:+ ":" +:+ tab)
        :: dump_groups fd (S i) rest
  end.

(** [void EventNode::DumpToFd(int fd) const], lines 72-87.  The method
    is [const]; the node is returned so that its state after the call
    can be spoken of.  [None] when [req_sorted_[current_val_index_]] is
    out of range. *)
Definition DumpToFd (env : Env) (n : EventNode) (fd : Z)
  : option (list event * EventNode) :=
  match req_sorted_ n !! current_val_index_ n with
  | None => None
  | Some g =>
      let node_value := GetRequestValue g in
      let buf :=
        "Node Name" +:+ tab +:+ "Event Path" +:+ tab +:+ "Current Index" +:+ tab
          +:+ "Current Value" +:+ newline
          +:+ name_ n +:+ tab +:+ node_path_ n +:+ tab
          +:+ pretty (current_val_index_ n) +:+ tab +:+ node_value +:+ newline in
      let failed :=
        if WriteStringToFd env buf fd then []
        else [EvLogError ("Failed to dump fd: " +:+ pretty fd)] in
      Some (EvWriteStringToFd buf fd :: failed ++ dump_groups fd 0 (req_sorted_ n), n)
  end.

(** The construction-time requirement of the node: the default index
    names one of the groups. *)
Definition well_formed (n : EventNode) : Prop :=
  (default_val_index_ n < length (req_sorted_ n))%nat.

(** The answer of a group at clock reading [now] does not depend on
    what the out-parameter holds. *)
Definition reports (now : Z) (g : G) (active : bool) : Prop :=
  forall e, fst (fst (GetExpireTime now g e)) = active.

(** The groups of [gs], asked in index order with the out-parameter
    handed from one to the next, all answer inactive: what the
    out-parameter then holds and the groups as the calls left them.
    [None] when one of them answers active. *)
Fixpoint all_inactive (now : Z) (gs : list G) (expire_time : Z)
  : option (Z * list G) :=
  match gs with
  | [] => Some (expire_time, [])
  | g :: rest =>
      let '(active, expire_time', g') := GetExpireTime now g expire_time in
      if active then None
      else
        match all_inactive now rest expire_time' with
        | Some (e, rest') => Some (e, g' :: rest')
        | None => None
        end
  end.

(** A run of [Update] calls, each under its own environment. *)
Fixpoint Update_all (calls : list (Env * bool)) (n : EventNode) : option EventNode :=
  match calls with
  | [] => Some n
  | (env, force) :: rest =>
      match Update env force n with
      | None => None
      | Some (_, n', _) => Update_all rest n'
      end
  end.

End Node.

Arguments EventNode G : clear implicits.

(** Modelled from the spec: the class [RequestGroup]
    ([perfmgr/RequestGroup.h] and its implementation are not among the
    sources).  Sections 3 and 4.1: a request is a value with an optional
    absolute deadline; a group is active when one of its requests is
    unexpired, or when it is the fallback tier with a configured
    default; its effective expiry is the largest remaining time among
    the live requests; a request whose deadline has passed is dropped
    when arbitration sees it; the effective value is the one of the most
    recently submitted live request, else the configured default. *)
Record Request := mkRequest {
  value : string;
  expire_at : option Z
}.

Record RequestGroup := mkRequestGroup {
  requests : list Request;          (* most recently submitted first *)
  default_value : option string
}.

Definition unexpired (now : Z) (r : Request) : bool :=
  match expire_at r with None => true | Some t => now <? t end.

Definition remaining (now : Z) (r : Request) : Z :=
  match expire_at r with None => milliseconds_max | Some t => t - now end.

Definition get_expiry (now : Z) (g : RequestGroup) (expire_time : Z)
  : bool * Z * RequestGroup :=
  let live := List.filter (unexpired now) (requests g) in
  let g' := mkRequestGroup live (default_value g) in
  match live, default_value g with
  | [], None => (false, expire_time, g')
  | [], Some _ => (true, milliseconds_max, g')
  | r :: rest, _ => (true, fold_right Z.max (remaining now r) (map (remaining now) rest), g')
  end.

Definition get_effective_value (g : RequestGroup) : string :=
  match requests g, default_value g with
  | r :: _, _ => value r
  | [], Some v => v
  | [], None => ""
  end.

#[export] Instance RequestGroup_ops : RequestGroupOps RequestGroup := {
  GetExpireTime := get_expiry;
  GetRequestValue := get_effective_value
}.

(** The scenario of section 8: tiers [Interactive], [Boost], [Default];
    [Interactive="max"] is submitted at [t=0] with a 500 ms lease. *)
Definition tiers_at_0 : list RequestGroup :=
  [ mkRequestGroup [mkRequest "max" (Some 500)] None;
    mkRequestGroup [] None;
    mkRequestGroup [] (Some "default") ].

Definition node_at_0 : EventNode RequestGroup :=
  mkEventNode "cpu" "/sys/cpu" tiers_at_0 2 2 true.

(** The node after the first [Update] at [t=0], and after a second one
    at [t=600]. *)
Definition node_after_0 : EventNode RequestGroup :=
  mkEventNode "cpu" "/sys/cpu" tiers_at_0 2 0 false.

Definition log_at_0 : list event :=
  [EvGetExpireTime 0 true; EvCallback "cpu" "/sys/cpu" "max"].

Definition tiers_at_600 : list RequestGroup :=
  [ mkRequestGroup [] None;
    mkRequestGroup [] None;
    mkRequestGroup [] (Some "default") ].

Definition node_after_600 : EventNode RequestGroup :=
  mkEventNode "cpu" "/sys/cpu" tiers_at_600 2 2 false.

Definition log_at_600 : list event :=
  [EvGetExpireTime 0 false; EvGetExpireTime 1 false; EvGetExpireTime 2 true;
   EvCallback "cpu" "/sys/cpu" "default"].

(** A node none of whose groups holds a request or a default. *)
Definition idle_node : EventNode RequestGroup :=
  mkEventNode "gpu" "/sys/gpu" [mkRequestGroup [] None; mkRequestGroup [] None] 1 1 false.

(** Only [Boost="mid"] holds a request, with a 500 ms lease; the node
    currently applies the default tier. *)
Definition idle_tier : RequestGroup := mkRequestGroup [] None.
Definition boost_tier : RequestGroup := mkRequestGroup [mkRequest "mid" (Some 500)] None.
Definition default_tier : RequestGroup := mkRequestGroup [] (Some "default").

Definition boost_node : EventNode RequestGroup :=
  mkEventNode "cpu" "/sys/cpu" [idle_tier; boost_tier; default_tier] 2 2 false.

Definition boost_node_after : EventNode RequestGroup :=
  mkEventNode "cpu" "/sys/cpu" [idle_tier; boost_tier; default_tier] 2 1 false.

Definition boost_log : list event :=
  [EvGetExpireTime 0 false; EvGetExpireTime 1 true; EvCallback "cpu" "/sys/cpu" "mid"].

(** A node as constructed with [reset_on_init] set: no request was
    submitted yet and the current index is the default index. *)
Definition fresh_node : EventNode RequestGroup :=
  mkEventNode "cpu" "/sys/cpu" tiers_at_600 2 2 true.

Definition env_at (trace : bool) (t : Z) : Env :=
  {| ATRACE_ENABLED := trace; steady_clock_now := t;
     WriteStringToFd := fun _ fd => 0 <=? fd |}.

End EventNode.

(* ===================================================================== *)
(** * BrownoutDetectedReporter.cpp *)
(* ===================================================================== *)

Module Brownout.

Definition READING_IDX : nat := 2.
Definition KEY_IDX : nat := 0.
Definition DEFAULT_BATTERY_TEMP : Z := 9999999.
Definition DEFAULT_BATTERY_SOC : Z := 100.
Definition DEFAULT_BATTERY_VOLT : Z := 5000000.
Definition ONE_SECOND_IN_US : Z := 1000000.

Definition INT_MIN : Z := - 2 ^ 31.
Definition INT_MAX : Z := 2 ^ 31 - 1.
Definition in_int (v : Z) : bool := (INT_MIN <=? v) && (v <=? INT_MAX).

(** The conversion of a [long] to [int]: the [int] congruent to the
    value modulo [2^32]. *)
Definition long_to_int (v : Z) : Z := (v + 2 ^ 31) mod 2 ^ 32 - 2 ^ 31.

(** ** Ways a call can end

    A call returns, leaves by a C++ exception ([std::stoi] throws), or
    runs into behaviour the language leaves undefined (indexing a
    [std::vector] past its end, [atoi] of a number no [int] holds). *)
Inductive exn := invalid_argument | out_of_range.

Inductive outcome (A : Type) :=
| Ok (a : A)
| Throw (e : exn)
| Undefined.
Arguments Ok {A} a.
Arguments Throw {A} e.
Arguments Undefined {A}.

Definition bind {A B} (m : outcome A) (k : A -> outcome B) : outcome B :=
  match m with
  | Ok a => k a
  | Throw e => Throw e
  | Undefined => Undefined
  end.

Notation "'let*' x ':=' m 'in' k" := (bind m (fun x => k))
  (at level 10, x name, m at level 100, k at level 200).

(** ** Characters and the C number parsers *)

Definition code (c : ascii) : Z := Z.of_nat (nat_of_ascii c).

(** [isspace] in the C locale: space, and [\t \n \v \f \r]. *)
Definition isspace (c : ascii) : bool :=
  (code c =? 32) || ((9 <=? code c) && (code c <=? 13)).

Definition isdigit (c : ascii) : bool := (48 <=? code c) && (code c <=? 57).

Fixpoint skip_space (s : string) : string :=
  match s with
  | String c s' => if isspace c then skip_space s' else s
  | EmptyString => s
  end.

(** The decimal digits [s] starts with, most significant first. *)
Fixpoint leading_digits (s : string) : list Z :=
  match s with
  | String c s' => if isdigit c then (code c - 48) :: leading_digits s' else []
  | EmptyString => []
  end.

Definition digits_value (ds : list Z) : Z := fold_left (fun a d => 10 * a + d) ds 0.

(** What [strtol(s, &end, 10)] converts, as an unbounded integer:
    leading white space, an optional sign, then digits; [None] when no
    digit follows (no conversion is performed). *)
Definition parse_decimal (s : string) : option Z :=
  let s1 := skip_space s in
  let '(negative, s2) :=
    match s1 with
    | String "-" r => (true, r)
    | String "+" r => (false, r)
    | _ => (false, s1)
    end in
  match leading_digits s2 with
  | [] => None
  | ds => Some (if negative then - digits_value ds else digits_value ds)
  end.

(** [std::stoi]: [std::invalid_argument] when nothing converts,
    [std::out_of_range] when the number is not an [int]. *)
Definition stoi (s : string) : outcome Z :=
  match parse_decimal s with
  | None => Throw invalid_argument
  | Some v => if in_int v then Ok v else Throw out_of_range
  end.

(** [atoi]: 0 when nothing converts; undefined when the number is not
    an [int]. *)
Definition atoi (s : string) : outcome Z :=
  match parse_decimal s with
  | None => Ok 0
  | Some v => if in_int v then Ok v else Undefined
  end.

(** [std::getline(stream, line, delim)] called until it fails: the
    pieces between delimiters; characters after the last delimiter form
    a last piece when there are any. *)
Fixpoint getlines_from (delim : ascii) (s : string) (cur : string) : list string :=
  match s with
  | EmptyString => if decide (cur = "") then [] else [cur]
  | String c s' =>
      if Ascii.eqb c delim then cur :: getlines_from delim s' ""
      else getlines_from delim s' (cur +:+ String c "")
  end.

Definition getlines (delim : ascii) (s : string) : list string :=
  getlines_from delim s "".

Definition newline : ascii := "010"%char.
Definition comma : ascii := ","%char.

Fixpoint is_prefix (p s : string) : bool :=
  match p, s with
  | EmptyString, _ => true
  | String a p', String b s' => Ascii.eqb a b && is_prefix p' s'
  | String _ _, EmptyString => false
  end.

(** [s.find(needle) != std::string::npos] *)
Fixpoint contains (needle s : string) : bool :=
  is_prefix needle s ||
  match s with
  | EmptyString => false
  | String _ s' => contains needle s'
  end.

(** ** Regular expressions

    The patterns of lines 52-60 use literals, the classes [\S], [\s],
    [\d], [[0-9]] and [[A-Z1-9]], the quantifier [+] on a class, and
    capture groups that are not nested.  [std::regex_match] succeeds
    when the whole line matches, so the anchors [^] and [$] add
    nothing. *)
Inductive cclass := CDigit | CSpace | CNonSpace | CUpperOrNonZeroDigit.

Definition class_mem (k : cclass) (c : ascii) : bool :=
  match k with
  | CDigit => isdigit c
  | CSpace => isspace c
  | CNonSpace => negb (isspace c)
  | CUpperOrNonZeroDigit =>
      ((65 <=? code c) && (code c <=? 90)) || ((49 <=? code c) && (code c <=? 57))
  end.

Inductive regex :=
| RLit (s : string)
| RClass (k : cclass)
| RPlus (k : cclass)
| RGroup (i : nat) (r : regex)
| RSeq (r1 r2 : regex).

Fixpoint mark_count (r : regex) : nat :=
  match r with
  | RGroup _ r' => S (mark_count r')
  | RSeq r1 r2 => (mark_count r1 + mark_count r2)%nat
  | _ => 0%nat
  end.

Fixpoint match_lit (lit s : string) : option string :=
  match lit, s with
  | EmptyString, _ => Some s
  | String a lit', String b s' => if Ascii.eqb a b then match_lit lit' s' else None
  | String _ _, EmptyString => None
  end.

(** [k+], greedy: the longest run is tried first, shorter ones on
    failure of what follows. *)
Fixpoint match_plus {A} (k : cclass) (s : string) (cont : string -> option A) : option A :=
  match s with
  | String c s' =>
      if class_mem k c then
        match match_plus k s' cont with
        | Some m => Some m
        | None => cont s'
        end
      else None
  | EmptyString => None
  end.

(** The part of [s] in front of its suffix [rest]. *)
Definition consumed (s rest : string) : string :=
  substring 0 (String.length s - String.length rest) s.

(** Backtracking matcher: [cont] receives what is left of the line and
    the captures so far. *)
Fixpoint rmatch (r : regex) (s : string) (caps : list string)
         (cont : string -> list string -> option (list string)) : option (list string) :=
  match r with
  | RLit l =>
      match match_lit l s with
      | Some rest => cont rest caps
      | None => None
      end
  | RClass k =>
      match s with
      | String c s' => if class_mem k c then cont s' caps else None
      | EmptyString => None
      end
  | RPlus k => match_plus k s (fun rest => cont rest caps)
  | RGroup i r' =>
      rmatch r' s caps (fun rest caps' => cont rest (<[i := consumed s rest]> caps'))
  | RSeq r1 r2 =>
      rmatch r1 s caps (fun rest caps' => rmatch r2 rest caps' cont)
  end.

(** [std::regex_match(line, pattern_match, pattern)]: [None] when the
    line does not match, else the sub-matches, the whole match first;
    [pattern_match.size()] is the length of the list. *)
Definition regex_match (line : string) (pattern : regex) : option (list string) :=
  rmatch pattern line (replicate (S (mark_count pattern)) "")
    (fun rest caps => if decide (rest = "") then Some (<[0%nat := line]> caps) else None).

(** [pattern_match[i].str()]; an index past the end designates an
    unmatched sub-match, whose string is empty. *)
Definition sub_match (m : list string) (i : nat) : string := nth i m "".

Fixpoint seq_of (rs : list regex) : regex :=
  match rs with
  | [] => RLit ""
  | [r] => r
  | r :: rest => RSeq r (seq_of rest)
  end.

(* "^\\S+\\s[0-9]+:[0-9]+:[0-9]+\\S+$" *)
Definition kTimestampPattern : regex :=
  seq_of [RPlus CNonSpace; RClass CSpace; RPlus CDigit; RLit ":"; RPlus CDigit;
          RLit ":"; RPlus CDigit; RPlus CNonSpace].
(* "^(\\S+)\\striggered\\sat\\s\\S+$" *)
Definition kIrqPattern : regex :=
  seq_of [RGroup 1 (RPlus CNonSpace); RClass CSpace; RLit "triggered"; RClass CSpace;
          RLit "at"; RClass CSpace; RPlus CNonSpace].
(* "^CH\\d+\\[(\\S+)\\],\\s(\\d+)$" *)
Definition kOdpmPattern : regex :=
  seq_of [RLit "CH"; RPlus CDigit; RLit "["; RGroup 1 (RPlus CNonSpace); RLit "],";
          RClass CSpace; RGroup 2 (RPlus CDigit)].
(* "^([A-Z1-9]+):(\\d+)$" *)
Definition kDvfsPattern : regex :=
  seq_of [RGroup 1 (RPlus CUpperOrNonZeroDigit); RLit ":"; RGroup 2 (RPlus CDigit)].

(** "^(key):(\\d+)$" *)
Definition key_reading (key : string) : regex :=
  seq_of [RGroup 1 (RLit key); RLit ":"; RGroup 2 (RPlus CDigit)].

Definition kFgPattern : regex := key_reading "voltage_now".
Definition kBatteryTempPattern : regex := key_reading "battery".
Definition kBatteryCyclePattern : regex := key_reading "battery_cycle".
Definition kBatterySocPattern : regex := key_reading "soc".
(* "^(LASTMEAL_UPDATED)$" *)
Definition kAlreadyUpdatedPattern : regex := RGroup 1 (RLit "LASTMEAL_UPDATED").

(** [enum Update] of the header: the two flags [updateIfFound] is
    called with. *)
Inductive Update := kUpdateMax | kUpdateMin.

(** [bool updateIfFound(std::string line, std::regex pattern,
    int *current_value, Update flag)], lines 92-113: the returned flag
    and the value [*current_value] holds afterwards. *)
Definition updateIfFound (line : string) (pattern : regex) (current_value : Z)
           (flag : Update) : outcome (bool * Z) :=
  match regex_match line pattern with
  | Some pattern_match =>
      if (length pattern_match <? READING_IDX + 1)%nat then Ok (false, current_value)
      else
        let* reading := stoi (sub_match pattern_match READING_IDX) in
        match flag with
        | kUpdateMax =>
            if current_value <? reading then Ok (true, reading)
            else Ok (true, current_value)
        | kUpdateMin =>
            if current_value >? reading then Ok (true, reading)
            else Ok (true, current_value)
        end
  | None => Ok (false, current_value)
  end.


(** ** Constants declared outside the translation unit

    [pixelstats/BrownoutDetectedReporter.h] (array sizes, CSV column
    numbers, the [Irq] enumeration) and the generated [pixelatoms.pb.h]
    (the enumerators of [BrownoutDetected], looked up by name) are not
    among the sources; their values are parameters. *)
Class Header := {
  ODPM_MAX_IDX : nat;
  DVFS_MAX_IDX : nat;
  TIMESTAMP_IDX : nat;
  IRQ_IDX : nat;
  SOC_IDX : nat;
  TEMP_IDX : nat;
  CYCLE_IDX : nat;
  VOLTAGE_IDX : nat;
  DVFS_CHANNEL_0 : nat;
  ODPM_CHANNEL_0 : nat;
  EVT_CNT_IDX_OILO1 : nat;
  EVT_CNT_IDX_OILO2 : nat;
  EVT_CNT_IDX_UVLO1 : nat;
  EVT_CNT_IDX_UVLO2 : nat;
  MAX_CURR : nat;
  IDX_VIMON_V : nat;
  IDX_VIMON_I : nat;
  SMPL_WARN : Z;
  UVLO1 : Z;
  UVLO2 : Z;
  BATOILO : Z;
  BATOILO2 : Z;
  BrownoutDetected : string -> Z
}.

(** The C library's time conversion: [strptime] with the format
    ["%Y-%m-%d %H:%M:%S"] followed by [mktime] ([None] when [strptime]
    rejects the text), and the number of [system_clock] ticks in a
    second. *)
Class Libc := {
  strptime_mktime : string -> option Z;
  system_clock_ticks_per_second : Z
}.

(** The device as the reporter sees it: files and system properties.
    [WriteStringToFile] returns its status and the device afterwards. *)
Class Platform (W : Type) := {
  ReadFileToString : string -> W -> option string;
  WriteStringToFile : string -> string -> W -> bool * W;
  GetProperty : string -> string -> W -> string
}.

(** [struct BrownoutDetectedInfo]: the fields the translation unit
    names; the two arrays have [ODPM_MAX_IDX] and [DVFS_MAX_IDX]
    elements. *)
Record BrownoutDetectedInfo := mkInfo {
  triggered_irq_ : Z;
  triggered_timestamp_ : Z;
  battery_temp_ : Z;
  battery_soc_ : Z;
  battery_cycle_ : Z;
  voltage_now_ : Z;
  odpm_value_ : list Z;
  dvfs_value_ : list Z;
  brownout_reason_ : Z;
  max_curr_ : Z;
  evt_cnt_uvlo1_ : Z;
  evt_cnt_uvlo2_ : Z;
  evt_cnt_oilo1_ : Z;
  evt_cnt_oilo2_ : Z;
  vimon_vbatt_ : Z;
  vimon_ibatt_ : Z;
  mitigation_method_0_ : Z;
  mitigation_method_0_count_ : Z;
  mitigation_method_0_time_us_ : Z
}.

Definition set_triggered_irq_ (v : Z) (m : BrownoutDetectedInfo) : BrownoutDetectedInfo :=
  mkInfo v (triggered_timestamp_ m) (battery_temp_ m) (battery_soc_ m)
    (battery_cycle_ m) (voltage_now_ m) (odpm_value_ m) (dvfs_value_ m)
    (brownout_reason_ m) (max_curr_ m) (evt_cnt_uvlo1_ m) (evt_cnt_uvlo2_ m)
    (evt_cnt_oilo1_ m) (evt_cnt_oilo2_ m) (vimon_vbatt_ m) (vimon_ibatt_ m)
    (mitigation_method_0_ m) (mitigation_method_0_count_ m)
    (mitigation_method_0_time_us_ m).

Definition set_triggered_timestamp_ (v : Z) (m : BrownoutDetectedInfo) : BrownoutDetectedInfo :=
  mkInfo (triggered_irq_ m) v (battery_temp_ m) (battery_soc_ m)
    (battery_cycle_ m) (voltage_now_ m) (odpm_value_ m) (dvfs_value_ m)
    (brownout_reason_ m) (max_curr_ m) (evt_cnt_uvlo1_ m) (evt_cnt_uvlo2_ m)
    (evt_cnt_oilo1_ m) (evt_cnt_oilo2_ m) (vimon_vbatt_ m) (vimon_ibatt_ m)
    (mitigation_method_0_ m) (mitigation_method_0_count_ m)
    (mitigation_method_0_time_us_ m).

Definition set_battery_temp_ (v : Z) (m : BrownoutDetectedInfo) : BrownoutDetectedInfo :=
  mkInfo (triggered_irq_ m) (triggered_timestamp_ m) v (battery_soc_ m)
    (battery_cycle_ m) (voltage_now_ m) (odpm_value_ m) (dvfs_value_ m)
    (brownout_reason_ m) (max_curr_ m) (evt_cnt_uvlo1_ m) (evt_cnt_uvlo2_ m)
    (evt_cnt_oilo1_ m) (evt_cnt_oilo2_ m) (vimon_vbatt_ m) (vimon_ibatt_ m)
    (mitigation_method_0_ m) (mitigation_method_0_count_ m)
    (mitigation_method_0_time_us_ m).

Definition set_battery_soc_ (v : Z) (m : BrownoutDetectedInfo) : BrownoutDetectedInfo :=
  mkInfo (triggered_irq_ m) (triggered_timestamp_ m) (battery_temp_ m) v
    (battery_cycle_ m) (voltage_now_ m) (odpm_value_ m) (dvfs_value_ m)
    (brownout_reason_ m) (max_curr_ m) (evt_cnt_uvlo1_ m) (evt_cnt_uvlo2_ m)
    (evt_cnt_oilo1_ m) (evt_cnt_oilo2_ m) (vimon_vbatt_ m) (vimon_ibatt_ m)
    (mitigation_method_0_ m) (mitigation_method_0_count_ m)
    (mitigation_method_0_time_us_ m).

Definition set_battery_cycle_ (v : Z) (m : BrownoutDetectedInfo) : BrownoutDetectedInfo :=
  mkInfo (triggered_irq_ m) (triggered_timestamp_ m) (battery_temp_ m)
    (battery_soc_ m) v (voltage_now_ m) (odpm_value_ m) (dvfs_value_ m)
    (brownout_reason_ m) (max_curr_ m) (evt_cnt_uvlo1_ m) (evt_cnt_uvlo2_ m)
    (evt_cnt_oilo1_ m) (evt_cnt_oilo2_ m) (vimon_vbatt_ m) (vimon_ibatt_ m)
    (mitigation_method_0_ m) (mitigation_method_0_count_ m)
    (mitigation_method_0_time_us_ m).

Definition set_voltage_now_ (v : Z) (m : BrownoutDetectedInfo) : BrownoutDetectedInfo :=
  mkInfo (triggered_irq_ m) (triggered_timestamp_ m) (battery_temp_ m)
    (battery_soc_ m) (battery_cycle_ m) v (odpm_value_ m) (dvfs_value_ m)
    (brownout_reason_ m) (max_curr_ m) (evt_cnt_uvlo1_ m) (evt_cnt_uvlo2_ m)
    (evt_cnt_oilo1_ m) (evt_cnt_oilo2_ m) (vimon_vbatt_ m) (vimon_ibatt_ m)
    (mitigation_method_0_ m) (mitigation_method_0_count_ m)
    (mitigation_method_0_time_us_ m).

Definition set_odpm_value_ (v : list Z) (m : BrownoutDetectedInfo) : BrownoutDetectedInfo :=
  mkInfo (triggered_irq_ m) (triggered_timestamp_ m) (battery_temp_ m)
    (battery_soc_ m) (battery_cycle_ m) (voltage_now_ m) v (dvfs_value_ m)
    (brownout_reason_ m) (max_curr_ m) (evt_cnt_uvlo1_ m) (evt_cnt_uvlo2_ m)
    (evt_cnt_oilo1_ m) (evt_cnt_oilo2_ m) (vimon_vbatt_ m) (vimon_ibatt_ m)
    (mitigation_method_0_ m) (mitigation_method_0_count_ m)
    (mitigation_method_0_time_us_ m).

Definition set_dvfs_value_ (v : list Z) (m : BrownoutDetectedInfo) : BrownoutDetectedInfo :=
  mkInfo (triggered_irq_ m) (triggered_timestamp_ m) (battery_temp_ m)
    (battery_soc_ m) (battery_cycle_ m) (voltage_now_ m) (odpm_value_ m) v
    (brownout_reason_ m) (max_curr_ m) (evt_cnt_uvlo1_ m) (evt_cnt_uvlo2_ m)
    (evt_cnt_oilo1_ m) (evt_cnt_oilo2_ m) (vimon_vbatt_ m) (vimon_ibatt_ m)
    (mitigation_method_0_ m) (mitigation_method_0_count_ m)
    (mitigation_method_0_time_us_ m).

Definition set_brownout_reason_ (v : Z) (m : BrownoutDetectedInfo) : BrownoutDetectedInfo :=
  mkInfo (triggered_irq_ m) (triggered_timestamp_ m) (battery_temp_ m)
    (battery_soc_ m) (battery_cycle_ m) (voltage_now_ m) (odpm_value_ m)
    (dvfs_value_ m) v (max_curr_ m) (evt_cnt_uvlo1_ m) (evt_cnt_uvlo2_ m)
    (evt_cnt_oilo1_ m) (evt_cnt_oilo2_ m) (vimon_vbatt_ m) (vimon_ibatt_ m)
    (mitigation_method_0_ m) (mitigation_method_0_count_ m)
    (mitigation_method_0_time_us_ m).

Definition set_max_curr_ (v : Z) (m : BrownoutDetectedInfo) : BrownoutDetectedInfo :=
  mkInfo (triggered_irq_ m) (triggered_timestamp_ m) (battery_temp_ m)
    (battery_soc_ m) (battery_cycle_ m) (voltage_now_ m) (odpm_value_ m)
    (dvfs_value_ m) (brownout_reason_ m) v (evt_cnt_uvlo1_ m)
    (evt_cnt_uvlo2_ m) (evt_cnt_oilo1_ m) (evt_cnt_oilo2_ m) (vimon_vbatt_
    m) (vimon_ibatt_ m) (mitigation_method_0_ m) (mitigation_method_0_count_
    m) (mitigation_method_0_time_us_ m).

Definition set_evt_cnt_uvlo1_ (v : Z) (m : BrownoutDetectedInfo) : BrownoutDetectedInfo :=
  mkInfo (triggered_irq_ m) (triggered_timestamp_ m) (battery_temp_ m)
    (battery_soc_ m) (battery_cycle_ m) (voltage_now_ m) (odpm_value_ m)
    (dvfs_value_ m) (brownout_reason_ m) (max_curr_ m) v (evt_cnt_uvlo2_ m)
    (evt_cnt_oilo1_ m) (evt_cnt_oilo2_ m) (vimon_vbatt_ m) (vimon_ibatt_ m)
    (mitigation_method_0_ m) (mitigation_method_0_count_ m)
    (mitigation_method_0_time_us_ m).

Definition set_evt_cnt_uvlo2_ (v : Z) (m : BrownoutDetectedInfo) : BrownoutDetectedInfo :=
  mkInfo (triggered_irq_ m) (triggered_timestamp_ m) (battery_temp_ m)
    (battery_soc_ m) (battery_cycle_ m) (voltage_now_ m) (odpm_value_ m)
    (dvfs_value_ m) (brownout_reason_ m) (max_curr_ m) (evt_cnt_uvlo1_ m) v
    (evt_cnt_oilo1_ m) (evt_cnt_oilo2_ m) (vimon_vbatt_ m) (vimon_ibatt_ m)
    (mitigation_method_0_ m) (mitigation_method_0_count_ m)
    (mitigation_method_0_time_us_ m).

Definition set_evt_cnt_oilo1_ (v : Z) (m : BrownoutDetectedInfo) : BrownoutDetectedInfo :=
  mkInfo (triggered_irq_ m) (triggered_timestamp_ m) (battery_temp_ m)
    (battery_soc_ m) (battery_cycle_ m) (voltage_now_ m) (odpm_value_ m)
    (dvfs_value_ m) (brownout_reason_ m) (max_curr_ m) (evt_cnt_uvlo1_ m)
    (evt_cnt_uvlo2_ m) v (evt_cnt_oilo2_ m) (vimon_vbatt_ m) (vimon_ibatt_
    m) (mitigation_method_0_ m) (mitigation_method_0_count_ m)
    (mitigation_method_0_time_us_ m).

Definition set_evt_cnt_oilo2_ (v : Z) (m : BrownoutDetectedInfo) : BrownoutDetectedInfo :=
  mkInfo (triggered_irq_ m) (triggered_timestamp_ m) (battery_temp_ m)
    (battery_soc_ m) (battery_cycle_ m) (voltage_now_ m) (odpm_value_ m)
    (dvfs_value_ m) (brownout_reason_ m) (max_curr_ m) (evt_cnt_uvlo1_ m)
    (evt_cnt_uvlo2_ m) (evt_cnt_oilo1_ m) v (vimon_vbatt_ m) (vimon_ibatt_
    m) (mitigation_method_0_ m) (mitigation_method_0_count_ m)
    (mitigation_method_0_time_us_ m).

Definition set_vimon_vbatt_ (v : Z) (m : BrownoutDetectedInfo) : BrownoutDetectedInfo :=
  mkInfo (triggered_irq_ m) (triggered_timestamp_ m) (battery_temp_ m)
    (battery_soc_ m) (battery_cycle_ m) (voltage_now_ m) (odpm_value_ m)
    (dvfs_value_ m) (brownout_reason_ m) (max_curr_ m) (evt_cnt_uvlo1_ m)
    (evt_cnt_uvlo2_ m) (evt_cnt_oilo1_ m) (evt_cnt_oilo2_ m) v (vimon_ibatt_
    m) (mitigation_method_0_ m) (mitigation_method_0_count_ m)
    (mitigation_method_0_time_us_ m).

Definition set_vimon_ibatt_ (v : Z) (m : BrownoutDetectedInfo) : BrownoutDetectedInfo :=
  mkInfo (triggered_irq_ m) (triggered_timestamp_ m) (battery_temp_ m)
    (battery_soc_ m) (battery_cycle_ m) (voltage_now_ m) (odpm_value_ m)
    (dvfs_value_ m) (brownout_reason_ m) (max_curr_ m) (evt_cnt_uvlo1_ m)
    (evt_cnt_uvlo2_ m) (evt_cnt_oilo1_ m) (evt_cnt_oilo2_ m) (vimon_vbatt_
    m) v (mitigation_method_0_ m) (mitigation_method_0_count_ m)
    (mitigation_method_0_time_us_ m).


(** What leaves the reporter. *)
Inductive event :=
| EvWriteStringToFile (content path : string)
| EvUploadData (max_value : BrownoutDetectedInfo).

Definition is_upload (e : event) : bool :=
  match e with EvUploadData _ => true | _ => false end.
Definition is_write (e : event) : bool :=
  match e with EvWriteStringToFile _ _ => true | _ => false end.
Definition uploads (log : list event) : list event := List.filter is_upload log.
Definition writes (log : list event) : list event := List.filter is_write log.

(** Lines 62-90: the keys of [kBrownoutReason] with the name of the
    enumerator each maps to. *)
Definition kBrownoutReason : list (string * string) :=
  [ ("uvlo,pmic,if", "UVLO_IF"); ("ocp,pmic,if", "OCP_IF"); ("ocp2,pmic,if", "OCP2_IF");
    ("uvlo,pmic,main", "UVLO_MAIN"); ("uvlo,pmic,sub", "UVLO_SUB");
    ("ocp,buck1m", "OCP_B1M"); ("ocp,buck2m", "OCP_B2M"); ("ocp,buck3m", "OCP_B3M");
    ("ocp,buck4m", "OCP_B4M"); ("ocp,buck5m", "OCP_B5M"); ("ocp,buck6m", "OCP_B6M");
    ("ocp,buck7m", "OCP_B7M"); ("ocp,buck8m", "OCP_B8M"); ("ocp,buck9m", "OCP_B9M");
    ("ocp,buck10m", "OCP_B10M"); ("ocp,buck1s", "OCP_B1S"); ("ocp,buck2s", "OCP_B2S");
    ("ocp,buck3s", "OCP_B3S"); ("ocp,buck4s", "OCP_B4S"); ("ocp,buck5s", "OCP_B5S");
    ("ocp,buck6s", "OCP_B6S"); ("ocp,buck7s", "OCP_B7S"); ("ocp,buck8s", "OCP_B8S");
    ("ocp,buck9s", "OCP_B9S"); ("ocp,buck10s", "OCP_B10S"); ("ocp,buckas", "OCP_BAS");
    ("ocp,buckbs", "OCP_BBS"); ("ocp,buckcs", "OCP_BCS"); ("ocp,buckds", "OCP_BDS") ].

Fixpoint find_key (key : string) (table : list (string * string)) : option string :=
  match table with
  | [] => None
  | (k, v) :: rest => if decide (k = key) then Some v else find_key key rest
  end.

Definition LASTMEAL_UPDATED : string := "LASTMEAL_UPDATED".

(** How one pass through the body of a [while] loop ends: by reaching
    its end or [continue], by [break], or by [return]. *)
Inductive flow (S : Type) :=
| Continue (st : S)
| Break (st : S)
| Return.
Arguments Continue {S} st.
Arguments Break {S} st.
Arguments Return {S}.

(** [while (std::getline(content, line)) body]: the locals when the
    loop is left by its condition or by [break]; [None] when the body
    returned from the function. *)
Fixpoint while_getline {S} (body : string -> S -> outcome (flow S))
         (lines : list string) (st : S) : outcome (option S) :=
  match lines with
  | [] => Ok (Some st)
  | line :: rest =>
      let* step := body line st in
      match step with
      | Continue st' => while_getline body rest st'
      | Break st' => Ok (Some st')
      | Return => Ok None
      end
  end.

Definition matches (line : string) (pattern : regex) : bool :=
  match regex_match line pattern with Some _ => true | None => false end.

Definition at_index (row : list string) (i : nat) : outcome string :=
  match row !! i with
  | Some field => Ok field
  | None => Undefined
  end.

Section Reporter.

Context `{Header} `{Libc} {W : Type} `{Platform W}.

(** [struct BrownoutDetectedInfo max_value = {}] *)
Definition zero_info : BrownoutDetectedInfo :=
  mkInfo 0 0 0 0 0 0 (replicate ODPM_MAX_IDX 0) (replicate DVFS_MAX_IDX 0)
         0 0 0 0 0 0 0 0 0 0 0.

(** [long parseTimestamp(std::string timestamp)], lines 227-235 *)
Definition parseTimestamp (timestamp : string) : Z :=
  match strptime_mktime (substring 0 19 timestamp) with
  | Some t => Z.quot (t * system_clock_ticks_per_second) ONE_SECOND_IN_US
  | None => 0
  end.

(** [int brownoutReasonCheck(const std::string &brownoutReasonProp)],
    lines 237-248 *)
Definition brownoutReasonCheck (brownoutReasonProp : string) (w : W) : Z :=
  let reason := GetProperty brownoutReasonProp "" w in
  if decide (reason = "") then -1
  else
    match find_key reason kBrownoutReason with
    | None => -1
    | Some enumerator => BrownoutDetected enumerator
    end.

(** [int parseIRQ(const std::string &element)], lines 250-264 *)
Definition parseIRQ (element : string) : outcome Z :=
  let* idx := atoi element in
  if idx =? SMPL_WARN then Ok (BrownoutDetected "SMPL_WARN")
  else if idx =? UVLO1 then Ok (BrownoutDetected "UVLO1")
  else if idx =? UVLO2 then Ok (BrownoutDetected "UVLO2")
  else if idx =? BATOILO then Ok (BrownoutDetected "BATOILO")
  else if idx =? BATOILO2 then Ok (BrownoutDetected "BATOILO2")
  else Ok (-1).

(** [max_value] as both functions set it up before the loop. *)
Definition initial_info (brownout_reason : Z) : BrownoutDetectedInfo :=
  set_brownout_reason_ brownout_reason
    (set_battery_temp_ DEFAULT_BATTERY_TEMP
       (set_battery_soc_ DEFAULT_BATTERY_SOC
          (set_voltage_now_ DEFAULT_BATTERY_VOLT zero_info))).

(** The index after [index++] and the wrap at [max_idx]. *)
Definition next_index (index max_idx : nat) : nat :=
  if Nat.eqb (S index) max_idx then 0%nat else S index.

(** The body of the [while] loop of [logBrownout], lines 355-413, on
    the locals [(max_value, isAlreadyUpdated, odpm_index, dvfs_index)]. *)
Definition logBrownout_line (line : string)
           (st : BrownoutDetectedInfo * bool * nat * nat)
  : outcome (flow (BrownoutDetectedInfo * bool * nat * nat)) :=
  let '(max_value, isAlreadyUpdated, odpm_index, dvfs_index) := st in
  if matches line kAlreadyUpdatedPattern then
    Ok (Break (max_value, true, odpm_index, dvfs_index))
  else
  match regex_match line kIrqPattern with
  | Some pattern_match =>
      if (length pattern_match <? KEY_IDX + 1)%nat then Ok Return
      else
        let irq := sub_match pattern_match KEY_IDX in
        if contains "batoilo" irq then
          Ok (Continue (set_triggered_irq_ (BrownoutDetected "BATOILO") max_value,
                        isAlreadyUpdated, odpm_index, dvfs_index))
        else if contains "vdroop1" irq then
          Ok (Continue (set_triggered_irq_ (BrownoutDetected "UVLO1") max_value,
                        isAlreadyUpdated, odpm_index, dvfs_index))
        else if contains "vdroop2" irq then
          Ok (Continue (set_triggered_irq_ (BrownoutDetected "UVLO2") max_value,
                        isAlreadyUpdated, odpm_index, dvfs_index))
        else if contains "smpl_gm" irq then
          Ok (Continue (set_triggered_irq_ (BrownoutDetected "SMPL_WARN") max_value,
                        isAlreadyUpdated, odpm_index, dvfs_index))
        else Ok (Continue st)
  | None =>
  if matches line kTimestampPattern then
    Ok (Continue (set_triggered_timestamp_ (parseTimestamp line) max_value,
                  isAlreadyUpdated, odpm_index, dvfs_index))
  else
  let* soc := updateIfFound line kBatterySocPattern (battery_soc_ max_value) kUpdateMin in
  if fst soc then
    Ok (Continue (set_battery_soc_ (snd soc) max_value,
                  isAlreadyUpdated, odpm_index, dvfs_index))
  else
  let* temp := updateIfFound line kBatteryTempPattern (battery_temp_ max_value) kUpdateMin in
  if fst temp then
    Ok (Continue (set_battery_temp_ (snd temp) max_value,
                  isAlreadyUpdated, odpm_index, dvfs_index))
  else
  let* cycle :=
    updateIfFound line kBatteryCyclePattern (battery_cycle_ max_value) kUpdateMax in
  if fst cycle then
    Ok (Continue (set_battery_cycle_ (snd cycle) max_value,
                  isAlreadyUpdated, odpm_index, dvfs_index))
  else
  let* volt := updateIfFound line kFgPattern (voltage_now_ max_value) kUpdateMin in
  if fst volt then
    Ok (Continue (set_voltage_now_ (snd volt) max_value,
                  isAlreadyUpdated, odpm_index, dvfs_index))
  else
  let* dvfs :=
    updateIfFound line kDvfsPattern (nth dvfs_index (dvfs_value_ max_value) 0) kUpdateMax in
  if fst dvfs then
    if (dvfs_index <? length (dvfs_value_ max_value))%nat then
      Ok (Continue (set_dvfs_value_ (<[dvfs_index := snd dvfs]> (dvfs_value_ max_value))
                                    max_value,
                    isAlreadyUpdated, odpm_index, next_index dvfs_index DVFS_MAX_IDX))
    else Undefined
  else
  let* odpm :=
    updateIfFound line kOdpmPattern (nth odpm_index (odpm_value_ max_value) 0) kUpdateMax in
  if fst odpm then
    if (odpm_index <? length (odpm_value_ max_value))%nat then
      Ok (Continue (set_odpm_value_ (<[odpm_index := snd odpm]> (odpm_value_ max_value))
                                    max_value,
                    isAlreadyUpdated, next_index odpm_index ODPM_MAX_IDX, dvfs_index))
    else Undefined
  else Ok (Continue st)
  end.

(** Lines 327-331 and 415-419: the guarded rewrite and upload both
    functions end with. *)
Definition finish (file path : string) (w : W)
           (isAlreadyUpdated : bool) (max_value : BrownoutDetectedInfo)
  : W * list event :=
  if negb isAlreadyUpdated && negb (battery_temp_ max_value =? DEFAULT_BATTERY_TEMP) then
    let file_content := LASTMEAL_UPDATED +:+ String newline "" +:+ file in
    let w' := snd (WriteStringToFile file_content path w) in
    (w', [EvWriteStringToFile file_content path; EvUploadData max_value])
  else (w, []).

(** [void logBrownout(stats_client, logFilePath, brownoutReasonProp)],
    lines 334-420 *)
Definition logBrownout (logFilePath brownoutReasonProp : string) (w : W)
  : outcome (W * list event) :=
  match ReadFileToString logFilePath w with
  | None => Ok (w, [])
  | Some logFile =>
      let brownout_reason := brownoutReasonCheck brownoutReasonProp w in
      if brownout_reason <? 0 then Ok (w, [])
      else
        let* locals := while_getline logBrownout_line (getlines newline logFile)
                         (initial_info brownout_reason, false, 0%nat, 0%nat) in
        match locals with
        | Some (max_value, isAlreadyUpdated, _, _) =>
            Ok (finish logFile logFilePath w isAlreadyUpdated max_value)
        | None => Ok (w, [])
        end
  end.

(** [for (i = 0; i < count; i++) array[i] = atoi(row[i + first])],
    lines 309-314, from [i] on with [count] iterations left. *)
Fixpoint read_channels (row : list string) (first count i : nat) (array : list Z)
  : outcome (list Z) :=
  match count with
  | O => Ok array
  | S count' =>
      let* field := at_index row (i + first) in
      let* v := atoi field in
      if (i <? length array)%nat then read_channels row first count' (S i) (<[i := v]> array)
      else Undefined
  end.

(** The body of the [while] loop of [logBrownoutCsv], lines 288-325, on
    the locals [(max_value, isAlreadyUpdated, row_num)]. *)
Definition logBrownoutCsv_line (line : string) (st : BrownoutDetectedInfo * bool * Z)
  : outcome (flow (BrownoutDetectedInfo * bool * Z)) :=
  let '(max_value, isAlreadyUpdated, row_num) := st in
  if matches line kAlreadyUpdatedPattern then Ok (Break (max_value, true, row_num))
  else
  let row_num := row_num + 1 in
  if row_num =? 1 then Ok (Continue (max_value, isAlreadyUpdated, row_num))
  else
  let row := getlines comma line in
  let* f := at_index row TIMESTAMP_IDX in
  let max_value := set_triggered_timestamp_ (parseTimestamp f) max_value in
  let* f := at_index row IRQ_IDX in
  let* v := parseIRQ f in
  let max_value := set_triggered_irq_ v max_value in
  let* f := at_index row SOC_IDX in
  let* v := atoi f in
  let max_value := set_battery_soc_ v max_value in
  let* f := at_index row TEMP_IDX in
  let* v := atoi f in
  let max_value := set_battery_temp_ v max_value in
  let* f := at_index row CYCLE_IDX in
  let* v := atoi f in
  let max_value := set_battery_cycle_ v max_value in
  let* f := at_index row VOLTAGE_IDX in
  let* v := atoi f in
  let max_value := set_voltage_now_ v max_value in
  let* dvfs := read_channels row DVFS_CHANNEL_0 DVFS_MAX_IDX 0 (dvfs_value_ max_value) in
  let max_value := set_dvfs_value_ dvfs max_value in
  let* odpm := read_channels row ODPM_CHANNEL_0 ODPM_MAX_IDX 0 (odpm_value_ max_value) in
  let max_value := set_odpm_value_ odpm max_value in
  let* max_value :=
    if (MAX_CURR <? length row)%nat then
      let* f := at_index row EVT_CNT_IDX_OILO1 in
      let* oilo1 := atoi f in
      let* f := at_index row EVT_CNT_IDX_OILO2 in
      let* oilo2 := atoi f in
      let* f := at_index row EVT_CNT_IDX_UVLO1 in
      let* uvlo1 := atoi f in
      let* f := at_index row EVT_CNT_IDX_UVLO2 in
      let* uvlo2 := atoi f in
      let* f := at_index row MAX_CURR in
      let* curr := atoi f in
      Ok (set_max_curr_ curr
            (set_evt_cnt_uvlo2_ uvlo2
               (set_evt_cnt_uvlo1_ uvlo1
                  (set_evt_cnt_oilo2_ oilo2 (set_evt_cnt_oilo1_ oilo1 max_value)))))
    else Ok max_value in
  let* max_value :=
    if (IDX_VIMON_I <? length row)%nat then
      let* f := at_index row IDX_VIMON_V in
      let* vbatt := atoi f in
      let* f := at_index row IDX_VIMON_I in
      let* ibatt := atoi f in
      Ok (set_vimon_ibatt_ ibatt (set_vimon_vbatt_ vbatt max_value))
    else Ok max_value in
  Ok (Continue (max_value, isAlreadyUpdated, row_num)).

(** [void logBrownoutCsv(stats_client, CsvFilePath, brownoutReasonProp)],
    lines 266-332 *)
Definition logBrownoutCsv (CsvFilePath brownoutReasonProp : string) (w : W)
  : outcome (W * list event) :=
  match ReadFileToString CsvFilePath w with
  | None => Ok (w, [])
  | Some csvFile =>
      let brownout_reason := brownoutReasonCheck brownoutReasonProp w in
      if brownout_reason <? 0 then Ok (w, [])
      else
        let* locals := while_getline logBrownoutCsv_line (getlines newline csvFile)
                         (initial_info brownout_reason, false, 0) in
        match locals with
        | Some (max_value, isAlreadyUpdated, _) =>
            Ok (finish csvFile CsvFilePath w isAlreadyUpdated max_value)
        | None => Ok (w, [])
        end
  end.

(** [max_value] and [isAlreadyUpdated] when the loop of [logBrownout]
    is left, [None] when the body returned. *)
Definition logBrownout_scan (brownout_reason : Z) (lines : list string)
  : outcome (option (BrownoutDetectedInfo * bool)) :=
  let* locals := while_getline logBrownout_line lines
                   (initial_info brownout_reason, false, 0%nat, 0%nat) in
  Ok (match locals with
      | Some (max_value, isAlreadyUpdated, _, _) => Some (max_value, isAlreadyUpdated)
      | None => None
      end).

(** The same for the loop of [logBrownoutCsv]. *)
Definition logBrownoutCsv_scan (brownout_reason : Z) (lines : list string)
  : outcome (option (BrownoutDetectedInfo * bool)) :=
  let* locals := while_getline logBrownoutCsv_line lines
                   (initial_info brownout_reason, false, 0) in
  Ok (match locals with
      | Some (max_value, isAlreadyUpdated, _) => Some (max_value, isAlreadyUpdated)
      | None => None
      end).

(** The four conditions of the upload guard, for a file [file] and the
    record [max_value] the scan ends with: the file is readable, the
    reason property names a known reason, no line of the file is the
    marker, and the battery temperature is not the default. *)
Definition upload_conditions
           (scan : Z -> list string -> outcome (option (BrownoutDetectedInfo * bool)))
           (path prop : string) (w : W) (file : string)
           (max_value : BrownoutDetectedInfo) : Prop :=
  ReadFileToString path w = Some file /\
  0 <= brownoutReasonCheck prop w /\
  ~ In LASTMEAL_UPDATED (getlines newline file) /\
  (exists isAlreadyUpdated,
     scan (brownoutReasonCheck prop w) (getlines newline file)
     = Ok (Some (max_value, isAlreadyUpdated))) /\
  battery_temp_ max_value <> DEFAULT_BATTERY_TEMP.

(** What [android::base] promises of its two file functions (the
    library is not among the sources): a write that reports success is
    what a later read of the path returns. *)
Definition writes_are_read_back : Prop :=
  forall content path w,
    fst (WriteStringToFile content path w) = true ->
    ReadFileToString path (snd (WriteStringToFile content path w)) = Some content.

(** The upload guard of an entry point [run] whose loop is [scan]:
    - a run that comes to its end either meets the four conditions,
      calls [WriteStringToFile] with the old content and the marker
      line put in front and then uploads [max_value], or does not meet
      them and does neither;
    - the scan reads nothing after a marker line;
    - on a file that begins with the marker line, on an unreadable
      file and on an unknown reason the run comes to its end without
      rewrite or upload;
    - when a run uploads and its write reports success, the file is
      the old content with the marker line in front, and a second run
      on the resulting file system, whatever the reason property,
      comes to its end without rewrite or upload. *)
Definition upload_guarded
           (run : string -> string -> W -> outcome (W * list event))
           (scan : Z -> list string -> outcome (option (BrownoutDetectedInfo * bool)))
  : Prop :=
  (forall path prop w w' log,
     run path prop w = Ok (w', log) ->
     (exists file max_value,
        upload_conditions scan path prop w file max_value /\
        log = [EvWriteStringToFile (LASTMEAL_UPDATED +:+ String newline "" +:+ file) path;
               EvUploadData max_value] /\
        w' = snd (WriteStringToFile (LASTMEAL_UPDATED +:+ String newline "" +:+ file) path w))
     \/
     ((~ exists file max_value, upload_conditions scan path prop w file max_value) /\
      log = [] /\ w' = w)) /\
  (forall brownout_reason pre post,
     scan brownout_reason (pre ++ LASTMEAL_UPDATED :: post)
     = scan brownout_reason (pre ++ [LASTMEAL_UPDATED])) /\
  (forall path prop w file,
     ReadFileToString path w = Some (LASTMEAL_UPDATED +:+ String newline "" +:+ file) ->
     run path prop w = Ok (w, [])) /\
  (forall path prop w,
     ReadFileToString path w = None \/ brownoutReasonCheck prop w < 0 ->
     run path prop w = Ok (w, [])) /\
  (writes_are_read_back ->
   forall path prop w w' log max_value,
     run path prop w = Ok (w', log) ->
     In (EvUploadData max_value) log ->
     (forall content, In (EvWriteStringToFile content path) log ->
        fst (WriteStringToFile content path w) = true) ->
     exists file,
       ReadFileToString path w = Some file /\
       ReadFileToString path w'
       = Some (LASTMEAL_UPDATED +:+ String newline "" +:+ file) /\
       forall prop', run path prop' w' = Ok (w', [])).

End Reporter.

(** ** A device to run the reporter on

    Files and properties are finite maps; a write stores the content;
    a property that is unset or empty reads as the default. *)
Record Device := mkDevice {
  files : gmap string string;
  properties : gmap string string
}.

#[export] Instance Device_platform : Platform Device := {
  ReadFileToString path w := files w !! path;
  WriteStringToFile content path w :=
    (true, mkDevice (<[path := content]> (files w)) (properties w));
  GetProperty key default_value w :=
    match properties w !! key with
    | Some v => if decide (v = "") then default_value else v
    | None => default_value
    end
}.

(** A device whose files can be read and not written:
    [WriteStringToFile] reports failure and changes nothing. *)
Record ReadOnlyDevice := mkReadOnly {
  mounted : Device
}.

#[export] Instance ReadOnlyDevice_platform : Platform ReadOnlyDevice := {
  ReadFileToString path w := files (mounted w) !! path;
  WriteStringToFile content path w := (false, w);
  GetProperty key default_value w := GetProperty key default_value (mounted w)
}.

(** Values for the constants of the two absent headers, to run the
    functions on concrete files; the theorems below hold for every
    choice. *)
Definition sample_enumerators : list (string * Z) :=
  [ ("SMPL_WARN", 1); ("UVLO1", 2); ("UVLO2", 3); ("BATOILO", 4); ("BATOILO2", 5);
    ("UVLO_IF", 6); ("OCP_IF", 7); ("OCP2_IF", 8); ("UVLO_MAIN", 9); ("UVLO_SUB", 10) ].

Fixpoint enumerator_value (name : string) (table : list (string * Z)) : Z :=
  match table with
  | [] => 0
  | (k, v) :: rest => if decide (k = name) then v else enumerator_value name rest
  end.

#[export] Instance sample_header : Header := {
  ODPM_MAX_IDX := 24;
  DVFS_MAX_IDX := 6;
  TIMESTAMP_IDX := 0;
  IRQ_IDX := 1;
  SOC_IDX := 2;
  TEMP_IDX := 3;
  CYCLE_IDX := 4;
  VOLTAGE_IDX := 5;
  DVFS_CHANNEL_0 := 7;
  ODPM_CHANNEL_0 := 13;
  EVT_CNT_IDX_OILO1 := 40;
  EVT_CNT_IDX_OILO2 := 41;
  EVT_CNT_IDX_UVLO1 := 38;
  EVT_CNT_IDX_UVLO2 := 39;
  MAX_CURR := 42;
  IDX_VIMON_V := 43;
  IDX_VIMON_I := 44;
  SMPL_WARN := 0;
  UVLO1 := 1;
  UVLO2 := 2;
  BATOILO := 3;
  BATOILO2 := 4;
  BrownoutDetected name := enumerator_value name sample_enumerators
}.

#[export] Instance sample_libc : Libc := {
  strptime_mktime text := if decide (text = "2024-01-01 00:00:00") then Some 1704067200 else None;
  system_clock_ticks_per_second := 1000000
}.

Definition nl : string := String newline "".

Definition reason_prop : string := "vendor.brownout_reason".
Definition log_path : string := "/data/vendor/mitigation/lastmeal.txt".
Definition csv_path : string := "/data/vendor/mitigation/lastmeal.csv".

Definition device_with (path content : string) : Device :=
  mkDevice {[ path := content ]} {[ reason_prop := "uvlo,pmic,main" ]}.

(** A last-meal log with a trigger, a time stamp and four readings. *)
Definition sample_log : string :=
  "vdroop1 triggered at 12345.678" +:+ nl +:+
  "2024-01-01 00:00:00.000" +:+ nl +:+
  "soc:87" +:+ nl +:+
  "battery:250" +:+ nl +:+
  "voltage_now:3700000" +:+ nl +:+
  "MIF:2028000" +:+ nl.

(** A log whose [soc] reading is no [int]. *)
Definition overflowing_log : string :=
  "battery:250" +:+ nl +:+ "soc:99999999999" +:+ nl.

(** A CSV file with its header line and one row of 37 columns. *)
Definition sample_csv : string :=
  "timestamp,irq,soc,temp,cycle,voltage" +:+ nl +:+
  "2024-01-01 00:00:00,1,87,250,12,3700000,0,1,2,3,4,5,6,"
    +:+ "0,0,0,0,0,0,0,0,0,0,0,0,0,0,0,0,0,0,0,0,0,0,0,0" +:+ nl.

(** The same file with a blank line after the row. *)
Definition blank_row_csv : string := sample_csv +:+ nl.

Definition sample_device : Device := device_with log_path sample_log.
Definition overflowing_device : Device := device_with log_path overflowing_log.
Definition sample_csv_device : Device := device_with csv_path sample_csv.
Definition blank_row_device : Device := device_with csv_path blank_row_csv.

(** ** Bounds the scan of a log keeps

    The readings of [max_value] lie between zero and the value they
    start from (minimum) or the largest [int] (maximum), the reason is
    the one the scan started with, the arrays keep their sizes, and the
    fields only the CSV path assigns are zero. *)
Section Bounds.

Context `{Header}.

Definition readings_in_range (brownout_reason : Z) (max_value : BrownoutDetectedInfo)
  : Prop :=
  0 <= battery_soc_ max_value <= DEFAULT_BATTERY_SOC /\
  0 <= battery_temp_ max_value <= DEFAULT_BATTERY_TEMP /\
  0 <= voltage_now_ max_value <= DEFAULT_BATTERY_VOLT /\
  0 <= battery_cycle_ max_value <= INT_MAX /\
  brownout_reason_ max_value = brownout_reason /\
  length (odpm_value_ max_value) = ODPM_MAX_IDX /\
  length (dvfs_value_ max_value) = DVFS_MAX_IDX /\
  Forall (fun v => 0 <= v <= INT_MAX) (odpm_value_ max_value) /\
  Forall (fun v => 0 <= v <= INT_MAX) (dvfs_value_ max_value) /\
  max_curr_ max_value = 0 /\
  evt_cnt_uvlo1_ max_value = 0 /\ evt_cnt_uvlo2_ max_value = 0 /\
  evt_cnt_oilo1_ max_value = 0 /\ evt_cnt_oilo2_ max_value = 0 /\
  vimon_vbatt_ max_value = 0 /\ vimon_ibatt_ max_value = 0 /\
  mitigation_method_0_ max_value = 0 /\
  mitigation_method_0_count_ max_value = 0 /\
  mitigation_method_0_time_us_ max_value = 0.

(** The same for the locals of the loop, with both indices inside
    their arrays. *)
Definition locals_in_range (brownout_reason : Z)
           (st : BrownoutDetectedInfo * bool * nat * nat) : Prop :=
  readings_in_range brownout_reason (fst (fst (fst st))) /\
  (snd (fst st) < ODPM_MAX_IDX)%nat /\
  (snd st < DVFS_MAX_IDX)%nat.

(** The four battery readings of [max_value] are the columns of the
    CSV row [line], read by [atoi]. *)
Definition reports_row (line : string) (max_value : BrownoutDetectedInfo) : Prop :=
  exists soc temp cycle volt,
    at_index (getlines comma line) SOC_IDX = Ok soc /\
    atoi soc = Ok (battery_soc_ max_value) /\
    at_index (getlines comma line) TEMP_IDX = Ok temp /\
    atoi temp = Ok (battery_temp_ max_value) /\
    at_index (getlines comma line) CYCLE_IDX = Ok cycle /\
    atoi cycle = Ok (battery_cycle_ max_value) /\
    at_index (getlines comma line) VOLTAGE_IDX = Ok volt /\
    atoi volt = Ok (voltage_now_ max_value).

End Bounds.

(** ** The vendor atom

    [VendorAtomValue] is a generated union; a default-constructed value
    is [unset] here and [set<VendorAtomValue::intValue>(content)] makes
    it [intValue content]. *)
Inductive VendorAtomValue :=
| unset
| intValue (content : Z).

(** Constants of the absent headers that [uploadData] uses:
    [kVendorAtomOffset], the field numbers
    [BrownoutDetected::k<Name>FieldNumber] (looked up by [<Name>]) and
    the atom id [PixelAtoms::Atom::kBrownoutDetected]. *)
Class AtomLayout := {
  kVendorAtomOffset : Z;
  FieldNumber : string -> Z;
  kBrownoutDetected : Z
}.

(** What [uploadData] sends out. *)
Inductive stats_event :=
| EvReportVendorAtom (reverseDomainName : string) (atomId : Z)
                     (values : list VendorAtomValue)
| EvALOGE (msg : string).

Definition odpm_field_names : list string :=
  [ "OdpmChannel01"; "OdpmChannel02"; "OdpmChannel03"; "OdpmChannel04";
    "OdpmChannel05"; "OdpmChannel06"; "OdpmChannel07"; "OdpmChannel08";
    "OdpmChannel09"; "OdpmChannel10"; "OdpmChannel11"; "OdpmChannel12";
    "OdpmChannel13"; "OdpmChannel14"; "OdpmChannel15"; "OdpmChannel16";
    "OdpmChannel17"; "OdpmChannel18"; "OdpmChannel19"; "OdpmChannel20";
    "OdpmChannel21"; "OdpmChannel22"; "OdpmChannel23"; "OdpmChannel24" ].

Definition dvfs_field_names : list string :=
  [ "DvfsChannel1"; "DvfsChannel2"; "DvfsChannel3"; "DvfsChannel4";
    "DvfsChannel5"; "DvfsChannel6" ].

(** [array[i]] for a C array of [length array] elements. *)
Definition element (array : list Z) (i : nat) : outcome Z :=
  match array !! i with
  | Some v => Ok v
  | None => Undefined
  end.

(** The pairs (field, [array[i]]), (next field, [array[i+1]]), ... *)
Fixpoint channel_fields (names : list string) (array : list Z) (i : nat)
  : outcome (list (string * Z)) :=
  match names with
  | [] => Ok []
  | name :: rest =>
      let* v := element array i in
      let* others := channel_fields rest array (S i) in
      Ok ((name, v) :: others)
  end.

Section Upload.

Context `{AtomLayout}.

(** [void setAtomFieldValue(std::vector<VendorAtomValue> *values,
    int offset, int content)], lines 115-121.  The [int] difference
    [offset - kVendorAtomOffset] is compared with the unsigned
    [val.size()], hence converted to the 64-bit [size_t]. *)
Definition setAtomFieldValue (values : list VendorAtomValue) (offset content : Z)
  : list VendorAtomValue :=
  let index := (offset - kVendorAtomOffset) mod 2 ^ 64 in
  if index <? Z.of_nat (length values) then
    <[Z.to_nat index := intValue content]> values
  else values.

(** The calls of [setAtomFieldValue] in [uploadData], lines 128-216, in
    program order: the field and the [int] passed as [content] of each.
    [triggered_timestamp_] holds the [long] that [parseTimestamp]
    returned and is converted to [int] at the call; the other members
    are [int]s.  Reading an array past its end and an [int] overflow in
    [100 - battery_soc_] are undefined. *)
Definition atom_fields (max_value : BrownoutDetectedInfo) : outcome (list (string * Z)) :=
  let* soc :=
    if in_int (100 - battery_soc_ max_value) then Ok (100 - battery_soc_ max_value)
    else Undefined in
  let* odpm := channel_fields odpm_field_names (odpm_value_ max_value) 0 in
  let* dvfs := channel_fields dvfs_field_names (dvfs_value_ max_value) 0 in
  Ok ([ ("TriggeredIrq", triggered_irq_ max_value);
        ("TriggeredTimestamp", long_to_int (triggered_timestamp_ max_value));
        ("BatteryTemp", battery_temp_ max_value);
        ("BatterySoc", soc);
        ("BatteryCycle", battery_cycle_ max_value);
        ("VoltageNow", voltage_now_ max_value) ]
      ++ odpm ++ dvfs
      ++ [ ("BrownoutReason", brownout_reason_ max_value);
           ("MaxCurrent", max_curr_ max_value);
           ("EvtCntUvlo1", evt_cnt_uvlo1_ max_value);
           ("EvtCntUvlo2", evt_cnt_uvlo2_ max_value);
           ("EvtCntOilo1", evt_cnt_oilo1_ max_value);
           ("EvtCntOilo2", evt_cnt_oilo2_ max_value);
           ("VimonVbatt", vimon_vbatt_ max_value);
           ("VimonIbatt", vimon_ibatt_ max_value);
           ("MitigationMethod0", mitigation_method_0_ max_value);
           ("MitigationMethod0Count", mitigation_method_0_count_ max_value);
           ("MitigationMethod0TimeUs", mitigation_method_0_time_us_ max_value) ]).

(** The vector after the calls for [fields], in order. *)
Definition set_fields (values : list VendorAtomValue) (fields : list (string * Z))
  : list VendorAtomValue :=
  fold_left (fun vs field => setAtomFieldValue vs (FieldNumber (fst field)) (snd field))
            fields values.

(** [void uploadData(stats_client, max_value)], lines 123-225;
    [report_ok] is whether [reportVendorAtom] returned an ok status. *)
Definition uploadData (max_value : BrownoutDetectedInfo) (report_ok : bool)
  : outcome (list stats_event) :=
  let* fields := atom_fields max_value in
  let values := set_fields (replicate 47 unset) fields in
  Ok (EvReportVendorAtom "" kBrownoutDetected values
        :: (if report_ok then []
            else [EvALOGE "Unable to report ChargeStats to Stats service"])).

(** The slot of the vector a field number designates, when it
    designates one. *)
Definition slot_of (offset : Z) : Z := (offset - kVendorAtomOffset) mod 2 ^ 64.

End Upload.

(** The fields [uploadData] sets, in the order of the calls. *)
Definition atom_field_names : list string :=
  [ "TriggeredIrq"; "TriggeredTimestamp"; "BatteryTemp"; "BatterySoc"; "BatteryCycle";
    "VoltageNow" ]
  ++ odpm_field_names ++ dvfs_field_names
  ++ [ "BrownoutReason"; "MaxCurrent"; "EvtCntUvlo1"; "EvtCntUvlo2"; "EvtCntOilo1";
       "EvtCntOilo2"; "VimonVbatt"; "VimonIbatt"; "MitigationMethod0";
       "MitigationMethod0Count"; "MitigationMethod0TimeUs" ].

(** A layout to run [uploadData] on: the 47 fields numbered from 2 on
    in the order of the calls, and the offset 2. *)
Fixpoint position_of (name : string) (names : list string) (i : Z) : Z :=
  match names with
  | [] => i
  | n :: rest => if decide (n = name) then i else position_of name rest (i + 1)
  end.

#[export] Instance sample_layout : AtomLayout := {
  kVendorAtomOffset := 2;
  FieldNumber name := position_of name atom_field_names 2;
  kBrownoutDetected := 105030
}.

(** ** Vocabulary of the further properties *)

(** Every character of [s] is in the class [k]. *)
Fixpoint all_in (k : cclass) (s : string) : bool :=
  match s with
  | EmptyString => true
  | String c s' => class_mem k c && all_in k s'
  end.

(** The patterns [logBrownout] hands to [updateIfFound], lines
    386-406. *)
Definition reading_patterns : list regex :=
  [kBatterySocPattern; kBatteryTempPattern; kBatteryCyclePattern; kFgPattern;
   kDvfsPattern; kOdpmPattern].

(** The continuation [regex_match] starts the matcher with: the line is
    used up, and sub-match 0 becomes the whole line. *)
Definition at_end (line : string) (rest : string) (caps : list string)
  : option (list string) :=
  if decide (rest = "") then Some (<[0%nat := line]> caps) else None.

(** The running maximum or minimum. *)
Definition aggregate (flag : Update) (current_value reading : Z) : Z :=
  match flag with
  | kUpdateMax => Z.max current_value reading
  | kUpdateMin => Z.min current_value reading
  end.

(** The text whose lines, each followed by [delim], are [pieces]. *)
Definition terminated (delim : ascii) (pieces : list string) : string :=
  fold_right (fun piece text => piece +:+ String delim text) "" pieces.

Definition has_char (c : ascii) (s : string) : Prop := In c (list_ascii_of_string s).

(** The row of [sample_csv]. *)
Definition sample_csv_row : string :=
  "2024-01-01 00:00:00,1,87,250,12,3700000,0,1,2,3,4,5,6,"
    +:+ "0,0,0,0,0,0,0,0,0,0,0,0,0,0,0,0,0,0,0,0,0,0,0,0".

(** The record [logBrownout] uploads for [sample_log]. *)
Definition sample_info : BrownoutDetectedInfo :=
  mkInfo 2 1704067200 250 87 0 3700000 (replicate 24 0)
         [2028000; 0; 0; 0; 0; 0] 9 0 0 0 0 0 0 0 0 0 0.

(** A record whose time stamp, 2100-01-01 00:00:00 UTC in seconds, is
    past the largest [int]. *)
Definition late_info : BrownoutDetectedInfo :=
  mkInfo 2 4102444800 250 87 12 3700000
         [1; 2; 3; 4; 5; 6; 7; 8; 9; 10; 11; 12; 13; 14; 15; 16; 17; 18; 19; 20;
          21; 22; 23; 24]
         [2028000; 101; 102; 103; 104; 105] 9 31 32 33 34 35 36 37 38 39 40.

End Brownout.

(* ===================================================================== *)
(** * Properties of EventNode.cc *)
(* ===================================================================== *)

Module EventNodeProofs.
Import EventNode.

Section NodeProofs.

Context {G : Type} `{RequestGroupOps G}.

Lemma scan_length now gs : forall i e,
  length (snd (fst (scan now i gs e))) = length gs.
Proof.
  induction gs as [|g rest IH]; intros i e; simpl; [reflexivity|].
  destruct (GetExpireTime now g e) as [[active e'] g'].
  destruct active; simpl; [reflexivity|].
  specialize (IH (S i) e').
  destruct (scan now (S i) rest e') as [[[found e''] rest'] log]; simpl in *.
  now rewrite IH.
Qed.

Lemma scan_found now gs : forall i e j,
  fst (fst (fst (scan now i gs e))) = Some j ->
  (i <= j < i + length gs)%nat /\
  snd (scan now i gs e) = inactive_run i (j - i) ++ [EvGetExpireTime j true] /\
  drop (S (j - i)) (snd (fst (scan now i gs e))) = drop (S (j - i)) gs.
Proof.
  induction gs as [|g rest IH]; intros i e j; simpl; [discriminate|].
  destruct (GetExpireTime now g e) as [[active e'] g'].
  destruct active; simpl.
  - intros [= <-]. rewrite Nat.sub_diag. simpl. repeat split; lia.
  - specialize (IH (S i) e' j).
    destruct (scan now (S i) rest e') as [[[found e''] rest'] log]; simpl in *.
    intros Hf. destruct (IH Hf) as [Hr [Hl Hd]].
    replace (j - i)%nat with (S (j - S i)) by lia.
    simpl. rewrite Hl. unfold inactive_run. repeat split; try lia. exact Hd.
Qed.

Lemma scan_not_found now gs : forall i e,
  fst (fst (fst (scan now i gs e))) = None ->
  snd (scan now i gs e) = inactive_run i (length gs).
Proof.
  induction gs as [|g rest IH]; intros i e; simpl; [reflexivity|].
  destruct (GetExpireTime now g e) as [[active e'] g'].
  destruct active; simpl; [discriminate|].
  specialize (IH (S i) e').
  destruct (scan now (S i) rest e') as [[[found e''] rest'] log]; simpl in *.
  intros Hf. rewrite (IH Hf). reflexivity.
Qed.

Lemma scan_queries now gs : forall i e,
  queries (snd (scan now i gs e)) = snd (scan now i gs e).
Proof.
  induction gs as [|g rest IH]; intros i e; simpl; [reflexivity|].
  destruct (GetExpireTime now g e) as [[active e'] g'].
  destruct active; simpl; [reflexivity|].
  specialize (IH (S i) e').
  destruct (scan now (S i) rest e') as [[[found e''] rest'] log]; simpl in *.
  unfold queries in *. simpl. now rewrite IH.
Qed.

(** Everything a returning [Update] did, in one statement. *)
Lemma Update_inv env b n r n' log :
  Update env b n = Some (r, n', log) ->
  let s := scan (steady_clock_now env) 0 (req_sorted_ n) milliseconds_max in
  let vi := selected_index env n in
  r = expiry_after_scan env n /\
  req_sorted_ n' = snd (fst s) /\
  name_ n' = name_ n /\ node_path_ n' = node_path_ n /\
  default_val_index_ n' = default_val_index_ n /\
  current_val_index_ n' = vi /\
  (((vi <> current_val_index_ n \/ reset_on_init_ n = true) /\
    reset_on_init_ n' = false /\
    exists g, snd (fst s) !! vi = Some g /\
      log = snd s
        ++ (if ATRACE_ENABLED env then
              [EvAtraceInt ("N:" +:+ GetName n) vi;
               EvAtraceBegin (GetName n +:+ ":" +:+ GetRequestValue g +:+ ":" +:+ pretty r)]
            else [])
        ++ [EvCallback (name_ n) (node_path_ n) (GetRequestValue g)]
        ++ (if ATRACE_ENABLED env then [EvAtraceEnd] else []))
   \/
   (vi = current_val_index_ n /\ reset_on_init_ n = false /\
    reset_on_init_ n' = false /\ log = snd s)).
Proof.
  unfold Update, selected_index, expiry_after_scan.
  destruct (scan (steady_clock_now env) 0 (req_sorted_ n) milliseconds_max)
    as [[[found e] gs] slog]; simpl.
  destruct (Nat.eqb_spec (value_index_of n found) (current_val_index_ n)) as [Heq|Hne];
    simpl.
  - destruct (reset_on_init_ n) eqn:Hreset.
    + destruct (gs !! value_index_of n found) as [g|] eqn:Hg; [|discriminate].
      intros [= <- <- <-]; simpl. repeat split; try reflexivity.
      left. repeat split; [now right|]. exists g. split; reflexivity.
    + intros [= <- <- <-]; simpl. repeat split; try reflexivity; try congruence.
      right. repeat split; congruence.
  - destruct (gs !! value_index_of n found) as [g|] eqn:Hg; [|discriminate].
    intros [= <- <- <-]; simpl. repeat split; try reflexivity.
    left. repeat split; [now left|]. exists g. split; reflexivity.
Qed.

Lemma selected_index_lt env n :
  well_formed n -> (selected_index env n < length (req_sorted_ n))%nat.
Proof.
  unfold well_formed, selected_index, value_index_of. intros Hwf.
  destruct (fst (fst (fst (scan (steady_clock_now env) 0 (req_sorted_ n) milliseconds_max))))
    as [j|] eqn:Hf; [|exact Hwf].
  apply scan_found in Hf. lia.
Qed.

(** On a well-formed node [Update] never indexes out of range. *)
Lemma Update_total env b n :
  well_formed n -> is_Some (Update env b n).
Proof.
  intros Hwf. pose proof (selected_index_lt env n Hwf) as Hlt.
  unfold Update, selected_index in *.
  pose proof (scan_length (steady_clock_now env) (req_sorted_ n) 0%nat milliseconds_max) as Hlen.
  destruct (scan (steady_clock_now env) 0 (req_sorted_ n) milliseconds_max)
    as [[[found e] gs] slog]; simpl in *.
  destruct (negb _ || _); [|eauto].
  destruct (lookup_lt_is_Some_2 gs (value_index_of n found)) as [g Hg]; [lia|].
  rewrite Hg. eauto.
Qed.

Lemma queries_app l1 l2 : queries (l1 ++ l2) = queries l1 ++ queries l2.
Proof. apply List.filter_app. Qed.

Lemma callbacks_app l1 l2 : callbacks (l1 ++ l2) = callbacks l1 ++ callbacks l2.
Proof. apply List.filter_app. Qed.

Lemma scan_callbacks now gs : forall i e, callbacks (snd (scan now i gs e)) = [].
Proof.
  induction gs as [|g rest IH]; intros i e; simpl; [reflexivity|].
  destruct (GetExpireTime now g e) as [[active e'] g'].
  destruct active; simpl; [reflexivity|].
  specialize (IH (S i) e').
  destruct (scan now (S i) rest e') as [[[found e''] rest'] log]; simpl in *.
  exact IH.
Qed.

Lemma scan_erase_trace now gs : forall i e,
  erase_trace (snd (scan now i gs e)) = snd (scan now i gs e).
Proof.
  induction gs as [|g rest IH]; intros i e; simpl; [reflexivity|].
  destruct (GetExpireTime now g e) as [[active e'] g'].
  destruct active; simpl; [reflexivity|].
  specialize (IH (S i) e').
  destruct (scan now (S i) rest e') as [[[found e''] rest'] log]; simpl in *.
  unfold erase_trace in *. simpl. now rewrite IH.
Qed.

(** The winning group is the one that left the returned value in the
    out-parameter. *)
Lemma scan_found_expiry now gs : forall i e j,
  fst (fst (fst (scan now i gs e))) = Some j ->
  exists g e_in g',
    gs !! (j - i)%nat = Some g /\
    GetExpireTime now g e_in = (true, snd (fst (fst (scan now i gs e))), g') /\
    snd (fst (scan now i gs e)) !! (j - i)%nat = Some g'.
Proof.
  induction gs as [|g rest IH]; intros i e j; simpl; [discriminate|].
  destruct (GetExpireTime now g e) as [[active e'] g'] eqn:Hg.
  destruct active; simpl.
  - intros [= <-]. rewrite Nat.sub_diag. exists g, e, g'. auto.
  - specialize (IH (S i) e' j).
    pose proof (scan_found now rest (S i) e' j) as Hrange.
    destruct (scan now (S i) rest e') as [[[found e''] rest'] log]; simpl in *.
    intros Hf. destruct (IH Hf) as (g0 & e0 & g0' & Hl & Hq & Hl').
    destruct (Hrange Hf) as [Hr _].
    replace (j - i)%nat with (S (j - S i)) by lia.
    exists g0, e0, g0'. auto.
Qed.

(** When every group answers inactive and leaves the out-parameter as
    it found it, the loop leaves the initial value. *)
Lemma scan_untouched now gs : forall i e,
  Forall (fun g => exists g', GetExpireTime now g e = (false, e, g')) gs ->
  fst (fst (fst (scan now i gs e))) = None /\ snd (fst (fst (scan now i gs e))) = e.
Proof.
  induction gs as [|g rest IH]; intros i e Hall; simpl; [auto|].
  inversion Hall as [|? ? [g' Hg] Hrest]; subst.
  rewrite Hg. specialize (IH (S i) e Hrest).
  destruct (scan now (S i) rest e) as [[[found e''] rest'] log]; simpl in *.
  exact IH.
Qed.

(** Groups that answer alike select alike. *)
Lemma scan_same_liveness now1 now2 gs gs1 :
  Forall2 (fun g g1 => exists a, reports now1 g a /\ reports now2 g1 a) gs gs1 ->
  forall i e e1,
    fst (fst (fst (scan now1 i gs e))) = fst (fst (fst (scan now2 i gs1 e1))).
Proof.
  induction 1 as [|g g1 gs gs1 (a & Ha & Ha1) _ IH]; intros i e e1; simpl; [reflexivity|].
  specialize (Ha e). specialize (Ha1 e1).
  destruct (GetExpireTime now1 g e) as [[act e'] g'].
  destruct (GetExpireTime now2 g1 e1) as [[act1 e1'] g1'].
  simpl in *. subst act act1.
  destruct a; simpl; [reflexivity|].
  specialize (IH (S i) e' e1').
  destruct (scan now1 (S i) gs e') as [[[f x] y] z].
  destruct (scan now2 (S i) gs1 e1') as [[[f1 x1] y1] z1].
  exact IH.
Qed.

Lemma Update_queries env b n r n' log :
  Update env b n = Some (r, n', log) ->
  queries log = snd (scan (steady_clock_now env) 0 (req_sorted_ n) milliseconds_max).
Proof.
  intros Hu. destruct (Update_inv _ _ _ _ _ _ Hu) as (_ & _ & _ & _ & _ & _ & Hcase).
  destruct Hcase as [(_ & _ & g & _ & ->)|(_ & _ & _ & ->)].
  - rewrite queries_app, scan_queries. destruct (ATRACE_ENABLED env); simpl;
      now rewrite app_nil_r.
  - apply scan_queries.
Qed.

Lemma Update_callbacks env b n r n' log :
  Update env b n = Some (r, n', log) ->
  ((selected_index env n <> current_val_index_ n \/ reset_on_init_ n = true) /\
   exists g, req_sorted_ n' !! selected_index env n = Some g /\
     callbacks log = [EvCallback (name_ n) (node_path_ n) (GetRequestValue g)])
  \/
  (selected_index env n = current_val_index_ n /\ reset_on_init_ n = false /\
   callbacks log = [] /\ log = queries log /\ erase_trace log = log).
Proof.
  intros Hu. pose proof (Update_queries _ _ _ _ _ _ Hu) as Hq.
  destruct (Update_inv _ _ _ _ _ _ Hu) as (_ & Hgs & _ & _ & _ & _ & Hcase).
  destruct Hcase as [(Hc & _ & g & Hg & ->)|(Hc & Hr & _ & ->)].
  - left. split; [exact Hc|]. exists g. rewrite Hgs. split; [exact Hg|].
    rewrite callbacks_app, scan_callbacks.
    destruct (ATRACE_ENABLED env); reflexivity.
  - right. repeat split; auto using scan_callbacks, scan_erase_trace.
Qed.

(** The loop against the answers of [GetExpireTime]: when every group
    answers inactive the scan finds none, and the first group that
    answers active, after groups that all answered inactive, is the one
    the scan stops at. *)
Lemma scan_all_inactive now gs : forall i e e1 gs',
  all_inactive now gs e = Some (e1, gs') ->
  scan now i gs e = (None, e1, gs', inactive_run i (length gs)).
Proof.
  induction gs as [|g rest IH]; intros i e e1 gs'; simpl.
  - intros [= <- <-]. reflexivity.
  - destruct (GetExpireTime now g e) as [[active e'] g'].
    destruct active; [discriminate|].
    destruct (all_inactive now rest e') as [[e2 rest']|] eqn:Hrest; [|discriminate].
    intros [= <- <-]. rewrite (IH (S i) e' e2 rest' Hrest). reflexivity.
Qed.

Lemma scan_first_active now pre g post : forall i e e1 pre' e2 g',
  all_inactive now pre e = Some (e1, pre') ->
  GetExpireTime now g e1 = (true, e2, g') ->
  scan now i (pre ++ g :: post) e
  = (Some (i + length pre)%nat, e2, pre' ++ g' :: post,
     inactive_run i (length pre) ++ [EvGetExpireTime (i + length pre) true]).
Proof.
  induction pre as [|p rest IH]; intros i e e1 pre' e2 g'; simpl.
  - intros [= <- <-] Hg. rewrite Hg, Nat.add_0_r. reflexivity.
  - destruct (GetExpireTime now p e) as [[active e'] p'].
    destruct active; [discriminate|].
    destruct (all_inactive now rest e') as [[e3 rest']|] eqn:Hrest; [|discriminate].
    intros [= <- <-] Hg. rewrite (IH (S i) e' e3 rest' e2 g' Hrest Hg).
    replace (S i + length rest)%nat with (i + S (length rest))%nat by lia.
    reflexivity.
Qed.

Lemma first_active_or_none now gs : forall e,
  (exists pre g post e1 pre' e2 g',
     gs = pre ++ g :: post /\
     all_inactive now pre e = Some (e1, pre') /\
     GetExpireTime now g e1 = (true, e2, g'))
  \/ (exists e1 gs', all_inactive now gs e = Some (e1, gs')).
Proof.
  induction gs as [|g rest IH]; intros e.
  - right. exists e, []. reflexivity.
  - destruct (GetExpireTime now g e) as [[active e'] g'] eqn:Hg. destruct active.
    + left. exists [], g, rest, e, [], e', g'. auto.
    + destruct (IH e') as [(pre & g0 & post & e1 & pre' & e2 & g0' & -> & Hpre & Hg0)
                          |(e1 & gs' & Hall)].
      * left. exists (g :: pre), g0, post, e1, (g' :: pre'), e2, g0'.
        repeat split; [|exact Hg0]. simpl. now rewrite Hg, Hpre.
      * right. exists e1, (g' :: gs'). simpl. now rewrite Hg, Hall.
Qed.

(** The same against groups whose answer does not depend on what the
    out-parameter holds. *)
Lemma scan_first_reporting now gs : forall i e k g,
  gs !! k = Some g ->
  reports now g true ->
  (forall j gj, (j < k)%nat -> gs !! j = Some gj -> reports now gj false) ->
  exists e_in,
    fst (fst (scan now i gs e))
    = (Some (i + k)%nat, snd (fst (GetExpireTime now g e_in))).
Proof.
  induction gs as [|g0 rest IH]; intros i e k g Hk Hg Hbefore; [discriminate|].
  simpl. destruct k as [|k].
  - injection Hk as ->. specialize (Hg e). exists e.
    destruct (GetExpireTime now g e) as [[active e'] g']. simpl in Hg.
    subst active. rewrite Nat.add_0_r. reflexivity.
  - pose proof (Hbefore 0%nat g0 ltac:(lia) eq_refl e) as H0.
    destruct (GetExpireTime now g0 e) as [[active e'] g']. simpl in H0. subst active.
    assert (Hrest : forall j gj, (j < k)%nat -> rest !! j = Some gj -> reports now gj false).
    { intros j gj Hj Hl. apply (Hbefore (S j) gj); [lia|exact Hl]. }
    destruct (IH (S i) e' k g Hk Hg Hrest) as [e_in IH']. exists e_in.
    destruct (scan now (S i) rest e') as [[[found e''] rest'] log]. simpl in *.
    rewrite IH'. f_equal. f_equal. lia.
Qed.

Lemma scan_none_reporting now gs : forall i e,
  (forall j gj, gs !! j = Some gj -> reports now gj false) ->
  fst (fst (fst (scan now i gs e))) = None.
Proof.
  induction gs as [|g0 rest IH]; intros i e Hall; [reflexivity|].
  simpl. pose proof (Hall 0%nat g0 eq_refl e) as H0.
  destruct (GetExpireTime now g0 e) as [[active e'] g']. simpl in H0. subst active.
  assert (Hrest : forall j gj, rest !! j = Some gj -> reports now gj false).
  { intros j gj Hl. apply (Hall (S j) gj). exact Hl. }
  specialize (IH (S i) e' Hrest).
  destruct (scan now (S i) rest e') as [[[found e''] rest'] log]. simpl in *.
  exact IH.
Qed.

(** A returning [Update] whose groups split into an inactive run and a
    first active group. *)
Lemma Update_first_active env b n r n' log pre g post e1 pre' e2 g' :
  Update env b n = Some (r, n', log) ->
  req_sorted_ n = pre ++ g :: post ->
  all_inactive (steady_clock_now env) pre milliseconds_max = Some (e1, pre') ->
  GetExpireTime (steady_clock_now env) g e1 = (true, e2, g') ->
  selected_index env n = length pre /\
  r = e2 /\
  req_sorted_ n' = pre' ++ g' :: post /\
  queries log = inactive_run 0 (length pre) ++ [EvGetExpireTime (length pre) true].
Proof.
  intros Hu Hsplit Hpre Hg.
  pose proof (Update_queries _ _ _ _ _ _ Hu) as Hq.
  destruct (Update_inv _ _ _ _ _ _ Hu) as (Hr & Hgs & _).
  unfold selected_index, expiry_after_scan in *.
  rewrite Hsplit, (scan_first_active _ _ _ _ 0%nat _ _ _ _ _ Hpre Hg) in *.
  simpl in *. auto.
Qed.

(** A returning [Update] none of whose groups answers active. *)
Lemma Update_none_active env b n r n' log e1 gs' :
  Update env b n = Some (r, n', log) ->
  all_inactive (steady_clock_now env) (req_sorted_ n) milliseconds_max = Some (e1, gs') ->
  selected_index env n = default_val_index_ n /\
  r = e1 /\
  req_sorted_ n' = gs' /\
  queries log = inactive_run 0 (length (req_sorted_ n)).
Proof.
  intros Hu Hall.
  pose proof (Update_queries _ _ _ _ _ _ Hu) as Hq.
  destruct (Update_inv _ _ _ _ _ _ Hu) as (Hr & Hgs & _).
  unfold selected_index, expiry_after_scan in *.
  rewrite (scan_all_inactive _ _ 0%nat _ _ _ Hall) in *.
  simpl in *. auto.
Qed.

(** C1. Highest priority wins.  Whatever the node's state, the groups
    are asked in ascending index order starting at 0.  When the groups
    before one answer [GetExpireTime] with inactive, each handed the
    out-parameter as the one before left it, and that one answers
    active, [Update] selects its index whatever the groups after it
    hold, and asks and touches none of these; when every group answers
    inactive [Update] selects the default index.  One of the two is the
    case, and the selected index is the node's current index when
    [Update] returns. *)
Theorem C1_highest_priority_wins env b n :
  (well_formed n -> is_Some (Update env b n)) /\
  forall r n' log, Update env b n = Some (r, n', log) ->
    current_val_index_ n' = selected_index env n /\
    ((exists i, (i < length (req_sorted_ n))%nat /\
        selected_index env n = i /\
        queries log = inactive_run 0 i ++ [EvGetExpireTime i true] /\
        drop (S i) (req_sorted_ n') = drop (S i) (req_sorted_ n))
     \/
     (selected_index env n = default_val_index_ n /\
      queries log = inactive_run 0 (length (req_sorted_ n)))) /\
    (forall pre g post e1 pre' e2 g',
       req_sorted_ n = pre ++ g :: post ->
       all_inactive (steady_clock_now env) pre milliseconds_max = Some (e1, pre') ->
       GetExpireTime (steady_clock_now env) g e1 = (true, e2, g') ->
       selected_index env n = length pre /\
       req_sorted_ n' = pre' ++ g' :: post /\
       queries log = inactive_run 0 (length pre) ++ [EvGetExpireTime (length pre) true]) /\
    (forall e1 gs',
       all_inactive (steady_clock_now env) (req_sorted_ n) milliseconds_max
       = Some (e1, gs') ->
       selected_index env n = default_val_index_ n /\
       req_sorted_ n' = gs' /\
       queries log = inactive_run 0 (length (req_sorted_ n))) /\
    ((exists pre g post e1 pre' e2 g',
        req_sorted_ n = pre ++ g :: post /\
        all_inactive (steady_clock_now env) pre milliseconds_max = Some (e1, pre') /\
        GetExpireTime (steady_clock_now env) g e1 = (true, e2, g'))
     \/
     (exists e1 gs',
        all_inactive (steady_clock_now env) (req_sorted_ n) milliseconds_max
        = Some (e1, gs'))) /\
    (forall i g,
       req_sorted_ n !! i = Some g ->
       reports (steady_clock_now env) g true ->
       (forall j gj, (j < i)%nat -> req_sorted_ n !! j = Some gj ->
          reports (steady_clock_now env) gj false) ->
       selected_index env n = i /\ current_val_index_ n' = i) /\
    ((forall j gj, req_sorted_ n !! j = Some gj ->
        reports (steady_clock_now env) gj false) ->
     selected_index env n = default_val_index_ n /\
     current_val_index_ n' = default_val_index_ n).
Proof.
  split; [apply Update_total|].
  intros r n' log Hu.
  pose proof (Update_queries _ _ _ _ _ _ Hu) as Hq.
  destruct (Update_inv _ _ _ _ _ _ Hu) as (_ & Hgs & _ & _ & _ & Hcur & _).
  split; [exact Hcur|]. split; [|split; [|split; [|split; [|split]]]].
  - unfold selected_index, value_index_of in *.
    destruct (fst (fst (fst (scan (steady_clock_now env) 0 (req_sorted_ n) milliseconds_max))))
      as [j|] eqn:Hf.
    + left. destruct (scan_found _ _ _ _ _ Hf) as (Hr & Hl & Hd).
      rewrite Nat.sub_0_r in *. exists j. rewrite Hq, Hgs. repeat split; auto; lia.
    + right. rewrite Hq. split; [reflexivity|]. now apply scan_not_found.
  - intros pre g post e1 pre' e2 g' Hsplit Hpre Hg.
    destruct (Update_first_active _ _ _ _ _ _ _ _ _ _ _ _ _ Hu Hsplit Hpre Hg)
      as (Hsel & _ & Hgs' & Hq'). auto.
  - intros e1 gs' Hall.
    destruct (Update_none_active _ _ _ _ _ _ _ _ Hu Hall) as (Hsel & _ & Hgs' & Hq'). auto.
  - apply first_active_or_none.
  - intros i g Hi Hg Hbefore.
    assert (Hsel : selected_index env n = i).
    { unfold selected_index.
      destruct (scan_first_reporting _ _ 0%nat milliseconds_max _ _ Hi Hg Hbefore)
        as [e_in Hscan].
      destruct (scan (steady_clock_now env) 0 (req_sorted_ n) milliseconds_max)
        as [[[found e''] rest'] slog]. simpl in *.
      injection Hscan as -> _. reflexivity. }
    split; [exact Hsel|congruence].
  - intros Hall.
    assert (Hsel : selected_index env n = default_val_index_ n).
    { unfold selected_index. now rewrite scan_none_reporting. }
    split; [exact Hsel|congruence].
Qed.

(** C2. [Update] returns the value [expire_time] holds after the scan,
    whether or not the callback ran.  When the groups before one answer
    [GetExpireTime] with inactive and that one answers active, the
    value returned is the one this group's [GetExpireTime] stored in the
    out-parameter, so it is the sentinel when that group stores the
    sentinel; when every group answers inactive it is what the last
    call left in the out-parameter, which is the sentinel
    [milliseconds_max] when each left the out-parameter as it found it.
    One of the two is the case. *)
Theorem C2_returns_expiry_of_winner env b n :
  (well_formed n -> is_Some (Update env b n)) /\
  forall r n' log, Update env b n = Some (r, n', log) ->
    r = expiry_after_scan env n /\
    (forall i, In (EvGetExpireTime i true) log ->
       selected_index env n = i /\
       exists g e_in g',
         req_sorted_ n !! i = Some g /\ req_sorted_ n' !! i = Some g' /\
         GetExpireTime (steady_clock_now env) g e_in = (true, r, g')) /\
    (forall i g, In (EvGetExpireTime i true) log ->
       req_sorted_ n !! i = Some g ->
       (forall e, snd (fst (GetExpireTime (steady_clock_now env) g e)) = milliseconds_max) ->
       r = milliseconds_max) /\
    (Forall (fun g => exists g',
               GetExpireTime (steady_clock_now env) g milliseconds_max
               = (false, milliseconds_max, g')) (req_sorted_ n) ->
     selected_index env n = default_val_index_ n /\ r = milliseconds_max) /\
    (forall pre g post e1 pre' e2 g',
       req_sorted_ n = pre ++ g :: post ->
       all_inactive (steady_clock_now env) pre milliseconds_max = Some (e1, pre') ->
       GetExpireTime (steady_clock_now env) g e1 = (true, e2, g') ->
       selected_index env n = length pre /\ r = e2 /\
       In (EvGetExpireTime (length pre) true) log) /\
    (forall e1 gs',
       all_inactive (steady_clock_now env) (req_sorted_ n) milliseconds_max
       = Some (e1, gs') ->
       selected_index env n = default_val_index_ n /\ r = e1) /\
    ((exists pre g post e1 pre' g',
        req_sorted_ n = pre ++ g :: post /\
        all_inactive (steady_clock_now env) pre milliseconds_max = Some (e1, pre') /\
        GetExpireTime (steady_clock_now env) g e1 = (true, r, g'))
     \/
     (exists gs',
        all_inactive (steady_clock_now env) (req_sorted_ n) milliseconds_max
        = Some (r, gs'))) /\
    (forall i g E,
       req_sorted_ n !! i = Some g ->
       (forall e, fst (GetExpireTime (steady_clock_now env) g e) = (true, E)) ->
       (forall j gj, (j < i)%nat -> req_sorted_ n !! j = Some gj ->
          reports (steady_clock_now env) gj false) ->
       selected_index env n = i /\ r = E).
Proof.
  split; [apply Update_total|].
  intros r n' log Hu.
  pose proof (Update_queries _ _ _ _ _ _ Hu) as Hq.
  destruct (Update_inv _ _ _ _ _ _ Hu) as (Hr & Hgs & _ & _ & _ & _ & _).
  assert (Hwinner : forall i, In (EvGetExpireTime i true) log ->
       selected_index env n = i /\
       exists g e_in g',
         req_sorted_ n !! i = Some g /\ req_sorted_ n' !! i = Some g' /\
         GetExpireTime (steady_clock_now env) g e_in = (true, r, g'));
    [|split; [exact Hr|]; split; [exact Hwinner|];
      split; [|split; [|split; [|split; [|split]]]]].
  - intros i Hin.
    assert (Hin' : In (EvGetExpireTime i true) (queries log)).
    { apply List.filter_In. split; [exact Hin|reflexivity]. }
    rewrite Hq in Hin'. subst r. rewrite Hgs.
    unfold selected_index, expiry_after_scan, value_index_of.
    destruct (fst (fst (fst (scan (steady_clock_now env) 0 (req_sorted_ n) milliseconds_max))))
      as [j|] eqn:Hf.
    + destruct (scan_found _ _ _ _ _ Hf) as (_ & Hl & _).
      rewrite Hl in Hin'. apply in_app_or in Hin'.
      destruct Hin' as [Hin'|[Hin'|[]]].
      * unfold inactive_run in Hin'. apply in_map_iff in Hin'.
        destruct Hin' as (k & Hk & _). discriminate.
      * injection Hin' as <-. split; [reflexivity|].
        destruct (scan_found_expiry _ _ _ _ _ Hf) as (g & e_in & g' & H1 & H2 & H3).
        rewrite Nat.sub_0_r in *. exists g, e_in, g'. auto.
    + rewrite (scan_not_found _ _ _ _ Hf) in Hin'.
      unfold inactive_run in Hin'. apply in_map_iff in Hin'.
      destruct Hin' as (k & Hk & _). discriminate.
  - intros i g Hin Hg Hmax.
    destruct (Hwinner i Hin) as (_ & g0 & e_in & g' & Hg0 & _ & Hget).
    assert (g0 = g) by congruence. subst g0.
    specialize (Hmax e_in). rewrite Hget in Hmax. exact Hmax.
  - intros Hall. subst r. unfold selected_index, expiry_after_scan.
    destruct (scan_untouched (steady_clock_now env) (req_sorted_ n) 0%nat
                milliseconds_max Hall) as [-> ->].
    split; reflexivity.
  - intros pre g post e1 pre' e2 g' Hsplit Hpre Hg.
    destruct (Update_first_active _ _ _ _ _ _ _ _ _ _ _ _ _ Hu Hsplit Hpre Hg)
      as (Hsel & Hr' & _ & Hq').
    split; [exact Hsel|]. split; [exact Hr'|].
    assert (Hin : In (EvGetExpireTime (length pre) true) (queries log)).
    { rewrite Hq'. apply in_or_app. right. now left. }
    apply List.filter_In in Hin. exact (proj1 Hin).
  - intros e1 gs' Hall.
    destruct (Update_none_active _ _ _ _ _ _ _ _ Hu Hall) as (Hsel & Hr' & _). auto.
  - destruct (first_active_or_none (steady_clock_now env) (req_sorted_ n) milliseconds_max)
      as [(pre & g & post & e1 & pre' & e2 & g' & Hsplit & Hpre & Hg)|(e1 & gs' & Hall)].
    + left. exists pre, g, post, e1, pre', g'.
      destruct (Update_first_active _ _ _ _ _ _ _ _ _ _ _ _ _ Hu Hsplit Hpre Hg)
        as (_ & -> & _). auto.
    + right. exists gs'.
      destruct (Update_none_active _ _ _ _ _ _ _ _ Hu Hall) as (_ & -> & _). exact Hall.
  - intros i g E Hi Hg Hbefore.
    assert (Hact : reports (steady_clock_now env) g true).
    { intros e. now rewrite (Hg e). }
    destruct (scan_first_reporting _ _ 0%nat milliseconds_max _ _ Hi Hact Hbefore)
      as [e_in Hscan].
    rewrite (Hg e_in) in Hscan. subst r. unfold selected_index, expiry_after_scan.
    destruct (scan (steady_clock_now env) 0 (req_sorted_ n) milliseconds_max)
      as [[[found e''] rest'] slog]. simpl in *.
    injection Hscan as -> ->. split; reflexivity.
Qed.

(** C3. One call of [Update] invokes the callback at most once; it
    invokes it exactly when the selected index differs from
    [current_val_index_] or [reset_on_init_] is set, with the node's
    name, its path and the value of the selected group; otherwise the
    call only queried the groups and left both fields as they were. *)
Theorem C3_callback_at_most_once env b n :
  (well_formed n -> is_Some (Update env b n)) /\
  forall r n' log, Update env b n = Some (r, n', log) ->
    (length (callbacks log) <= 1)%nat /\
    (callbacks log <> [] <->
       selected_index env n <> current_val_index_ n \/ reset_on_init_ n = true) /\
    (forall c, In c (callbacks log) ->
       exists g, req_sorted_ n' !! selected_index env n = Some g /\
         c = EvCallback (name_ n) (node_path_ n) (GetRequestValue g)) /\
    (callbacks log = [] ->
       log = queries log /\
       current_val_index_ n' = current_val_index_ n /\
       reset_on_init_ n' = reset_on_init_ n).
Proof.
  split; [apply Update_total|].
  intros r n' log Hu.
  destruct (Update_inv _ _ _ _ _ _ Hu) as (_ & _ & _ & _ & _ & Hcur & Hcase).
  destruct (Update_callbacks _ _ _ _ _ _ Hu)
    as [(Hc & g & Hg & Hcb)|(Hsel & Hreset & Hcb & Hlog & _)].
  - rewrite Hcb. repeat split.
    + simpl. lia.
    + intros _. exact Hc.
    + intros _. discriminate.
    + intros c [<-|[]]. exists g. auto.
    + discriminate.
    + discriminate.
    + discriminate.
  - rewrite Hcb. repeat split.
    + simpl. lia.
    + intros Hne. now contradiction Hne.
    + intros [Hne|Ht]; congruence.
    + intros c [].
    + exact Hlog.
    + congruence.
    + destruct Hcase as [(_ & Hr' & _)|(_ & _ & Hr' & _)]; congruence.
Qed.

(** C4 (amended). Idempotence: when [Update] is called twice in a row
    and every group, as the first call left it, reports to the second
    call the activity it reported to the first (no submission, no
    withdrawal and no lease running out in between), the second call
    does not invoke the callback, and the two calls together invoke it
    at most once. *)
Theorem C4_idempotence env1 b1 env2 b2 n :
  (well_formed n ->
   exists r1 n1 log1 r2 n2 log2,
     Update env1 b1 n = Some (r1, n1, log1) /\
     Update env2 b2 n1 = Some (r2, n2, log2)) /\
  forall r1 n1 log1 r2 n2 log2,
    Update env1 b1 n = Some (r1, n1, log1) ->
    Update env2 b2 n1 = Some (r2, n2, log2) ->
    Forall2 (fun g g1 => exists a,
               reports (steady_clock_now env1) g a /\
               reports (steady_clock_now env2) g1 a)
            (req_sorted_ n) (req_sorted_ n1) ->
    callbacks log2 = [] /\
    (length (callbacks (log1 ++ log2)) <= 1)%nat /\
    current_val_index_ n2 = current_val_index_ n1 /\
    reset_on_init_ n2 = false.
Proof.
  split.
  - intros Hwf. destruct (Update_total env1 b1 n Hwf) as [[[r1 n1] log1] Hu1].
    destruct (Update_inv _ _ _ _ _ _ Hu1) as (_ & Hgs & _ & _ & Hd & _).
    assert (Hwf1 : well_formed n1).
    { unfold well_formed in *. rewrite Hd, Hgs, scan_length. exact Hwf. }
    destruct (Update_total env2 b2 n1 Hwf1) as [[[r2 n2] log2] Hu2].
    exists r1, n1, log1, r2, n2, log2. auto.
  - intros r1 n1 log1 r2 n2 log2 Hu1 Hu2 Hsame.
    destruct (Update_inv _ _ _ _ _ _ Hu1) as (_ & _ & _ & _ & Hd1 & Hcur1 & Hcase1).
    destruct (Update_inv _ _ _ _ _ _ Hu2) as (_ & _ & _ & _ & _ & Hcur2 & Hcase2).
    assert (Hsel : selected_index env2 n1 = current_val_index_ n1).
    { rewrite Hcur1. unfold selected_index, value_index_of. rewrite Hd1.
      now rewrite (scan_same_liveness _ _ _ _ Hsame 0%nat milliseconds_max milliseconds_max). }
    assert (Hreset1 : reset_on_init_ n1 = false).
    { destruct Hcase1 as [(_ & Hr & _)|(_ & _ & Hr & _)]; exact Hr. }
    assert (Hcb2 : callbacks log2 = []).
    { destruct (Update_callbacks _ _ _ _ _ _ Hu2) as [([Hne|Ht] & _)|(_ & _ & Hcb & _)];
        [congruence|congruence|exact Hcb]. }
    repeat split.
    + exact Hcb2.
    + rewrite callbacks_app, Hcb2, app_nil_r.
      destruct (Update_callbacks _ _ _ _ _ _ Hu1) as [(_ & g & _ & ->)|(_ & _ & -> & _)];
        simpl; lia.
    + congruence.
    + destruct Hcase2 as [(_ & Hr & _)|(_ & _ & Hr & _)]; exact Hr.
Qed.

(** C5. With [reset_on_init_] set, the first [Update] invokes the
    callback once even when the selected index equals
    [current_val_index_], and clears the flag; from then on the flag
    stays clear and a call that selects the current index invokes
    nothing, so the forced application happens once. *)
Theorem C5_reset_on_init_forces_once env b n :
  reset_on_init_ n = true ->
  (well_formed n -> is_Some (Update env b n)) /\
  forall r n1 log, Update env b n = Some (r, n1, log) ->
    (exists g, req_sorted_ n1 !! selected_index env n = Some g /\
       callbacks log = [EvCallback (name_ n) (node_path_ n) (GetRequestValue g)]) /\
    current_val_index_ n1 = selected_index env n /\
    reset_on_init_ n1 = false /\
    forall env' b' r' n2 log', Update env' b' n1 = Some (r', n2, log') ->
      reset_on_init_ n2 = false /\
      (selected_index env' n1 = current_val_index_ n1 -> callbacks log' = []).
Proof.
  intros Hreset. split; [apply Update_total|].
  intros r n1 log Hu.
  destruct (Update_inv _ _ _ _ _ _ Hu) as (_ & _ & _ & _ & _ & Hcur & Hcase).
  assert (Hr1 : reset_on_init_ n1 = false).
  { destruct Hcase as [(_ & Hr & _)|(_ & _ & Hr & _)]; exact Hr. }
  split; [|split; [exact Hcur|split; [exact Hr1|]]].
  - destruct (Update_callbacks _ _ _ _ _ _ Hu) as [(_ & g & Hg & Hcb)|(_ & Hf & _)];
      [eauto|congruence].
  - intros env' b' r' n2 log' Hu2. split.
    + destruct (Update_inv _ _ _ _ _ _ Hu2) as (_ & _ & _ & _ & _ & _ & Hcase2).
      destruct Hcase2 as [(_ & Hr & _)|(_ & _ & Hr & _)]; exact Hr.
    + intros Hsel.
      destruct (Update_callbacks _ _ _ _ _ _ Hu2) as [([Hne|Ht] & _)|(_ & _ & Hcb & _)];
        [congruence|congruence|exact Hcb].
Qed.

Lemma dump_groups_spec fd gs : forall i,
  dump_groups (G:=G) fd i gs =
  map (fun j => EvGroupDumpToFd j fd (tab +:+ tab +:+ "Req" +:+ pretty j +:+ ":" +:+ tab))
      (seq i (length gs)).
Proof.
  induction gs as [|g rest IH]; intros i; simpl; [reflexivity|]. now rewrite IH.
Qed.

Lemma group_dumps_dump_groups fd gs : forall i,
  group_dumps (dump_groups (G:=G) fd i gs) = dump_groups fd i gs.
Proof.
  induction gs as [|g rest IH]; intros i; simpl; [reflexivity|].
  unfold group_dumps in *. simpl. now rewrite IH.
Qed.

(** C6. [DumpToFd] leaves the node as it was.  It returns whether the
    write of the header succeeded or not: a failed write adds the error
    line "Failed to dump fd: <fd>" to the log and nothing else, and in
    both cases every group is then dumped, in index order. *)
Theorem C6_dump_is_read_only env n fd :
  ((current_val_index_ n < length (req_sorted_ n))%nat ->
   is_Some (DumpToFd env n fd)) /\
  forall log n', DumpToFd env n fd = Some (log, n') ->
    n' = n /\
    group_dumps log =
      map (fun j => EvGroupDumpToFd j fd (tab +:+ tab +:+ "Req" +:+ pretty j +:+ ":" +:+ tab))
          (seq 0 (length (req_sorted_ n))) /\
    exists buf,
      (WriteStringToFd env buf fd = true ->
       log = EvWriteStringToFd buf fd :: group_dumps log) /\
      (WriteStringToFd env buf fd = false ->
       log = EvWriteStringToFd buf fd
               :: EvLogError ("Failed to dump fd: " +:+ pretty fd)
               :: group_dumps log).
Proof.
  unfold DumpToFd. split.
  - intros Hlt. destruct (lookup_lt_is_Some_2 _ _ Hlt) as [g ->]. eauto.
  - intros log n'.
    destruct (req_sorted_ n !! current_val_index_ n) as [g|]; [|discriminate].
    intros [= <- <-]. split; [reflexivity|].
    match goal with
    | |- context [WriteStringToFd env ?b fd] => set (buf := b)
    end.
    assert (Hgd : group_dumps
              (EvWriteStringToFd buf fd
                 :: (if WriteStringToFd env buf fd then []
                     else [EvLogError ("Failed to dump fd: " +:+ pretty fd)])
                 ++ dump_groups fd 0 (req_sorted_ n))
            = dump_groups fd 0 (req_sorted_ n)).
    { unfold group_dumps. simpl. rewrite List.filter_app.
      fold (group_dumps (dump_groups fd 0 (req_sorted_ n))).
      rewrite group_dumps_dump_groups.
      destruct (WriteStringToFd env buf fd); reflexivity. }
    rewrite Hgd. split; [apply dump_groups_spec|].
    exists buf. split; intros ->; reflexivity.
Qed.

(** C7. Tracing is transparent: with the trace switch on and off,
    [Update] either indexes out of range in both runs or returns in
    both, with the same returned expiry, the same node afterwards
    (selected index, [current_val_index_], [reset_on_init_], groups) and
    the same log once the trace events are erased; in particular the
    same callback invocations.  The run with the switch off emits no
    trace event. *)
Theorem C7_tracing_transparent now wr b n :
  let on := Build_Env true now wr in
  let off := Build_Env false now wr in
  selected_index on n = selected_index off n /\
  match Update on b n, Update off b n with
  | Some (r1, n1, log1), Some (r2, n2, log2) =>
      r1 = r2 /\ n1 = n2 /\
      erase_trace log1 = log2 /\ erase_trace log2 = log2 /\
      callbacks log1 = callbacks log2
  | None, None => True
  | _, _ => False
  end.
Proof.
  intros on off. split; [reflexivity|].
  unfold Update. simpl.
  pose proof (scan_erase_trace now (req_sorted_ n) 0%nat milliseconds_max) as He.
  pose proof (scan_callbacks now (req_sorted_ n) 0%nat milliseconds_max) as Hc.
  destruct (scan now 0 (req_sorted_ n) milliseconds_max) as [[[found e] gs] slog];
    simpl in *.
  destruct (negb _ || _).
  - destruct (gs !! value_index_of n found) as [g|]; [|exact I].
    repeat split.
    + unfold erase_trace in *. rewrite !List.filter_app, He. reflexivity.
    + unfold erase_trace in *. rewrite !List.filter_app, He. reflexivity.
    + unfold callbacks in *. rewrite !List.filter_app, Hc. reflexivity.
  - repeat split; exact He.
Qed.

Lemma DumpToFd_total env n fd :
  (current_val_index_ n < length (req_sorted_ n))%nat -> is_Some (DumpToFd env n fd).
Proof.
  unfold DumpToFd. intros Hlt. destruct (lookup_lt_is_Some_2 _ _ Hlt) as [g ->]. eauto.
Qed.

Lemma Update_keeps_invariant env b n r n' log :
  well_formed n -> Update env b n = Some (r, n', log) ->
  well_formed n' /\
  length (req_sorted_ n') = length (req_sorted_ n) /\
  (current_val_index_ n' < length (req_sorted_ n'))%nat.
Proof.
  intros Hwf Hu.
  destruct (Update_inv _ _ _ _ _ _ Hu) as (_ & Hgs & _ & _ & Hd & Hcur & _).
  pose proof (selected_index_lt env n Hwf) as Hlt.
  unfold well_formed in *. rewrite Hd, Hcur, Hgs, scan_length. auto.
Qed.

(** C9. Index bound: on a node whose default index is below the number
    of groups, every run of [Update] calls returns (no call indexes
    [req_sorted_] out of range), keeps the number of groups and the
    default index, and leaves [current_val_index_] below the number of
    groups, so that [DumpToFd] indexes in range afterwards. *)
Theorem C9_index_bound calls n :
  well_formed n ->
  exists n',
    Update_all calls n = Some n' /\
    well_formed n' /\
    length (req_sorted_ n') = length (req_sorted_ n) /\
    default_val_index_ n' = default_val_index_ n /\
    (calls <> [] \/ (current_val_index_ n < length (req_sorted_ n))%nat ->
     (current_val_index_ n' < length (req_sorted_ n'))%nat /\
     forall env fd, is_Some (DumpToFd env n' fd)).
Proof.
  revert n. induction calls as [|[env b] rest IH]; intros n Hwf; simpl.
  - exists n. split; [reflexivity|]. split; [exact Hwf|].
    split; [reflexivity|]. split; [reflexivity|].
    intros [Hne|Hlt]; [now contradiction Hne|].
    split; [exact Hlt|]. intros env fd. now apply DumpToFd_total.
  - destruct (Update_total env b n Hwf) as [[[r n1] log] Hu]. rewrite Hu.
    destruct (Update_keeps_invariant _ _ _ _ _ _ Hwf Hu) as (Hwf1 & Hlen1 & Hcur1).
    destruct (Update_inv _ _ _ _ _ _ Hu) as (_ & _ & _ & _ & Hd1 & _).
    destruct (IH n1 Hwf1) as (n' & Hall & Hwf' & Hlen' & Hd' & Hcur').
    exists n'. repeat split; try congruence.
    + apply Hcur'. now right.
    + apply Hcur'. now right.
Qed.

End NodeProofs.

Lemma C1_witness :
  (is_Some (Update (env_at false 0) false boost_node) /\
   Update (env_at false 0) false boost_node = Some (500, boost_node_after, boost_log) /\
   current_val_index_ boost_node_after = selected_index (env_at false 0) boost_node /\
   selected_index (env_at false 0) boost_node = 1%nat /\
   req_sorted_ boost_node_after = [idle_tier; boost_tier; default_tier] /\
   queries boost_log = [EvGetExpireTime 0 false; EvGetExpireTime 1 true]) /\
  (selected_index (env_at false 0) idle_node = default_val_index_ idle_node /\
   req_sorted_ idle_node = [idle_tier; idle_tier] /\
   queries [EvGetExpireTime 0 false; EvGetExpireTime 1 false]
   = [EvGetExpireTime 0 false; EvGetExpireTime 1 false]).
Proof.
  split.
  - destruct (C1_highest_priority_wins (env_at false 0) false boost_node)
      as [Htotal Hprop].
    split; [apply Htotal; unfold well_formed; simpl; lia|].
    split; [reflexivity|].
    destruct (Hprop 500 boost_node_after boost_log eq_refl) as (Hcur & _ & Hfirst & _).
    split; [exact Hcur|].
    exact (Hfirst [idle_tier] boost_tier [default_tier] milliseconds_max
             [idle_tier] 500 boost_tier eq_refl eq_refl eq_refl).
  - destruct (C1_highest_priority_wins (env_at false 0) false idle_node)
      as [_ Hprop].
    destruct (Hprop milliseconds_max idle_node
                [EvGetExpireTime 0 false; EvGetExpireTime 1 false] eq_refl)
      as (_ & _ & _ & Hnone & _).
    exact (Hnone milliseconds_max [idle_tier; idle_tier] eq_refl).
Defined.

Lemma C2_witness :
  (is_Some (Update (env_at false 0) false boost_node) /\
   500 = expiry_after_scan (env_at false 0) boost_node /\
   selected_index (env_at false 0) boost_node = 1%nat /\
   500 = 500 /\
   In (EvGetExpireTime 1 true) boost_log) /\
  (selected_index (env_at false 600) node_after_0 = 2%nat /\
   milliseconds_max = milliseconds_max /\
   In (EvGetExpireTime 2 true) log_at_600) /\
  (selected_index (env_at false 0) idle_node = 1%nat /\
   milliseconds_max = milliseconds_max).
Proof.
  split; [|split].
  - destruct (C2_returns_expiry_of_winner (env_at false 0) false boost_node)
      as [Htotal Hprop].
    split; [apply Htotal; unfold well_formed; simpl; lia|].
    destruct (Hprop 500 boost_node_after boost_log eq_refl)
      as (Hr & _ & _ & _ & Hfirst & _).
    split; [exact Hr|].
    exact (Hfirst [idle_tier] boost_tier [default_tier] milliseconds_max
             [idle_tier] 500 boost_tier eq_refl eq_refl eq_refl).
  - destruct (C2_returns_expiry_of_winner (env_at false 600) false node_after_0)
      as [_ Hprop].
    destruct (Hprop milliseconds_max node_after_600 log_at_600 eq_refl)
      as (_ & _ & _ & _ & Hfirst & _).
    exact (Hfirst [mkRequestGroup [mkRequest "max" (Some 500)] None; idle_tier]
             default_tier [] milliseconds_max [idle_tier; idle_tier]
             milliseconds_max default_tier eq_refl eq_refl eq_refl).
  - destruct (C2_returns_expiry_of_winner (env_at false 0) false idle_node)
      as [_ Hprop].
    destruct (Hprop milliseconds_max idle_node
                [EvGetExpireTime 0 false; EvGetExpireTime 1 false] eq_refl)
      as (_ & _ & _ & _ & _ & Hnone & _).
    exact (Hnone milliseconds_max [idle_tier; idle_tier] eq_refl).
Defined.

Lemma C3_witness :
  (is_Some (Update (env_at false 0) false node_at_0) /\
   (length (callbacks log_at_0) <= 1)%nat /\
   exists g, req_sorted_ node_after_0 !! selected_index (env_at false 0) node_at_0 = Some g /\
     EvCallback "cpu" "/sys/cpu" "max"
     = EvCallback (name_ node_at_0) (node_path_ node_at_0) (GetRequestValue g)) /\
  ([EvGetExpireTime 0 true] = queries [EvGetExpireTime 0 true] /\
   current_val_index_ node_after_0 = current_val_index_ node_after_0 /\
   reset_on_init_ node_after_0 = reset_on_init_ node_after_0).
Proof.
  split.
  - destruct (C3_callback_at_most_once (env_at false 0) false node_at_0)
      as [Htotal Hprop].
    split; [apply Htotal; unfold well_formed; simpl; lia|].
    destruct (Hprop 500 node_after_0 log_at_0 eq_refl) as (Hle & _ & Hargs & _).
    split; [exact Hle|].
    apply Hargs. simpl. left. reflexivity.
  - destruct (C3_callback_at_most_once (env_at false 0) false node_after_0)
      as [_ Hprop].
    destruct (Hprop 500 node_after_0 [EvGetExpireTime 0 true] eq_refl)
      as (_ & _ & _ & Hquiet).
    apply Hquiet. reflexivity.
Defined.

Lemma C4_witness :
  (exists r1 n1 log1 r2 n2 log2,
     Update (env_at false 0) false node_at_0 = Some (r1, n1, log1) /\
     Update (env_at true 0) true n1 = Some (r2, n2, log2)) /\
  callbacks [EvGetExpireTime 0 true] = [] /\
  (length (callbacks (log_at_0 ++ [EvGetExpireTime 0 true])) <= 1)%nat /\
  current_val_index_ node_after_0 = current_val_index_ node_after_0 /\
  reset_on_init_ node_after_0 = false.
Proof.
  destruct (C4_idempotence (env_at false 0) false (env_at true 0) true node_at_0)
    as [Htotal Hprop].
  split; [apply Htotal; unfold well_formed; simpl; lia|].
  apply (Hprop 500 node_after_0 log_at_0 500 node_after_0 [EvGetExpireTime 0 true]
           eq_refl eq_refl).
  repeat constructor.
  - exists true. split; intros e; reflexivity.
  - exists false. split; intros e; reflexivity.
  - exists true. split; intros e; reflexivity.
Defined.

(** The scenario of section 8 of the specification: [Update] at [t=0]
    applies "max" and leaves every group as it was; nothing is
    submitted or withdrawn; [Update] at [t=600], after the 500 ms lease
    has run out, applies the default value: the callback runs on the
    second call, twice in total. *)
Lemma C4_counterexample :
  Update (env_at false 0) false node_at_0 = Some (500, node_after_0, log_at_0) /\
  req_sorted_ node_after_0 = req_sorted_ node_at_0 /\
  Update (env_at false 600) false node_after_0
  = Some (milliseconds_max, node_after_600, log_at_600) /\
  callbacks log_at_600 = [EvCallback "cpu" "/sys/cpu" "default"] /\
  length (callbacks (log_at_0 ++ log_at_600)) = 2%nat.
Proof. repeat split; reflexivity. Qed.

Lemma C5_witness :
  (selected_index (env_at false 0) fresh_node = current_val_index_ fresh_node /\
   Update (env_at false 0) false fresh_node
   = Some (milliseconds_max, node_after_600, log_at_600) /\
   is_Some (Update (env_at false 0) false fresh_node)) /\
  (exists g,
     req_sorted_ node_after_600 !! selected_index (env_at false 0) fresh_node = Some g /\
     callbacks log_at_600
     = [EvCallback (name_ fresh_node) (node_path_ fresh_node) (GetRequestValue g)]) /\
  callbacks log_at_600 = [EvCallback "cpu" "/sys/cpu" "default"] /\
  current_val_index_ node_after_600 = selected_index (env_at false 0) fresh_node /\
  reset_on_init_ node_after_600 = false /\
  reset_on_init_ node_after_600 = false /\
  callbacks [EvGetExpireTime 0 false; EvGetExpireTime 1 false; EvGetExpireTime 2 true] = [].
Proof.
  destruct (C5_reset_on_init_forces_once (env_at false 0) false fresh_node eq_refl)
    as [Htotal Hprop].
  split; [repeat split; [apply Htotal; unfold well_formed; simpl; lia]|].
  destruct (Hprop milliseconds_max node_after_600 log_at_600 eq_refl)
    as (Hcb & Hcur & Hclear & Hlater).
  split; [exact Hcb|]. split; [reflexivity|]. split; [exact Hcur|]. split; [exact Hclear|].
  destruct (Hlater (env_at false 1) true milliseconds_max node_after_600
              [EvGetExpireTime 0 false; EvGetExpireTime 1 false; EvGetExpireTime 2 true]
              eq_refl) as (Hclear2 & Hquiet).
  split; [exact Hclear2|]. exact (Hquiet eq_refl).
Defined.

Lemma C6_witness :
  is_Some (DumpToFd (env_at false 0) node_at_0 (-1)) /\
  (exists log,
     DumpToFd (env_at false 0) node_at_0 (-1) = Some (log, node_at_0) /\
     length (group_dumps log) = 3%nat /\
     exists buf,
       log = EvWriteStringToFd buf (-1)
               :: EvLogError ("Failed to dump fd: " +:+ pretty (-1))
               :: group_dumps log) /\
  (exists log,
     DumpToFd (env_at false 0) node_at_0 3 = Some (log, node_at_0) /\
     exists buf, log = EvWriteStringToFd buf 3 :: group_dumps log).
Proof.
  split; [|split].
  - apply (proj1 (C6_dump_is_read_only (env_at false 0) node_at_0 (-1))).
    simpl. lia.
  - eexists. split; [reflexivity|].
    destruct (proj2 (C6_dump_is_read_only (env_at false 0) node_at_0 (-1)) _ _ eq_refl)
      as (_ & Hdumps & buf & _ & Hfailed).
    split; [now rewrite Hdumps|].
    exists buf. exact (Hfailed eq_refl).
  - eexists. split; [reflexivity|].
    destruct (proj2 (C6_dump_is_read_only (env_at false 0) node_at_0 3) _ _ eq_refl)
      as (_ & _ & buf & Hwritten & _).
    exists buf. exact (Hwritten eq_refl).
Defined.

Lemma C9_witness :
  exists n',
    Update_all [(env_at false 0, false); (env_at true 600, false)] node_at_0 = Some n' /\
    well_formed n' /\
    length (req_sorted_ n') = length (req_sorted_ node_at_0) /\
    default_val_index_ n' = default_val_index_ node_at_0 /\
    ([(env_at false 0, false); (env_at true 600, false)] <> [] \/
     (current_val_index_ node_at_0 < length (req_sorted_ node_at_0))%nat ->
     (current_val_index_ n' < length (req_sorted_ n'))%nat /\
     forall env fd, is_Some (DumpToFd env n' fd)).
Proof.
  apply (C9_index_bound [(env_at false 0, false); (env_at true 600, false)] node_at_0).
  unfold well_formed. simpl. lia.
Defined.

End EventNodeProofs.

(* ===================================================================== *)
(** * Properties of BrownoutDetectedReporter.cpp *)
(* ===================================================================== *)

Module BrownoutProofs.
Import Brownout.

Lemma append_cons a s t : String a s +:+ t = String a (s +:+ t).
Proof. reflexivity. Qed.

Lemma append_empty_r s : s +:+ "" = s.
Proof.
  induction s as [|a s IH]; [reflexivity|]. rewrite append_cons. f_equal. exact IH.
Qed.

Lemma match_lit_spec lit : forall s rest,
  match_lit lit s = Some rest <-> s = lit +:+ rest.
Proof.
  induction lit as [|a lit IH]; intros s rest.
  - change ("" +:+ rest) with rest. simpl.
    split; [intros [= ->]; reflexivity|intros ->; reflexivity].
  - rewrite append_cons. destruct s as [|b s]; simpl.
    + split; discriminate.
    + destruct (Ascii.eqb_spec a b) as [->|Hne].
      * rewrite IH. split; [intros ->; reflexivity|intros [= ->]; reflexivity].
      * split; [discriminate|intros [= -> _]; now contradiction Hne].
Qed.

(** The pattern [^(LASTMEAL_UPDATED)$] matches that line and no other. *)
Lemma marker_matches line :
  matches line kAlreadyUpdatedPattern = true <-> line = LASTMEAL_UPDATED.
Proof.
  unfold matches, regex_match, kAlreadyUpdatedPattern. cbn [rmatch].
  destruct (match_lit "LASTMEAL_UPDATED" line) as [rest|] eqn:Hm.
  - apply match_lit_spec in Hm. destruct (decide (rest = "")) as [->|Hne].
    + rewrite append_empty_r in Hm. split; [intros _; exact Hm|reflexivity].
    + split; [discriminate|].
      intros ->. exfalso. apply Hne.
      rewrite <- (append_empty_r LASTMEAL_UPDATED) in Hm at 1.
      symmetry. exact (String.app_inj _ _ _ Hm).
  - split; [discriminate|]. intros ->. vm_compute in Hm. discriminate.
Qed.

Section Loops.

Context {S : Type} (flag : S -> bool) (body : string -> S -> outcome (flow S)).

Hypothesis body_marker : forall st,
  exists st', body LASTMEAL_UPDATED st = Ok (Break st') /\ flag st' = true.

Hypothesis body_other : forall line st step,
  line <> LASTMEAL_UPDATED -> body line st = Ok step ->
  match step with
  | Continue st' => flag st' = flag st
  | Break _ => False
  | Return => True
  end.

Lemma while_getline_flag lines : forall st st',
  while_getline body lines st = Ok (Some st') ->
  flag st = false ->
  (flag st' = true <-> In LASTMEAL_UPDATED lines).
Proof.
  induction lines as [|line rest IH]; intros st st'; simpl.
  - intros [= <-] Hf. rewrite Hf. split; [discriminate|intros []].
  - destruct (decide (line = LASTMEAL_UPDATED)) as [->|Hne].
    + destruct (body_marker st) as (st1 & -> & Hf1). simpl.
      intros [= <-] _. split; auto.
    + destruct (body line st) as [step|e|] eqn:Hb; simpl; try discriminate.
      pose proof (body_other line st step Hne Hb) as Hstep.
      destruct step as [st1|st1|]; [|contradiction|discriminate].
      intros Hw Hf. rewrite (IH st1 st' Hw) by congruence.
      split; [now right|]. intros [Heq|Hin]; [now contradiction Hne|exact Hin].
Qed.

Lemma while_getline_stops pre post : forall st,
  while_getline body (pre ++ LASTMEAL_UPDATED :: post) st
  = while_getline body (pre ++ [LASTMEAL_UPDATED]) st.
Proof.
  induction pre as [|line pre IH]; intros st; simpl.
  - destruct (body_marker st) as (st1 & -> & _). reflexivity.
  - destruct (body line st) as [[st1|st1|]|e|]; simpl; auto.
Qed.

End Loops.

Section ReporterProofs.

Context `{Header} `{Libc} {W : Type} `{Platform W}.

Lemma logBrownout_line_marker st :
  exists st', logBrownout_line LASTMEAL_UPDATED st = Ok (Break st') /\
              snd (fst (fst st')) = true.
Proof.
  destruct st as [[[mv u] o] d]. eexists. split; [reflexivity|reflexivity].
Qed.

Lemma logBrownout_line_other line st step :
  line <> LASTMEAL_UPDATED -> logBrownout_line line st = Ok step ->
  match step with
  | Continue st' => snd (fst (fst st')) = snd (fst (fst st))
  | Break _ => False
  | Return => True
  end.
Proof.
  intros Hne. destruct st as [[[mv u] o] d]. unfold logBrownout_line.
  destruct (matches line kAlreadyUpdatedPattern) eqn:Hm.
  { apply marker_matches in Hm. contradiction. }
  unfold bind.
  repeat match goal with
         | |- context [match ?x with _ => _ end] =>
             lazymatch x with
             | context [match _ with _ => _ end] => fail
             | _ => destruct x
             end
         end;
    try discriminate; try (intros _; exact I); intros [= <-]; reflexivity.
Qed.

Lemma logBrownoutCsv_line_marker st :
  exists st', logBrownoutCsv_line LASTMEAL_UPDATED st = Ok (Break st') /\
              snd (fst st') = true.
Proof.
  destruct st as [[mv u] r]. eexists. split; [reflexivity|reflexivity].
Qed.

Lemma logBrownoutCsv_line_other line st step :
  line <> LASTMEAL_UPDATED -> logBrownoutCsv_line line st = Ok step ->
  match step with
  | Continue st' => snd (fst st') = snd (fst st)
  | Break _ => False
  | Return => True
  end.
Proof.
  intros Hne. destruct st as [[mv u] r]. unfold logBrownoutCsv_line.
  destruct (matches line kAlreadyUpdatedPattern) eqn:Hm.
  { apply marker_matches in Hm. contradiction. }
  unfold bind.
  repeat match goal with
         | |- context [match ?x with _ => _ end] =>
             lazymatch x with
             | context [match _ with _ => _ end] => fail
             | _ => destruct x
             end
         end;
    try discriminate; try (intros _; exact I); intros [= <-]; reflexivity.
Qed.

Lemma getlines_marker_first file :
  getlines newline (LASTMEAL_UPDATED +:+ String newline "" +:+ file)
  = LASTMEAL_UPDATED :: getlines newline file.
Proof. reflexivity. Qed.

Lemma logBrownout_unfold path prop w :
  logBrownout path prop w =
  match ReadFileToString path w with
  | None => Ok (w, [])
  | Some file =>
      if brownoutReasonCheck prop w <? 0 then Ok (w, [])
      else
        let* r := logBrownout_scan (brownoutReasonCheck prop w) (getlines newline file) in
        Ok (match r with
            | Some (max_value, isAlreadyUpdated) =>
                finish file path w isAlreadyUpdated max_value
            | None => (w, [])
            end)
  end.
Proof.
  unfold logBrownout, logBrownout_scan.
  destruct (ReadFileToString path w) as [file|]; [|reflexivity].
  destruct (brownoutReasonCheck prop w <? 0); [reflexivity|].
  destruct (while_getline _ _ _) as [[[[[mv u] o] d]|]|e|]; reflexivity.
Qed.

Lemma logBrownoutCsv_unfold path prop w :
  logBrownoutCsv path prop w =
  match ReadFileToString path w with
  | None => Ok (w, [])
  | Some file =>
      if brownoutReasonCheck prop w <? 0 then Ok (w, [])
      else
        let* r := logBrownoutCsv_scan (brownoutReasonCheck prop w) (getlines newline file) in
        Ok (match r with
            | Some (max_value, isAlreadyUpdated) =>
                finish file path w isAlreadyUpdated max_value
            | None => (w, [])
            end)
  end.
Proof.
  unfold logBrownoutCsv, logBrownoutCsv_scan.
  destruct (ReadFileToString path w) as [file|]; [|reflexivity].
  destruct (brownoutReasonCheck prop w <? 0); [reflexivity|].
  destruct (while_getline _ _ _) as [[[[mv u] r]|]|e|]; reflexivity.
Qed.

Lemma logBrownout_scan_flag reason lines mv u :
  logBrownout_scan reason lines = Ok (Some (mv, u)) ->
  (u = true <-> In LASTMEAL_UPDATED lines).
Proof.
  unfold logBrownout_scan.
  destruct (while_getline _ _ _) as [[[[[mv' u'] o] d]|]|e|] eqn:Hw; simpl; try discriminate.
  intros [= -> ->].
  exact (while_getline_flag (fun st => snd (fst (fst st))) logBrownout_line
           logBrownout_line_marker logBrownout_line_other lines _ _ Hw eq_refl).
Qed.

Lemma logBrownoutCsv_scan_flag reason lines mv u :
  logBrownoutCsv_scan reason lines = Ok (Some (mv, u)) ->
  (u = true <-> In LASTMEAL_UPDATED lines).
Proof.
  unfold logBrownoutCsv_scan.
  destruct (while_getline _ _ _) as [[[[mv' u'] r]|]|e|] eqn:Hw; simpl; try discriminate.
  intros [= -> ->].
  exact (while_getline_flag (fun st => snd (fst st)) logBrownoutCsv_line
           logBrownoutCsv_line_marker logBrownoutCsv_line_other lines _ _ Hw eq_refl).
Qed.

Lemma logBrownout_scan_stops reason pre post :
  logBrownout_scan reason (pre ++ LASTMEAL_UPDATED :: post)
  = logBrownout_scan reason (pre ++ [LASTMEAL_UPDATED]).
Proof.
  unfold logBrownout_scan.
  now rewrite (while_getline_stops (fun st => snd (fst (fst st))) logBrownout_line
                 logBrownout_line_marker).
Qed.

Lemma logBrownoutCsv_scan_stops reason pre post :
  logBrownoutCsv_scan reason (pre ++ LASTMEAL_UPDATED :: post)
  = logBrownoutCsv_scan reason (pre ++ [LASTMEAL_UPDATED]).
Proof.
  unfold logBrownoutCsv_scan.
  now rewrite (while_getline_stops (fun st => snd (fst st)) logBrownoutCsv_line
                 logBrownoutCsv_line_marker).
Qed.

Lemma logBrownout_scan_marker_first reason rest :
  exists mv, logBrownout_scan reason (LASTMEAL_UPDATED :: rest) = Ok (Some (mv, true)).
Proof. eexists. reflexivity. Qed.

Lemma logBrownoutCsv_scan_marker_first reason rest :
  exists mv, logBrownoutCsv_scan reason (LASTMEAL_UPDATED :: rest) = Ok (Some (mv, true)).
Proof. eexists. reflexivity. Qed.

Section Guard.

Variable run : string -> string -> W -> outcome (W * list event).
Variable scan : Z -> list string -> outcome (option (BrownoutDetectedInfo * bool)).

Hypothesis run_unfold : forall path prop w,
  run path prop w =
  match ReadFileToString path w with
  | None => Ok (w, [])
  | Some file =>
      if brownoutReasonCheck prop w <? 0 then Ok (w, [])
      else
        let* r := scan (brownoutReasonCheck prop w) (getlines newline file) in
        Ok (match r with
            | Some (max_value, isAlreadyUpdated) =>
                finish file path w isAlreadyUpdated max_value
            | None => (w, [])
            end)
  end.

Hypothesis scan_flag : forall reason lines mv u,
  scan reason lines = Ok (Some (mv, u)) -> (u = true <-> In LASTMEAL_UPDATED lines).

Hypothesis scan_stops : forall reason pre post,
  scan reason (pre ++ LASTMEAL_UPDATED :: post) = scan reason (pre ++ [LASTMEAL_UPDATED]).

Hypothesis scan_marker_first : forall reason rest,
  exists mv, scan reason (LASTMEAL_UPDATED :: rest) = Ok (Some (mv, true)).

Lemma guard_marker_first path prop w file :
  ReadFileToString path w = Some (LASTMEAL_UPDATED +:+ String newline "" +:+ file) ->
  run path prop w = Ok (w, []).
Proof.
  intros Hread. rewrite run_unfold, Hread.
  destruct (brownoutReasonCheck prop w <? 0); [reflexivity|].
  rewrite getlines_marker_first.
  destruct (scan_marker_first (brownoutReasonCheck prop w) (getlines newline file))
    as [mv ->].
  reflexivity.
Qed.

Lemma guard_run path prop w w' log :
  run path prop w = Ok (w', log) ->
  (exists file max_value,
     upload_conditions scan path prop w file max_value /\
     log = [EvWriteStringToFile (LASTMEAL_UPDATED +:+ String newline "" +:+ file) path;
            EvUploadData max_value] /\
     w' = snd (WriteStringToFile (LASTMEAL_UPDATED +:+ String newline "" +:+ file) path w))
  \/
  ((~ exists file max_value, upload_conditions scan path prop w file max_value) /\
   log = [] /\ w' = w).
Proof.
  rewrite run_unfold.
  destruct (ReadFileToString path w) as [file|] eqn:Hread.
  2:{ intros [= <- <-]. right. split; [|auto].
      intros (f & mv & Hr & _). congruence. }
  destruct (Z.ltb_spec (brownoutReasonCheck prop w) 0) as [Hneg|Hpos].
  { intros [= <- <-]. right. split; [|auto].
    intros (f & mv & _ & Hr & _). lia. }
  destruct (scan (brownoutReasonCheck prop w) (getlines newline file))
    as [[[mv u]|]|e|] eqn:Hscan; simpl; try discriminate.
  2:{ intros [= <- <-]. right. split; [|auto].
      intros (f & mv & Hr & _ & _ & (u & Hs) & _).
      assert (f = file) by congruence. subst f. congruence. }
  unfold finish.
  destruct u; simpl.
  { intros [= <- <-]. right. split; [|auto].
    intros (f & mv' & Hr & _ & Hno & _).
    assert (f = file) by congruence. subst f.
    apply Hno. now apply (scan_flag _ _ _ _ Hscan). }
  destruct (Z.eqb_spec (battery_temp_ mv) DEFAULT_BATTERY_TEMP) as [Heq|Hneq]; simpl.
  { intros [= <- <-]. right. split; [|auto].
    intros (f & mv' & Hr & _ & _ & (u & Hs) & Ht).
    assert (f = file) by congruence. subst f.
    assert (mv' = mv) by congruence. subst mv'. contradiction. }
  intros [= <- <-]. left. exists file, mv. split; [|split; reflexivity].
  repeat split; auto.
  + intros Hin. apply (scan_flag _ _ _ _ Hscan) in Hin. discriminate.
  + eauto.
Qed.

Lemma guard_holds : upload_guarded run scan.
Proof.
  split; [|split; [|split; [|split]]].
  - exact guard_run.
  - exact scan_stops.
  - exact guard_marker_first.
  - intros path prop w [Hread|Hneg]; rewrite run_unfold.
    + now rewrite Hread.
    + destruct (ReadFileToString path w); [|reflexivity].
      destruct (Z.ltb_spec (brownoutReasonCheck prop w) 0); [reflexivity|lia].
  - intros Hlaw path prop w w' log max_value Hrun Hup Hok.
    destruct (guard_run _ _ _ _ _ Hrun) as [(file & mv & Hc & -> & ->)|(_ & -> & _)];
      [|destruct Hup].
    exists file. split; [exact (proj1 Hc)|].
    assert (Hback : ReadFileToString path
                      (snd (WriteStringToFile
                              (LASTMEAL_UPDATED +:+ String newline "" +:+ file) path w))
                    = Some (LASTMEAL_UPDATED +:+ String newline "" +:+ file)).
    { apply Hlaw, Hok. now left. }
    split; [exact Hback|].
    intros prop'. exact (guard_marker_first _ _ _ _ Hback).
Qed.

End Guard.

(** C10 (amended). Upload guard of [logBrownout] and [logBrownoutCsv]:
    a run that comes to its end uploads the record and calls
    [WriteStringToFile] on the log file exactly when the file is
    readable, the reason property names a known reason, no line of the
    file is [LASTMEAL_UPDATED] (the scan reads nothing after such a
    line) and [battery_temp_] differs from 9999999; the content written
    is the old content with the line [LASTMEAL_UPDATED] in front.  When
    an upload happens and the write succeeds, the file is rewritten
    with that line in front, and a second run on the resulting file
    comes to its end with no upload and no rewrite, as does every run
    on an unreadable file or on an unknown reason. *)
Theorem C10_upload_guard :
  upload_guarded logBrownout logBrownout_scan /\
  upload_guarded logBrownoutCsv logBrownoutCsv_scan.
Proof.
  split.
  - exact (guard_holds _ _ logBrownout_unfold logBrownout_scan_flag
             logBrownout_scan_stops logBrownout_scan_marker_first).
  - exact (guard_holds _ _ logBrownoutCsv_unfold logBrownoutCsv_scan_flag
             logBrownoutCsv_scan_stops logBrownoutCsv_scan_marker_first).
Qed.

(** C8 (amended). Running minimum and maximum: on a line that does not
    match the pattern, or matches it with fewer than [READING_IDX + 1]
    sub-matches, [updateIfFound] returns false and leaves
    [*current_value] as it was.  On a line that matches with at least
    [READING_IDX + 1] sub-matches and whose sub-match [READING_IDX]
    [std::stoi] converts to [reading], it returns true and
    [*current_value] becomes the larger of the two with [kUpdateMax]
    (overwritten exactly when [reading] is strictly greater) and the
    smaller of the two with [kUpdateMin] (overwritten exactly when
    [reading] is strictly smaller).  Whenever the call returns, it
    returns true exactly on the lines that match with at least
    [READING_IDX + 1] sub-matches. *)
Theorem C8_updateIfFound_min_max line pattern current_value flag :
  (regex_match line pattern = None ->
   updateIfFound line pattern current_value flag = Ok (false, current_value)) /\
  (forall m, regex_match line pattern = Some m ->
     (length m < READING_IDX + 1)%nat ->
     updateIfFound line pattern current_value flag = Ok (false, current_value)) /\
  (forall m reading, regex_match line pattern = Some m ->
     (READING_IDX + 1 <= length m)%nat ->
     stoi (sub_match m READING_IDX) = Ok reading ->
     exists v,
       updateIfFound line pattern current_value flag = Ok (true, v) /\
       match flag with
       | kUpdateMax =>
           v = Z.max current_value reading /\
           (current_value < reading -> v = reading) /\
           (reading <= current_value -> v = current_value)
       | kUpdateMin =>
           v = Z.min current_value reading /\
           (reading < current_value -> v = reading) /\
           (current_value <= reading -> v = current_value)
       end) /\
  (forall found v, updateIfFound line pattern current_value flag = Ok (found, v) ->
     (found = true <->
      exists m, regex_match line pattern = Some m /\ (READING_IDX + 1 <= length m)%nat) /\
     (found = false -> v = current_value)).
Proof.
  unfold updateIfFound. split; [|split; [|split]].
  - intros ->. reflexivity.
  - intros m -> Hlt. apply Nat.ltb_lt in Hlt. now rewrite Hlt.
  - intros m reading -> Hle Hstoi.
    destruct (Nat.ltb_spec (length m) (READING_IDX + 1)) as [Hlt|_]; [lia|].
    rewrite Hstoi. simpl.
    destruct flag.
    + destruct (Z.ltb_spec current_value reading); eexists; (split; [reflexivity|]); lia.
    + destruct (Z.gtb_spec current_value reading); eexists; (split; [reflexivity|]); lia.
  - intros found v. destruct (regex_match line pattern) as [m|].
    + destruct (Nat.ltb_spec (length m) (READING_IDX + 1)) as [Hlt|Hle].
      * intros [= <- <-]. split; [|reflexivity].
        split; [discriminate|]. intros (m' & [= <-] & Hle). lia.
      * destruct (stoi (sub_match m READING_IDX)) as [reading|e|]; simpl; try discriminate.
        intros Hres.
        assert (Hfound : found = true).
        { destruct flag;
            [destruct (current_value <? reading)|destruct (current_value >? reading)];
            now injection Hres as <- _. }
        subst found. split; [|discriminate].
        split; [|reflexivity]. intros _. exists m. auto.
    + intros [= <- <-]. split; [|reflexivity].
      split; [discriminate|]. intros (m & [=] & _).
Qed.

End ReporterProofs.
Lemma C8_witness :
  regex_match "battery:250" kBatteryTempPattern = Some ["battery:250"; "battery"; "250"] /\
  stoi "250" = Ok 250 /\
  (exists v,
     updateIfFound "battery:250" kBatteryTempPattern DEFAULT_BATTERY_TEMP kUpdateMin
     = Ok (true, v) /\
     v = Z.min DEFAULT_BATTERY_TEMP 250 /\
     (250 < DEFAULT_BATTERY_TEMP -> v = 250) /\
     (DEFAULT_BATTERY_TEMP <= 250 -> v = DEFAULT_BATTERY_TEMP)) /\
  updateIfFound "soc:87" kBatteryTempPattern DEFAULT_BATTERY_TEMP kUpdateMin
  = Ok (false, DEFAULT_BATTERY_TEMP) /\
  updateIfFound "vdroop1 triggered at 12345.678" kIrqPattern 7 kUpdateMax = Ok (false, 7).
Proof.
  split; [reflexivity|]. split; [reflexivity|]. split; [|split].
  - apply (proj1 (proj2 (proj2
             (C8_updateIfFound_min_max "battery:250" kBatteryTempPattern
                DEFAULT_BATTERY_TEMP kUpdateMin)))
             ["battery:250"; "battery"; "250"] 250 eq_refl).
    + simpl. unfold READING_IDX. lia.
    + reflexivity.
  - apply (proj1 (C8_updateIfFound_min_max "soc:87" kBatteryTempPattern
                    DEFAULT_BATTERY_TEMP kUpdateMin)).
    reflexivity.
  - apply (proj1 (proj2 (C8_updateIfFound_min_max "vdroop1 triggered at 12345.678"
                           kIrqPattern 7 kUpdateMax))
             ["vdroop1 triggered at 12345.678"; "vdroop1"] eq_refl).
    simpl. unfold READING_IDX. lia.
Defined.

(** The line matches the battery pattern with three sub-matches, and
    the call leaves by [std::out_of_range] instead of returning true. *)
Lemma C8_counterexample :
  regex_match "battery:99999999999" kBatteryTempPattern
  = Some ["battery:99999999999"; "battery"; "99999999999"] /\
  updateIfFound "battery:99999999999" kBatteryTempPattern DEFAULT_BATTERY_TEMP kUpdateMin
  = Throw out_of_range /\
  ~ exists v,
      updateIfFound "battery:99999999999" kBatteryTempPattern DEFAULT_BATTERY_TEMP kUpdateMin
      = Ok (true, v).
Proof.
  split; [reflexivity|]. split; [reflexivity|]. intros [v Hv]. discriminate Hv.
Qed.

Lemma C10_witness :
  (exists w' max_value,
     logBrownout log_path reason_prop sample_device
     = Ok (w', [EvWriteStringToFile (LASTMEAL_UPDATED +:+ nl +:+ sample_log) log_path;
                EvUploadData max_value]) /\
     upload_conditions logBrownout_scan log_path reason_prop sample_device
                       sample_log max_value /\
     ReadFileToString log_path w' = Some (LASTMEAL_UPDATED +:+ nl +:+ sample_log) /\
     logBrownout log_path reason_prop w' = Ok (w', [])) /\
  (exists w' max_value,
     logBrownoutCsv csv_path reason_prop sample_csv_device
     = Ok (w', [EvWriteStringToFile (LASTMEAL_UPDATED +:+ nl +:+ sample_csv) csv_path;
                EvUploadData max_value]) /\
     upload_conditions logBrownoutCsv_scan csv_path reason_prop sample_csv_device
                       sample_csv max_value /\
     ReadFileToString csv_path w' = Some (LASTMEAL_UPDATED +:+ nl +:+ sample_csv) /\
     logBrownoutCsv csv_path reason_prop w' = Ok (w', [])).
Proof.
  assert (Hlaw : @writes_are_read_back Device Device_platform).
  { intros content path w _. apply lookup_insert_eq. }
  destruct (@C10_upload_guard sample_header sample_libc Device Device_platform)
    as [(Hlog & _ & _ & _ & Hlog2) (Hcsv & _ & _ & _ & Hcsv2)].
  split.
  - destruct (logBrownout log_path reason_prop sample_device) as [[w' log]|e|] eqn:Hrun;
      [|vm_compute in Hrun; discriminate Hrun..].
    destruct (Hlog _ _ _ _ _ Hrun) as [(file & mv & Hc & -> & ->)|(_ & -> & _)];
      [|vm_compute in Hrun; discriminate Hrun].
    assert (file = sample_log) as ->.
    { destruct Hc as (Hread & _). vm_compute in Hread. now injection Hread as <-. }
    eexists _, mv. split; [reflexivity|]. split; [exact Hc|].
    destruct (Hlog2 Hlaw _ _ _ _ _ mv Hrun (or_intror (or_introl eq_refl))
                (fun _ _ => eq_refl)) as (file & Hread & Hback & Hsecond).
    assert (file = sample_log) as ->.
    { vm_compute in Hread. now injection Hread as <-. }
    split; [exact Hback|exact (Hsecond reason_prop)].
  - destruct (logBrownoutCsv csv_path reason_prop sample_csv_device) as [[w' log]|e|] eqn:Hrun;
      [|vm_compute in Hrun; discriminate Hrun..].
    destruct (Hcsv _ _ _ _ _ Hrun) as [(file & mv & Hc & -> & ->)|(_ & -> & _)];
      [|vm_compute in Hrun; discriminate Hrun].
    assert (file = sample_csv) as ->.
    { destruct Hc as (Hread & _). vm_compute in Hread. now injection Hread as <-. }
    eexists _, mv. split; [reflexivity|]. split; [exact Hc|].
    destruct (Hcsv2 Hlaw _ _ _ _ _ mv Hrun (or_intror (or_introl eq_refl))
                (fun _ _ => eq_refl)) as (file & Hread & Hback & Hsecond).
    assert (file = sample_csv) as ->.
    { vm_compute in Hread. now injection Hread as <-. }
    split; [exact Hback|exact (Hsecond reason_prop)].
Defined.

(** Two ways in which a file that meets the four conditions is not
    uploaded once and rewritten.  Both files are readable, the reason
    is known, no line is the marker and a battery temperature of 250
    has been read when the scan meets a reading no [int] holds (log) or
    a row without columns (CSV): neither run comes to the upload.  And
    on a device whose files cannot be written the result of
    [WriteStringToFile] goes unread: the run uploads, the file stays as
    it was, and a second run uploads again. *)
Lemma C10_counterexample :
  (ReadFileToString log_path overflowing_device = Some overflowing_log /\
   0 <= brownoutReasonCheck reason_prop overflowing_device /\
   ~ In LASTMEAL_UPDATED (getlines newline overflowing_log) /\
   updateIfFound "battery:250" kBatteryTempPattern DEFAULT_BATTERY_TEMP kUpdateMin
   = Ok (true, 250) /\
   logBrownout log_path reason_prop overflowing_device = Throw out_of_range) /\
  (ReadFileToString csv_path blank_row_device = Some blank_row_csv /\
   0 <= brownoutReasonCheck reason_prop blank_row_device /\
   ~ In LASTMEAL_UPDATED (getlines newline blank_row_csv) /\
   (exists max_value,
      logBrownoutCsv_scan 9 (take 2 (getlines newline blank_row_csv))
      = Ok (Some (max_value, false)) /\ battery_temp_ max_value = 250) /\
   logBrownoutCsv csv_path reason_prop blank_row_device = Undefined) /\
  (exists max_value,
     logBrownout log_path reason_prop (mkReadOnly sample_device)
     = Ok (mkReadOnly sample_device,
           [EvWriteStringToFile (LASTMEAL_UPDATED +:+ nl +:+ sample_log) log_path;
            EvUploadData max_value]) /\
     ReadFileToString log_path (mkReadOnly sample_device) = Some sample_log /\
     uploads
       (match logBrownout log_path reason_prop (mkReadOnly sample_device) with
        | Ok (w', log1) =>
            match logBrownout log_path reason_prop w' with
            | Ok (_, log2) => log1 ++ log2
            | _ => []
            end
        | _ => []
        end)
     = [EvUploadData max_value; EvUploadData max_value]).
Proof.
  split; [|split].
  - split; [reflexivity|]. split; [vm_compute; discriminate|].
    split; [vm_compute; intuition discriminate|].
    split; [reflexivity|]. vm_compute. reflexivity.
  - split; [reflexivity|]. split; [vm_compute; discriminate|].
    split; [vm_compute; intuition discriminate|].
    split; [eexists; split; vm_compute; reflexivity|]. vm_compute. reflexivity.
  - eexists. split; [vm_compute; reflexivity|]. split; [reflexivity|].
    vm_compute. reflexivity.
Qed.

End BrownoutProofs.

(* ===================================================================== *)
(** * Further properties of EventNode.cc *)
(* ===================================================================== *)

Module EventNodeExtras.
Import EventNode EventNodeProofs.

Section NodeExtras.

Context {G : Type} `{RequestGroupOps G}.



End NodeExtras.



End EventNodeExtras.

(* ===================================================================== *)
(** * Further properties of BrownoutDetectedReporter.cpp *)
(* ===================================================================== *)

Module BrownoutExtras.
Import Brownout.

(** ** Sub-match counts *)

(** A successful match went through its continuation; a property of
    the captures that storing a capture keeps holds there. *)
Lemma match_plus_cont {A} k (cont : string -> option A) :
  forall s a, match_plus k s cont = Some a ->
  exists rest, cont rest = Some a.
Proof.
  induction s as [|c s IH]; simpl; [discriminate|].
  intros a. destruct (class_mem k c); [|discriminate].
  destruct (match_plus k s cont) as [a'|] eqn:Hm.
  - intros [= <-]. now apply IH.
  - eauto.
Qed.

Lemma rmatch_cont (Q : list string -> Prop) r :
  (forall caps i x, Q caps -> Q (<[i := x]> caps)) ->
  forall s caps cont m,
    Q caps -> rmatch r s caps cont = Some m ->
    exists rest caps', Q caps' /\ cont rest caps' = Some m.
Proof.
  intros Hins.
  induction r as [l|k|k|i r IH|r1 IH1 r2 IH2]; intros s caps cont m Hq; simpl.
  - destruct (match_lit l s) as [rest|]; [|discriminate]. eauto.
  - destruct s as [|c s]; [discriminate|].
    destruct (class_mem k c); [|discriminate]. eauto.
  - intros Hm. apply match_plus_cont in Hm. destruct Hm as [rest Hm]. eauto.
  - intros Hm. apply IH in Hm; [|exact Hq].
    destruct Hm as (rest & caps' & Hq' & Hm). eauto.
  - intros Hm. apply IH1 in Hm; [|exact Hq].
    destruct Hm as (rest & caps' & Hq' & Hm). now apply IH2 in Hm.
Qed.

Lemma rmatch_sound (Q P : list string -> Prop) r :
  (forall caps i x, Q caps -> Q (<[i := x]> caps)) ->
  forall s caps cont m,
    Q caps ->
    (forall rest caps', Q caps' -> forall m', cont rest caps' = Some m' -> P m') ->
    rmatch r s caps cont = Some m -> P m.
Proof.
  intros Hins s caps cont m Hq Hcont Hm.
  destruct (rmatch_cont Q r Hins s caps cont m Hq Hm) as (rest & caps' & Hq' & Hc).
  eauto.
Qed.

Lemma regex_match_size line pattern m :
  regex_match line pattern = Some m ->
  length m = S (mark_count pattern) /\ sub_match m 0 = line.
Proof.
  unfold regex_match.
  apply (rmatch_sound (fun caps => length caps = S (mark_count pattern))
                      (fun m => length m = S (mark_count pattern) /\ sub_match m 0 = line)).
  - intros caps i x Hlen. now rewrite length_insert.
  - apply length_replicate.
  - intros rest caps' Hlen m'. destruct (decide (rest = "")); [|discriminate].
    intros [= <-]. rewrite length_insert. split; [exact Hlen|].
    destruct caps'; [discriminate|reflexivity].
Qed.

(** ** Readings are runs of digits *)

Lemma match_plus_end {A} k (cont : string -> option A) (F : string -> A) :
  (forall rest, cont rest = if decide (rest = "") then Some (F rest) else None) ->
  forall s a, match_plus k s cont = Some a ->
  a = F "" /\ s <> "" /\ all_in k s = true.
Proof.
  intros Hcont. induction s as [|c s IH]; simpl; [discriminate|].
  intros a. destruct (class_mem k c); [|discriminate].
  destruct (match_plus k s cont) as [a'|] eqn:Hm.
  - intros [= <-]. destruct (IH a' eq_refl) as (Ha & _ & Hall). auto.
  - rewrite Hcont. destruct (decide (s = "")) as [->|]; [|discriminate].
    intros [= <-]. auto.
Qed.

Lemma substring_all s : substring 0 (String.length s) s = s.
Proof. induction s as [|c s IH]; simpl; [reflexivity|now rewrite IH]. Qed.

Lemma consumed_all s : consumed s "" = s.
Proof. unfold consumed. simpl. rewrite Nat.sub_0_r. apply substring_all. Qed.

Lemma last_group_digits line s caps m :
  length caps = 3%nat ->
  rmatch (RGroup 2 (RPlus CDigit)) s caps (at_end line) = Some m ->
  sub_match m 2 = s /\ s <> "" /\ all_in CDigit s = true.
Proof.
  intros Hlen. simpl. intros Hm.
  apply (match_plus_end CDigit _
           (fun rest => <[0%nat := line]> (<[2%nat := consumed s rest]> caps))) in Hm.
  - destruct Hm as (-> & Hne & Hall). split; [|auto].
    rewrite consumed_all.
    destruct caps as [|a [|b [|c [|]]]]; try discriminate. reflexivity.
  - intros rest. reflexivity.
Qed.

Lemma peel r1 r2 s caps cont m :
  length caps = 3%nat ->
  rmatch (RSeq r1 r2) s caps cont = Some m ->
  exists rest caps', length caps' = 3%nat /\ rmatch r2 rest caps' cont = Some m.
Proof.
  intros Hlen Hm. simpl in Hm.
  apply (rmatch_cont (fun caps => length caps = 3%nat)) in Hm; [exact Hm| |exact Hlen].
  intros caps0 i x Hl. now rewrite length_insert.
Qed.

Lemma reading_is_digit_run line pattern m :
  In pattern reading_patterns ->
  regex_match line pattern = Some m ->
  sub_match m READING_IDX <> "" /\ all_in CDigit (sub_match m READING_IDX) = true.
Proof.
  intros Hin Hm. unfold regex_match in Hm.
  change (fun rest caps => if decide (rest = "") then Some (<[0%nat := line]> caps) else None)
    with (at_end line) in Hm.
  assert (Hshape : exists s caps, length caps = 3%nat /\
            rmatch (RGroup 2 (RPlus CDigit)) s caps (at_end line) = Some m).
  { unfold reading_patterns in Hin. simpl in Hin.
    destruct Hin as [<-|[<-|[<-|[<-|[<-|[<-|[]]]]]]];
      cbn [mark_count kBatterySocPattern kBatteryTempPattern kBatteryCyclePattern
             kFgPattern kDvfsPattern kOdpmPattern key_reading seq_of Nat.add] in Hm;
      repeat (apply peel in Hm; [destruct Hm as (? & ? & ? & Hm)|reflexivity || assumption]);
      eauto. }
  destruct Hshape as (s & caps & Hlen & Hg).
  unfold READING_IDX.
  destruct (last_group_digits line s caps m Hlen Hg) as (-> & Hne & Hall). auto.
Qed.

Lemma digits_value_from ds : forall acc,
  Forall (fun d => 0 <= d) ds -> 0 <= acc ->
  0 <= fold_left (fun a d => 10 * a + d) ds acc.
Proof.
  induction ds as [|d ds IH]; intros acc Hall Hacc; simpl; [exact Hacc|].
  inversion Hall; subst. apply IH; [assumption|lia].
Qed.

Lemma leading_digits_nonneg s : Forall (fun d => 0 <= d) (leading_digits s).
Proof.
  induction s as [|c s IH]; simpl; [constructor|].
  unfold isdigit. destruct (Z.leb_spec 48 (code c)); simpl; [|constructor].
  destruct (code c <=? 57); constructor; [lia|exact IH].
Qed.

Lemma parse_decimal_digit_run s :
  s <> "" -> all_in CDigit s = true ->
  exists v, parse_decimal s = Some v /\ 0 <= v.
Proof.
  destruct s as [|c s]; [congruence|]. intros _. simpl.
  intros Hall. apply andb_true_iff in Hall. destruct Hall as [Hc _].
  pose proof (leading_digits_nonneg s) as Hrest.
  assert (Hcode : 0 <= code c - 48).
  { unfold isdigit in Hc. apply andb_true_iff in Hc. destruct Hc as [Hc _].
    apply Z.leb_le in Hc. lia. }
  exists (fold_left (fun a d => 10 * a + d) (leading_digits s) (10 * 0 + (code c - 48))).
  split; [|apply digits_value_from; [exact Hrest|lia]].
  destruct c as [[] [] [] [] [] [] [] []]; try discriminate Hc; reflexivity.
Qed.

Lemma stoi_digit_run s :
  s <> "" -> all_in CDigit s = true ->
  (exists v, stoi s = Ok v /\ 0 <= v <= INT_MAX) \/ stoi s = Throw out_of_range.
Proof.
  intros Hne Hall. destruct (parse_decimal_digit_run s Hne Hall) as (v & Hp & Hv).
  unfold stoi. rewrite Hp. destruct (in_int v) eqn:Hin; [left|now right].
  exists v. split; [reflexivity|].
  unfold in_int in Hin. apply andb_true_iff in Hin. destruct Hin as [_ Hmax].
  apply Z.leb_le in Hmax. lia.
Qed.

(** The two ways [updateIfFound] returns: it found nothing and left the
    value, whatever the value was; or it read [reading] and would
    aggregate it into any value. *)
Lemma updateIfFound_returns line pattern current_value flag found v :
  updateIfFound line pattern current_value flag = Ok (found, v) ->
  (found = false /\ v = current_value /\
   forall c, updateIfFound line pattern c flag = Ok (false, c))
  \/
  (exists reading,
     found = true /\ v = aggregate flag current_value reading /\
     INT_MIN <= reading <= INT_MAX /\
     (In pattern reading_patterns -> 0 <= reading) /\
     forall c, updateIfFound line pattern c flag = Ok (true, aggregate flag c reading)).
Proof.
  unfold updateIfFound.
  destruct (regex_match line pattern) as [m|] eqn:Hm.
  2:{ intros [= <- <-]. left. auto. }
  destruct (length m <? READING_IDX + 1)%nat.
  { intros [= <- <-]. left. auto. }
  destruct (stoi (sub_match m READING_IDX)) as [reading|e|] eqn:Hs; simpl; try discriminate.
  intros Hres. right. exists reading.
  assert (Hrange : INT_MIN <= reading <= INT_MAX).
  { unfold stoi in Hs. destruct (parse_decimal _) as [r|]; [|discriminate].
    destruct (in_int r) eqn:Hin; [|discriminate]. injection Hs as <-.
    unfold in_int in Hin. apply andb_true_iff in Hin. destruct Hin as [H1 H2].
    apply Z.leb_le in H1, H2. lia. }
  assert (Hnonneg : In pattern reading_patterns -> 0 <= reading).
  { intros Hin. destruct (reading_is_digit_run line pattern m Hin Hm) as [Hne Hall].
    destruct (stoi_digit_run _ Hne Hall) as [(r & Hr & Hr0)|Ht]; [|congruence].
    assert (r = reading) by congruence. lia. }
  assert (Hv : found = true /\ v = aggregate flag current_value reading).
  { destruct flag; simpl.
    - destruct (Z.ltb_spec current_value reading); injection Hres as <- <-; split; lia.
    - destruct (Z.gtb_spec current_value reading); injection Hres as <- <-; split; lia. }
  destruct Hv as [-> ->]. repeat split; try lia; auto.
  intros c. destruct flag; simpl.
  - destruct (Z.ltb_spec c reading); do 2 f_equal; lia.
  - destruct (Z.gtb_spec c reading); do 2 f_equal; lia.
Qed.

(** On its six patterns [updateIfFound] never meets undefined
    behaviour and never throws [std::invalid_argument]. *)
Lemma updateIfFound_failure line pattern current_value flag :
  In pattern reading_patterns ->
  updateIfFound line pattern current_value flag <> Undefined /\
  updateIfFound line pattern current_value flag <> Throw invalid_argument.
Proof.
  intros Hin. unfold updateIfFound.
  destruct (regex_match line pattern) as [m|] eqn:Hm; [|split; discriminate].
  destruct (length m <? READING_IDX + 1)%nat; [split; discriminate|].
  destruct (reading_is_digit_run line pattern m Hin Hm) as [Hne Hall].
  destruct (stoi_digit_run _ Hne Hall) as [(r & -> & _)| -> ]; simpl.
  - destruct flag; [destruct (_ <? _)|destruct (_ >? _)]; split; discriminate.
  - split; discriminate.
Qed.

(** ** Reading a text piece by piece *)

Lemma append_assoc a b c : (a +:+ b) +:+ c = a +:+ (b +:+ c).
Proof.
  induction a as [|x a IH]; [reflexivity|].
  rewrite !BrownoutProofs.append_cons. now rewrite IH.
Qed.

Lemma getlines_from_piece delim piece : forall rest cur,
  ~ has_char delim piece ->
  getlines_from delim (piece +:+ String delim rest) cur
  = (cur +:+ piece) :: getlines_from delim rest "".
Proof.
  induction piece as [|c piece IH]; intros rest cur Hno.
  - change ("" +:+ String delim rest) with (String delim rest). simpl.
    rewrite Ascii.eqb_refl. now rewrite BrownoutProofs.append_empty_r.
  - rewrite BrownoutProofs.append_cons. simpl.
    destruct (Ascii.eqb_spec c delim) as [->|Hne].
    { exfalso. apply Hno. now left. }
    rewrite IH.
    + rewrite append_assoc. reflexivity.
    + intros Hin. apply Hno. now right.
Qed.

Lemma getlines_from_last delim piece : forall cur,
  ~ has_char delim piece ->
  getlines_from delim piece cur = if decide (cur +:+ piece = "") then [] else [cur +:+ piece].
Proof.
  induction piece as [|c piece IH]; intros cur Hno.
  - simpl. rewrite BrownoutProofs.append_empty_r. reflexivity.
  - simpl. destruct (Ascii.eqb_spec c delim) as [->|Hne].
    { exfalso. apply Hno. now left. }
    rewrite IH.
    + rewrite append_assoc. reflexivity.
    + intros Hin. apply Hno. now right.
Qed.

Lemma getlines_from_pieces delim s : forall cur piece,
  ~ has_char delim cur ->
  In piece (getlines_from delim s cur) -> ~ has_char delim piece.
Proof.
  induction s as [|c s IH]; intros cur piece Hcur; simpl.
  - destruct (decide (cur = "")); [intros []|]. intros [<-|[]]. exact Hcur.
  - destruct (Ascii.eqb_spec c delim) as [->|Hne].
    + intros [<-|Hin]; [exact Hcur|]. apply (IH "" piece); [intros []|exact Hin].
    + apply IH. unfold has_char. intros Hin.
      assert (Hsplit : list_ascii_of_string (cur +:+ String c "")
                       = list_ascii_of_string cur ++ [c]).
      { clear. induction cur as [|x cur IHc]; [reflexivity|].
        rewrite BrownoutProofs.append_cons. simpl. now rewrite IHc. }
      rewrite Hsplit in Hin. apply in_app_or in Hin.
      destruct Hin as [Hin|[Heq|[]]]; [now apply Hcur|congruence].
Qed.

(** X7. Reading with [std::getline] until it fails: pieces that do not
    contain the delimiter, each followed by it, are read back as they
    are; a non-empty last piece needs no delimiter; an empty piece after
    the last delimiter is not read at all (a CSV row that ends in a
    comma has one column less); and no piece read contains the
    delimiter. *)
Theorem X7_getlines_round_trip delim pieces :
  Forall (fun piece => ~ has_char delim piece) pieces ->
  getlines delim (terminated delim pieces) = pieces /\
  (forall last, ~ has_char delim last -> last <> "" ->
     getlines delim (terminated delim pieces +:+ last) = pieces ++ [last]) /\
  getlines delim (terminated delim pieces +:+ "") = pieces /\
  (forall text piece, In piece (getlines delim text) -> ~ has_char delim piece).
Proof.
  intros Hall.
  assert (Hgen : forall tail,
            getlines delim (terminated delim pieces +:+ tail)
            = pieces ++ getlines delim tail).
  { unfold getlines. induction Hall as [|piece pieces Hpiece _ IH]; intros tail.
    - reflexivity.
    - simpl. rewrite append_assoc, BrownoutProofs.append_cons.
      rewrite getlines_from_piece by exact Hpiece.
      change ("" +:+ piece) with piece. now rewrite IH. }
  split; [|split; [|split]].
  - rewrite <- (BrownoutProofs.append_empty_r (terminated delim pieces)), Hgen.
    apply app_nil_r.
  - intros last Hlast Hne. rewrite Hgen. f_equal. unfold getlines.
    rewrite getlines_from_last by exact Hlast.
    change ("" +:+ last) with last. destruct (decide (last = "")); congruence.
  - rewrite Hgen. apply app_nil_r.
  - intros text piece. unfold getlines. apply getlines_from_pieces. intros [].
Qed.

Section ReporterExtras.

Context `{Header} `{Libc} {W : Type} `{Platform W}.

Lemma logBrownout_line_no_return line st : logBrownout_line line st <> Ok Return.
Proof.
  destruct st as [[[mv u] o] d]. unfold logBrownout_line.
  destruct (matches line kAlreadyUpdatedPattern); [discriminate|].
  destruct (regex_match line kIrqPattern) as [m|] eqn:Hm.
  - apply regex_match_size in Hm. destruct Hm as [Hlen _].
    destruct (Nat.ltb_spec (length m) (KEY_IDX + 1)) as [Hlt|_].
    { rewrite Hlen in Hlt. unfold KEY_IDX in Hlt. lia. }
    repeat match goal with
           | |- context [if ?c then _ else _] => destruct c
           end; discriminate.
  - unfold bind.
    repeat match goal with
           | |- context [match ?x with _ => _ end] =>
               lazymatch x with
               | context [match _ with _ => _ end] => fail
               | _ => destruct x
               end
           end; discriminate.
Qed.

Lemma while_getline_no_return {S} (body : string -> S -> outcome (flow S)) :
  (forall line st, body line st <> Ok Return) ->
  forall lines st, while_getline body lines st <> Ok None.
Proof.
  intros Hbody. induction lines as [|line rest IH]; intros st; simpl; [discriminate|].
  destruct (body line st) as [[st'|st'|]|e|] eqn:Hb; simpl; try discriminate.
  - apply IH.
  - now apply Hbody in Hb.
Qed.

(** X1. [pattern_match.size()] is the number of capture groups plus
    one and [pattern_match[0]] is the whole line; hence no line makes
    the loop body of [logBrownout] take the early [return] of lines
    360-362, and a scan that ends without an exception ends at the
    upload guard with a record, or was cut short by the marker line.
    The scan can still end by an exception: [std::stoi] throws
    [std::out_of_range] on a reading no [int] holds. *)
Theorem X1_no_early_return :
  (forall line pattern m, regex_match line pattern = Some m ->
     length m = S (mark_count pattern) /\ sub_match m KEY_IDX = line) /\
  (forall line st, logBrownout_line line st <> Ok Return) /\
  (forall brownout_reason lines, logBrownout_scan brownout_reason lines <> Ok None) /\
  (forall brownout_reason lines r,
     logBrownout_scan brownout_reason lines = Ok r ->
     exists max_value isAlreadyUpdated,
       r = Some (max_value, isAlreadyUpdated) /\
       (isAlreadyUpdated = true <-> In LASTMEAL_UPDATED lines)) /\
  (forall brownout_reason,
     logBrownout_scan brownout_reason ["soc:99999999999"] = Throw out_of_range).
Proof.
  assert (Hnone : forall r lines, logBrownout_scan r lines <> Ok None).
  { intros r lines. unfold logBrownout_scan.
    pose proof (while_getline_no_return logBrownout_line logBrownout_line_no_return lines
                  (initial_info r, false, 0%nat, 0%nat)) as Hw.
    destruct (while_getline _ _ _) as [[[[[mv u] o] d]|]|e|]; simpl; try discriminate.
    now contradiction Hw. }
  split; [exact regex_match_size|]. split; [exact logBrownout_line_no_return|].
  split; [exact Hnone|]. split.
  - intros r lines [[mv u]|] Hscan; [|now contradiction (Hnone r lines)].
    exists mv, u. split; [reflexivity|]. exact (BrownoutProofs.logBrownout_scan_flag _ _ _ _ Hscan).
  - intros r. reflexivity.
Qed.

(** X2. Aggregation by [updateIfFound] does not depend on the order
    of the lines: when a line and then a second one are read into a
    value, reading the first line again changes nothing, and reading
    the second line first and then the first gives the same value and
    the same flags. *)
Theorem X2_updateIfFound_order line1 pattern1 line2 pattern2 flag c found1 v1 found2 v12 :
  updateIfFound line1 pattern1 c flag = Ok (found1, v1) ->
  updateIfFound line2 pattern2 v1 flag = Ok (found2, v12) ->
  updateIfFound line1 pattern1 v1 flag = Ok (found1, v1) /\
  exists v2,
    updateIfFound line2 pattern2 c flag = Ok (found2, v2) /\
    updateIfFound line1 pattern1 v2 flag = Ok (found1, v12).
Proof.
  intros Hfirst Hsecond.
  apply updateIfFound_returns in Hfirst. apply updateIfFound_returns in Hsecond.
  destruct Hfirst as [(-> & -> & Hall1)|(r1 & -> & -> & _ & _ & Hall1)];
    destruct Hsecond as [(-> & -> & Hall2)|(r2 & -> & -> & _ & _ & Hall2)];
    rewrite ?Hall1, ?Hall2.
  - split; [reflexivity|]. eexists. split; [reflexivity|]. now rewrite Hall1.
  - split; [reflexivity|]. eexists. split; [reflexivity|]. now rewrite Hall1.
  - split; [do 2 f_equal; destruct flag; simpl; lia|].
    eexists. split; [reflexivity|]. now rewrite Hall1.
  - split; [do 2 f_equal; destruct flag; simpl; lia|].
    eexists. split; [reflexivity|]. rewrite Hall1.
    do 2 f_equal. destruct flag; simpl; lia.
Qed.

(** ** What the scan of a log keeps *)

Lemma next_index_lt index max_idx :
  (index < max_idx)%nat -> (next_index index max_idx < max_idx)%nat.
Proof.
  intros Hlt. unfold next_index. destruct (Nat.eqb_spec (S index) max_idx); lia.
Qed.

Ltac reading_case Hu :=
  apply updateIfFound_returns in Hu;
  destruct Hu as [(Hf & _)|(reading & _ & -> & Hrange & Hnonneg & _)];
  [discriminate Hf|specialize (Hnonneg ltac:(unfold reading_patterns; simpl; tauto))].

Lemma logBrownout_line_keeps reason line st :
  locals_in_range reason st ->
  match logBrownout_line line st with
  | Ok (Continue st') | Ok (Break st') => locals_in_range reason st'
  | Ok Return => True
  | Throw e => e = out_of_range
  | Undefined => False
  end.
Proof.
  destruct st as [[[mv u] o] d]. unfold locals_in_range, readings_in_range. simpl.
  intros (Hmv & Ho & Hd).
  destruct Hmv as (Hsoc & Htemp & Hvolt & Hcycle & Hreason & Hlo & Hld & Hfo & Hfd & Hrest).
  unfold logBrownout_line.
  destruct (matches line kAlreadyUpdatedPattern); [simpl; tauto|].
  destruct (regex_match line kIrqPattern) as [m|].
  { destruct (_ <? _)%nat; [exact I|].
    repeat match goal with
           | |- context [if ?c then _ else _] => destruct c
           end; simpl; tauto. }
  destruct (matches line kTimestampPattern); [simpl; tauto|].
  pose proof (updateIfFound_failure line kBatterySocPattern (battery_soc_ mv) kUpdateMin
                ltac:(unfold reading_patterns; simpl; tauto)) as [Hu1 Ht1].
  destruct (updateIfFound line kBatterySocPattern _ _) as [[bs vs]|[]|] eqn:Hsocu;
    simpl; try congruence.
  destruct bs.
  { reading_case Hsocu; simpl in *. unfold DEFAULT_BATTERY_SOC in *.
    repeat split; try tauto; lia. }
  clear Hsocu Hu1 Ht1.
  pose proof (updateIfFound_failure line kBatteryTempPattern (battery_temp_ mv) kUpdateMin
                ltac:(unfold reading_patterns; simpl; tauto)) as [Hu1 Ht1].
  destruct (updateIfFound line kBatteryTempPattern _ _) as [[bt vt]|[]|] eqn:Htempu;
    simpl; try congruence.
  destruct bt.
  { reading_case Htempu; simpl in *. unfold DEFAULT_BATTERY_TEMP in *.
    repeat split; try tauto; lia. }
  clear Htempu Hu1 Ht1.
  pose proof (updateIfFound_failure line kBatteryCyclePattern (battery_cycle_ mv) kUpdateMax
                ltac:(unfold reading_patterns; simpl; tauto)) as [Hu1 Ht1].
  destruct (updateIfFound line kBatteryCyclePattern _ _) as [[bc vc]|[]|] eqn:Hcycleu;
    simpl; try congruence.
  destruct bc.
  { reading_case Hcycleu; simpl in *.
    repeat split; try tauto; lia. }
  clear Hcycleu Hu1 Ht1.
  pose proof (updateIfFound_failure line kFgPattern (voltage_now_ mv) kUpdateMin
                ltac:(unfold reading_patterns; simpl; tauto)) as [Hu1 Ht1].
  destruct (updateIfFound line kFgPattern _ _) as [[bv vv]|[]|] eqn:Hvoltu;
    simpl; try congruence.
  destruct bv.
  { reading_case Hvoltu; simpl in *. unfold DEFAULT_BATTERY_VOLT in *.
    repeat split; try tauto; lia. }
  clear Hvoltu Hu1 Ht1.
  pose proof (updateIfFound_failure line kDvfsPattern (nth d (dvfs_value_ mv) 0) kUpdateMax
                ltac:(unfold reading_patterns; simpl; tauto)) as [Hu1 Ht1].
  destruct (updateIfFound line kDvfsPattern _ _) as [[bd vd]|[]|] eqn:Hdvfsu;
    simpl; try congruence.
  destruct bd.
  { destruct (Nat.ltb_spec d (length (dvfs_value_ mv))) as [_|Hge]; [|lia].
    assert (Hnth : 0 <= nth d (dvfs_value_ mv) 0 <= INT_MAX).
    { apply (proj1 (Forall_forall _ _) Hfd). apply list_elem_of_In, nth_In. lia. }
    reading_case Hdvfsu; simpl in *.
    rewrite length_insert.
    repeat split; try tauto; try lia.
    - apply Forall_insert; [exact Hfd|lia].
    - now apply next_index_lt. }
  clear Hdvfsu Hu1 Ht1.
  pose proof (updateIfFound_failure line kOdpmPattern (nth o (odpm_value_ mv) 0) kUpdateMax
                ltac:(unfold reading_patterns; simpl; tauto)) as [Hu1 Ht1].
  destruct (updateIfFound line kOdpmPattern _ _) as [[bo vo]|[]|] eqn:Hodpmu;
    simpl; try congruence.
  destruct bo.
  { destruct (Nat.ltb_spec o (length (odpm_value_ mv))) as [_|Hge]; [|lia].
    assert (Hnth : 0 <= nth o (odpm_value_ mv) 0 <= INT_MAX).
    { apply (proj1 (Forall_forall _ _) Hfo). apply list_elem_of_In, nth_In. lia. }
    reading_case Hodpmu; simpl in *.
    rewrite length_insert.
    repeat split; try tauto; try lia.
    - apply Forall_insert; [exact Hfo|lia].
    - now apply next_index_lt. }
  simpl. tauto.
Qed.

Lemma while_logBrownout_keeps reason lines : forall st,
  locals_in_range reason st ->
  match while_getline logBrownout_line lines st with
  | Ok (Some st') => locals_in_range reason st'
  | Ok None => True
  | Throw e => e = out_of_range
  | Undefined => False
  end.
Proof.
  induction lines as [|line rest IH]; intros st Hst; simpl; [exact Hst|].
  pose proof (logBrownout_line_keeps reason line st Hst) as Hstep.
  destruct (logBrownout_line line st) as [[st'|st'|]|e|]; simpl;
    [now apply IH|exact Hstep|exact I|exact Hstep|exact Hstep].
Qed.

Lemma initial_in_range reason :
  (0 < ODPM_MAX_IDX)%nat -> (0 < DVFS_MAX_IDX)%nat ->
  locals_in_range reason (initial_info reason, false, 0%nat, 0%nat).
Proof.
  intros Ho Hd. unfold locals_in_range, readings_in_range. simpl.
  rewrite !length_replicate.
  unfold DEFAULT_BATTERY_SOC, DEFAULT_BATTERY_TEMP, DEFAULT_BATTERY_VOLT, INT_MAX.
  repeat split; try lia; apply Forall_replicate; lia.
Qed.

Lemma logBrownout_scan_keeps reason lines :
  (0 < ODPM_MAX_IDX)%nat -> (0 < DVFS_MAX_IDX)%nat ->
  match logBrownout_scan reason lines with
  | Ok (Some (max_value, _)) => readings_in_range reason max_value
  | Ok None => False
  | Throw e => e = out_of_range
  | Undefined => False
  end.
Proof.
  intros Ho Hd.
  pose proof (while_logBrownout_keeps reason lines _ (initial_in_range reason Ho Hd)) as Hw.
  pose proof (while_getline_no_return logBrownout_line logBrownout_line_no_return lines
                (initial_info reason, false, 0%nat, 0%nat)) as Hn.
  unfold logBrownout_scan.
  destruct (while_getline _ _ _) as [[[[[mv u] o] d]|]|e|]; simpl; auto.
  exact (proj1 Hw).
Qed.

(** X3. With non-empty arrays, the scan of a log never indexes
    [odpm_value_] or [dvfs_value_] out of range (the two indices wrap
    inside the arrays) and never throws [std::invalid_argument]: it ends
    normally, before the guard, or by [std::out_of_range].  When it ends
    normally every reading lies between zero and its start value
    (minimum) or [INT_MAX] (maximum), the arrays have kept their sizes,
    the reason is untouched and the fields of the CSV path are zero. *)
Theorem X3_logBrownout_scan_bounds reason lines :
  (0 < ODPM_MAX_IDX)%nat -> (0 < DVFS_MAX_IDX)%nat ->
  match logBrownout_scan reason lines with
  | Ok (Some (max_value, _)) => readings_in_range reason max_value
  | Ok None => False
  | Throw e => e = out_of_range
  | Undefined => False
  end.
Proof. exact (logBrownout_scan_keeps reason lines). Qed.

Lemma find_key_In key table v : find_key key table = Some v -> In (key, v) table.
Proof.
  induction table as [|[k v'] rest IH]; simpl; [discriminate|].
  destruct (decide (k = key)) as [->|_]; [intros [= ->]; now left|auto].
Qed.

Lemma brownoutReasonCheck_known prop w :
  brownoutReasonCheck prop w <> -1 ->
  exists enumerator,
    In (GetProperty prop "" w, enumerator) kBrownoutReason /\
    brownoutReasonCheck prop w = BrownoutDetected enumerator.
Proof.
  unfold brownoutReasonCheck.
  destruct (decide (GetProperty prop "" w = "")); [congruence|].
  destruct (find_key _ _) as [en|] eqn:Hf; [|congruence].
  intros _. exists en. split; [now apply find_key_In|reflexivity].
Qed.

(** X4. Every record [logBrownout] uploads carries the reason the
    property maps to, which is one of the 29 entries of
    [kBrownoutReason] and not negative, a battery temperature below the
    default 9999999, a state of charge between 0 and 100, and readings
    within the bounds of the scan. *)
Theorem X4_logBrownout_uploaded_record path prop w w' log max_value :
  (0 < ODPM_MAX_IDX)%nat -> (0 < DVFS_MAX_IDX)%nat ->
  logBrownout path prop w = Ok (w', log) ->
  In (EvUploadData max_value) log ->
  readings_in_range (brownoutReasonCheck prop w) max_value /\
  battery_temp_ max_value < DEFAULT_BATTERY_TEMP /\
  0 <= brownout_reason_ max_value /\
  exists enumerator,
    In (GetProperty prop "" w, enumerator) kBrownoutReason /\
    brownout_reason_ max_value = BrownoutDetected enumerator.
Proof.
  intros Ho Hd. rewrite BrownoutProofs.logBrownout_unfold.
  destruct (ReadFileToString path w) as [file|]; [|intros [= <- <-] []].
  destruct (Z.ltb_spec (brownoutReasonCheck prop w) 0) as [|Hpos];
    [intros [= <- <-] []|].
  pose proof (logBrownout_scan_keeps (brownoutReasonCheck prop w) (getlines newline file) Ho Hd)
    as Hscan.
  destruct (logBrownout_scan _ _) as [[[mv u]|]|e|]; simpl; try discriminate;
    [|intros [= <- <-] []].
  unfold finish.
  destruct (negb u && negb (battery_temp_ mv =? DEFAULT_BATTERY_TEMP)) eqn:Hguard;
    [|intros [= <- <-] []].
  intros [= <- <-] [Hin|[Hin|[]]]; [discriminate Hin|]. injection Hin as <-.
  apply andb_true_iff in Hguard. destruct Hguard as [_ Htemp].
  apply negb_true_iff, Z.eqb_neq in Htemp.
  pose proof Hscan as (_ & Ht & _ & _ & Hr & _).
  split; [exact Hscan|]. split; [lia|]. split; [lia|].
  destruct (brownoutReasonCheck_known prop w) as (en & Hin & Heq); [lia|].
  exists en. split; [exact Hin|congruence].
Qed.

(** ** The CSV path *)

Lemma logBrownoutCsv_first_line line max_value isAlreadyUpdated :
  line <> LASTMEAL_UPDATED ->
  logBrownoutCsv_line line (max_value, isAlreadyUpdated, 0)
  = Ok (Continue (max_value, isAlreadyUpdated, 1)).
Proof.
  intros Hne. unfold logBrownoutCsv_line.
  destruct (matches line kAlreadyUpdatedPattern) eqn:Hm.
  { apply BrownoutProofs.marker_matches in Hm. contradiction. }
  reflexivity.
Qed.

(** X8. [logBrownoutCsv] never parses the first line of the file: the
    scan is the same whatever the header line says, as long as it is
    not the marker; and a file of at most one line is never uploaded
    nor rewritten. *)
Theorem X8_csv_header_ignored :
  (forall brownout_reason first first' rest,
     first <> LASTMEAL_UPDATED -> first' <> LASTMEAL_UPDATED ->
     logBrownoutCsv_scan brownout_reason (first :: rest)
     = logBrownoutCsv_scan brownout_reason (first' :: rest)) /\
  (forall path prop w file,
     ReadFileToString path w = Some file ->
     (length (getlines newline file) <= 1)%nat ->
     logBrownoutCsv path prop w = Ok (w, [])).
Proof.
  split.
  - intros r first first' rest Hne Hne'. unfold logBrownoutCsv_scan.
    cbn [while_getline]. now rewrite !logBrownoutCsv_first_line.
  - intros path prop w file Hread Hlen. rewrite BrownoutProofs.logBrownoutCsv_unfold, Hread.
    destruct (brownoutReasonCheck prop w <? 0); [reflexivity|].
    destruct (getlines newline file) as [|line [|line2 rest]]; [| |simpl in Hlen; lia].
    + reflexivity.
    + unfold logBrownoutCsv_scan. cbn [while_getline].
      destruct (decide (line = LASTMEAL_UPDATED)) as [->|Hne]; [reflexivity|].
      rewrite logBrownoutCsv_first_line by exact Hne. reflexivity.
Qed.

Lemma logBrownoutCsv_row line max_value isAlreadyUpdated row_num st' :
  1 <= row_num ->
  logBrownoutCsv_line line (max_value, isAlreadyUpdated, row_num) = Ok (Continue st') ->
  snd st' = row_num + 1 /\
  snd (fst st') = isAlreadyUpdated /\
  brownout_reason_ (fst (fst st')) = brownout_reason_ max_value /\
  reports_row line (fst (fst st')).
Proof.
  intros Hrow. unfold logBrownoutCsv_line.
  destruct (matches line kAlreadyUpdatedPattern); [discriminate|].
  destruct (Z.eqb_spec (row_num + 1) 1) as [|_]; [lia|].
  destruct (at_index (getlines comma line) TIMESTAMP_IDX) as [f0|e|]; simpl; try discriminate.
  destruct (at_index (getlines comma line) IRQ_IDX) as [f1|e|]; simpl; try discriminate.
  destruct (parseIRQ f1) as [irq|e|]; simpl; try discriminate.
  destruct (at_index (getlines comma line) SOC_IDX) as [soc|e|] eqn:Hsoc;
    simpl; try discriminate.
  destruct (atoi soc) as [vsoc|e|] eqn:Hvsoc; simpl; try discriminate.
  destruct (at_index (getlines comma line) TEMP_IDX) as [temp|e|] eqn:Htemp;
    simpl; try discriminate.
  destruct (atoi temp) as [vtemp|e|] eqn:Hvtemp; simpl; try discriminate.
  destruct (at_index (getlines comma line) CYCLE_IDX) as [cycle|e|] eqn:Hcycle;
    simpl; try discriminate.
  destruct (atoi cycle) as [vcycle|e|] eqn:Hvcycle; simpl; try discriminate.
  destruct (at_index (getlines comma line) VOLTAGE_IDX) as [volt|e|] eqn:Hvolt;
    simpl; try discriminate.
  destruct (atoi volt) as [vvolt|e|] eqn:Hvvolt; simpl; try discriminate.
  unfold bind.
  repeat match goal with
         | |- context [match ?x with _ => _ end] =>
             lazymatch x with
             | context [match _ with _ => _ end] => fail
             | _ => destruct x
             end
         end;
    try discriminate; intros [= <-]; simpl;
    (repeat split; try reflexivity; exists soc, temp, cycle, volt; auto 10).
Qed.

Lemma logBrownoutCsv_break line st st' :
  logBrownoutCsv_line line st = Ok (Break st') -> snd (fst st') = true.
Proof.
  intros Hb. destruct (decide (line = LASTMEAL_UPDATED)) as [->|Hne].
  - destruct (BrownoutProofs.logBrownoutCsv_line_marker st) as (st1 & Hm & Hflag).
    congruence.
  - exact (False_ind _ (BrownoutProofs.logBrownoutCsv_line_other line st _ Hne Hb)).
Qed.

Lemma logBrownoutCsv_continue line max_value isAlreadyUpdated row_num st' :
  0 <= row_num ->
  logBrownoutCsv_line line (max_value, isAlreadyUpdated, row_num) = Ok (Continue st') ->
  snd st' = row_num + 1 /\ snd (fst st') = isAlreadyUpdated /\
  brownout_reason_ (fst (fst st')) = brownout_reason_ max_value.
Proof.
  intros Hrow Hc. destruct (Z.eq_dec row_num 0) as [->|Hne].
  - destruct (decide (line = LASTMEAL_UPDATED)) as [->|Hline].
    + destruct (BrownoutProofs.logBrownoutCsv_line_marker (max_value, isAlreadyUpdated, 0))
        as (st1 & Hm & _). congruence.
    + rewrite logBrownoutCsv_first_line in Hc by exact Hline.
      injection Hc as <-. auto.
  - destruct (logBrownoutCsv_row line max_value isAlreadyUpdated row_num st')
      as (H2 & H3 & H4 & _); [lia|exact Hc|auto].
Qed.

Lemma csv_last_row row lines : forall max_value row_num max_value' row_num',
  0 <= row_num -> 1 <= row_num + Z.of_nat (length lines) ->
  while_getline logBrownoutCsv_line (lines ++ [row]) (max_value, false, row_num)
  = Ok (Some (max_value', false, row_num')) ->
  reports_row row max_value' /\ brownout_reason_ max_value' = brownout_reason_ max_value.
Proof.
  induction lines as [|line rest IH]; intros mv r mv' r' Hr Hlen; cbn [app while_getline].
  - destruct (logBrownoutCsv_line row (mv, false, r)) as [[st1|st1|]|e|] eqn:Hb;
      simpl; try discriminate.
    + intros [= ->]. simpl in Hlen.
      destruct (logBrownoutCsv_row row mv false r _ ltac:(lia) Hb) as (_ & _ & Hreason & Hrow).
      auto.
    + intros [= ->]. apply logBrownoutCsv_break in Hb. discriminate Hb.
  - destruct (logBrownoutCsv_line line (mv, false, r)) as [[st1|st1|]|e|] eqn:Hb;
      simpl; try discriminate.
    + destruct (logBrownoutCsv_continue line mv false r st1 Hr Hb) as (Hr1 & Hu1 & Hreason).
      destruct st1 as [[mv1 u1] r1]. simpl in *. subst u1 r1.
      intros Hw. rewrite <- Hreason. apply (IH mv1 (r + 1) mv' r'); [lia|lia|exact Hw].
    + intros [= ->]. apply logBrownoutCsv_break in Hb. discriminate Hb.
Qed.


(** X13. Every record [logBrownoutCsv] uploads comes from a file with
    a header line and at least one row, carries the battery readings of
    the last row, the reason the property maps to, which is not
    negative, and a temperature other than the default. *)
Theorem X13_csv_uploaded_record path prop w w' log max_value :
  logBrownoutCsv path prop w = Ok (w', log) ->
  In (EvUploadData max_value) log ->
  exists file header rows row,
    ReadFileToString path w = Some file /\
    getlines newline file = header :: rows ++ [row] /\
    reports_row row max_value /\
    brownout_reason_ max_value = brownoutReasonCheck prop w /\
    0 <= brownout_reason_ max_value /\
    battery_temp_ max_value <> DEFAULT_BATTERY_TEMP.
Proof.
  rewrite BrownoutProofs.logBrownoutCsv_unfold.
  destruct (ReadFileToString path w) as [file|]; [|intros [= <- <-] []].
  destruct (Z.ltb_spec (brownoutReasonCheck prop w) 0) as [|Hpos];
    [intros [= <- <-] []|].
  unfold logBrownoutCsv_scan.
  destruct (while_getline _ _ _) as [[[[mv u] r]|]|e|] eqn:Hw; simpl; try discriminate;
    [|intros [= <- <-] []].
  unfold finish.
  destruct u; simpl; [intros [= <- <-] []|].
  destruct (Z.eqb_spec (battery_temp_ mv) DEFAULT_BATTERY_TEMP) as [|Htemp]; simpl;
    [intros [= <- <-] []|].
  intros [= <- <-] [Hin|[Hin|[]]]; [discriminate Hin|]. injection Hin as <-.
  destruct (getlines newline file) as [|header [|line rest]] eqn:Hlines.
  - simpl in Hw. injection Hw as <- _. contradiction Htemp. reflexivity.
  - cbn [while_getline] in Hw.
    destruct (decide (header = LASTMEAL_UPDATED)) as [->|Hne]; [discriminate Hw|].
    rewrite logBrownoutCsv_first_line in Hw by exact Hne. simpl in Hw.
    injection Hw as <- _. contradiction Htemp. reflexivity.
  - destruct (exists_last (l := line :: rest) ltac:(discriminate)) as (rows & row & Hsplit).
    rewrite Hsplit in Hw.
    change (header :: rows ++ [row]) with ((header :: rows) ++ [row]) in Hw.
    apply csv_last_row in Hw; [|lia|simpl; lia].
    destruct Hw as [Hrow Hreason]. simpl in Hreason.
    exists file, header, rows, row. rewrite Hlines, Hsplit.
    repeat split; auto; lia.
Qed.

(** ** Time stamps *)

Lemma substring_prefix n : forall s t,
  (n <= String.length s)%nat -> substring 0 n (s +:+ t) = substring 0 n s.
Proof.
  induction n as [|n IH]; intros s t Hlen.
  - destruct s; destruct t; reflexivity.
  - destruct s as [|c s]; [simpl in Hlen; lia|].
    rewrite BrownoutProofs.append_cons. simpl. rewrite IH; [reflexivity|].
    simpl in Hlen. lia.
Qed.

(** X10. [parseTimestamp] looks at the first 19 characters only, so
    what follows the seconds is ignored; it returns 0 when the text is
    not a date, and the seconds [mktime] computed when the system clock
    counts microseconds. *)
Theorem X10_parseTimestamp :
  (forall timestamp suffix, (19 <= String.length timestamp)%nat ->
     parseTimestamp (timestamp +:+ suffix) = parseTimestamp timestamp) /\
  (forall timestamp, strptime_mktime (substring 0 19 timestamp) = None ->
     parseTimestamp timestamp = 0) /\
  (system_clock_ticks_per_second = ONE_SECOND_IN_US ->
   forall timestamp t, strptime_mktime (substring 0 19 timestamp) = Some t ->
     parseTimestamp timestamp = t).
Proof.
  unfold parseTimestamp. split; [|split].
  - intros ts suffix Hlen. now rewrite substring_prefix.
  - intros ts ->. reflexivity.
  - intros -> ts t ->. unfold ONE_SECOND_IN_US. apply Z.quot_mul. lia.
Qed.

End ReporterExtras.

(** ** The vendor atom *)

Section UploadExtras.

Context `{AtomLayout}.

Lemma setAtomFieldValue_length values offset content :
  length (setAtomFieldValue values offset content) = length values.
Proof.
  unfold setAtomFieldValue. destruct (_ <? _); [apply length_insert|reflexivity].
Qed.

Lemma slot_of_range offset : 0 <= slot_of offset < 2 ^ 64.
Proof. unfold slot_of. apply Z.mod_pos_bound. lia. Qed.

Lemma setAtomFieldValue_same values offset content :
  slot_of offset < Z.of_nat (length values) ->
  setAtomFieldValue values offset content !! Z.to_nat (slot_of offset)
  = Some (intValue content).
Proof.
  intros Hlt. pose proof (slot_of_range offset) as Hr.
  unfold setAtomFieldValue. fold (slot_of offset).
  destruct (Z.ltb_spec (slot_of offset) (Z.of_nat (length values))); [|lia].
  apply list_lookup_insert_eq. lia.
Qed.

Lemma setAtomFieldValue_other values offset content (i : nat) :
  Z.of_nat i <> slot_of offset ->
  setAtomFieldValue values offset content !! i = values !! i.
Proof.
  intros Hne. pose proof (slot_of_range offset) as Hr.
  unfold setAtomFieldValue. fold (slot_of offset).
  destruct (_ <? _); [|reflexivity].
  apply list_lookup_insert_ne. lia.
Qed.

(** X5. [setAtomFieldValue] never changes the size of the vector.  It
    stores [content] in slot [offset - kVendorAtomOffset] and nowhere
    else when that slot exists, and does nothing when [offset] is
    below [kVendorAtomOffset] (the negative difference is compared as
    an unsigned number) or past the end. *)
Theorem X5_setAtomFieldValue values offset content :
  INT_MIN <= offset <= INT_MAX -> INT_MIN <= kVendorAtomOffset <= INT_MAX ->
  Z.of_nat (length values) <= 2 ^ 63 ->
  length (setAtomFieldValue values offset content) = length values /\
  (kVendorAtomOffset <= offset < kVendorAtomOffset + Z.of_nat (length values) ->
   setAtomFieldValue values offset content
   = <[Z.to_nat (offset - kVendorAtomOffset) := intValue content]> values) /\
  (offset < kVendorAtomOffset \/ kVendorAtomOffset + Z.of_nat (length values) <= offset ->
   setAtomFieldValue values offset content = values).
Proof.
  unfold INT_MIN, INT_MAX. intros Ho Hk Hlen.
  split; [apply setAtomFieldValue_length|].
  unfold setAtomFieldValue. split.
  - intros Hin. rewrite Z.mod_small by lia.
    destruct (Z.ltb_spec (offset - kVendorAtomOffset) (Z.of_nat (length values)));
      [reflexivity|lia].
  - intros [Hlow|Hhigh].
    + replace ((offset - kVendorAtomOffset) mod 2 ^ 64)
        with (offset - kVendorAtomOffset + 2 ^ 64).
      * destruct (Z.ltb_spec (offset - kVendorAtomOffset + 2 ^ 64)
                    (Z.of_nat (length values))); [lia|reflexivity].
      * apply Z.mod_unique with (q := -1); lia.
    + rewrite Z.mod_small by lia.
      destruct (Z.ltb_spec (offset - kVendorAtomOffset) (Z.of_nat (length values)));
        [lia|reflexivity].
Qed.

Lemma set_fields_cons values field rest :
  set_fields values (field :: rest)
  = set_fields (setAtomFieldValue values (FieldNumber (fst field)) (snd field)) rest.
Proof. reflexivity. Qed.

Lemma set_fields_length fields : forall values,
  length (set_fields values fields) = length values.
Proof.
  induction fields as [|f rest IH]; intros values; [reflexivity|].
  rewrite set_fields_cons, IH. apply setAtomFieldValue_length.
Qed.

Lemma set_fields_other fields (i : nat) : forall values,
  ~ In (Z.of_nat i) (map (fun f => slot_of (FieldNumber (fst f))) fields) ->
  set_fields values fields !! i = values !! i.
Proof.
  induction fields as [|f rest IH]; intros values Hnot; [reflexivity|].
  rewrite set_fields_cons, IH.
  - apply setAtomFieldValue_other. intros Heq. apply Hnot. left. now symmetry.
  - intros Hin. apply Hnot. now right.
Qed.

Lemma set_fields_lookup fields : forall values name content,
  NoDup (map (fun f => slot_of (FieldNumber (fst f))) fields) ->
  In (name, content) fields ->
  slot_of (FieldNumber name) < Z.of_nat (length values) ->
  set_fields values fields !! Z.to_nat (slot_of (FieldNumber name))
  = Some (intValue content).
Proof.
  induction fields as [|f rest IH]; intros values name content Hnd Hin Hlt; [destruct Hin|].
  cbn [map] in Hnd. apply NoDup_cons in Hnd. destruct Hnd as [Hnotin Hnd].
  pose proof (slot_of_range (FieldNumber name)) as Hr.
  rewrite set_fields_cons. destruct Hin as [->|Hin].
  - rewrite set_fields_other.
    + now apply setAtomFieldValue_same.
    + rewrite Z2Nat.id by lia. intros Hx. apply Hnotin. now apply list_elem_of_In.
  - apply IH; [exact Hnd|exact Hin|]. now rewrite setAtomFieldValue_length.
Qed.

Lemma channel_fields_names names array : forall i fields,
  channel_fields names array i = Ok fields -> map fst fields = names.
Proof.
  induction names as [|name rest IH]; intros i fields; simpl.
  - intros [= <-]. reflexivity.
  - destruct (element array i) as [v|e|]; simpl; try discriminate.
    destruct (channel_fields rest array (S i)) as [others|e|] eqn:Hc; simpl; try discriminate.
    intros [= <-]. simpl. f_equal. now apply (IH (S i)).
Qed.

Lemma channel_fields_defined names array : forall i,
  (i + length names <= length array)%nat ->
  exists fields, channel_fields names array i = Ok fields.
Proof.
  induction names as [|name rest IH]; intros i Hlen; simpl; [eauto|].
  simpl in Hlen. unfold element.
  destruct (lookup_lt_is_Some_2 array i) as [v ->]; [lia|]. simpl.
  destruct (IH (S i)) as [others ->]; [lia|]. simpl. eauto.
Qed.

Lemma channel_fields_combine names array : forall i fields,
  channel_fields names array i = Ok fields -> fields = combine names (drop i array).
Proof.
  induction names as [|name rest IH]; intros i fields; simpl.
  - intros [= <-]. reflexivity.
  - unfold element. destruct (array !! i) as [v|] eqn:Hv; simpl; [|discriminate].
    destruct (channel_fields rest array (S i)) as [others|e|] eqn:Hc; simpl; try discriminate.
    intros [= <-]. rewrite (drop_S _ _ _ Hv). simpl. f_equal. now apply IH.
Qed.

(** X6. When the arrays hold at least 24 and 6 elements and
    [100 - battery_soc_] is an [int], [uploadData] reports one atom
    with the id [kBrownoutDetected] and exactly 47 values, and logs an
    error exactly when the report fails.  The calls set, in this order,
    the IRQ, the time stamp converted from [long] to [int], the
    temperature, the state of charge as [100 - battery_soc_], the cycle
    count, the voltage, the 24 ODPM and the 6 DVFS channels with the
    array elements of the same rank, the reason and the ten CSV-only
    members; when the field numbers designate pairwise distinct slots
    of the vector, each slot holds the content of its field. *)
Theorem X6_uploadData max_value report_ok :
  (24 <= length (odpm_value_ max_value))%nat ->
  (6 <= length (dvfs_value_ max_value))%nat ->
  in_int (100 - battery_soc_ max_value) = true ->
  exists fields values,
    fields
    = [ ("TriggeredIrq", triggered_irq_ max_value);
        ("TriggeredTimestamp",
         (triggered_timestamp_ max_value + 2 ^ 31) mod 2 ^ 32 - 2 ^ 31);
        ("BatteryTemp", battery_temp_ max_value);
        ("BatterySoc", 100 - battery_soc_ max_value);
        ("BatteryCycle", battery_cycle_ max_value);
        ("VoltageNow", voltage_now_ max_value) ]
      ++ combine odpm_field_names (odpm_value_ max_value)
      ++ combine dvfs_field_names (dvfs_value_ max_value)
      ++ [ ("BrownoutReason", brownout_reason_ max_value);
           ("MaxCurrent", max_curr_ max_value);
           ("EvtCntUvlo1", evt_cnt_uvlo1_ max_value);
           ("EvtCntUvlo2", evt_cnt_uvlo2_ max_value);
           ("EvtCntOilo1", evt_cnt_oilo1_ max_value);
           ("EvtCntOilo2", evt_cnt_oilo2_ max_value);
           ("VimonVbatt", vimon_vbatt_ max_value);
           ("VimonIbatt", vimon_ibatt_ max_value);
           ("MitigationMethod0", mitigation_method_0_ max_value);
           ("MitigationMethod0Count", mitigation_method_0_count_ max_value);
           ("MitigationMethod0TimeUs", mitigation_method_0_time_us_ max_value) ] /\
    atom_fields max_value = Ok fields /\
    map fst fields = atom_field_names /\
    INT_MIN <= (triggered_timestamp_ max_value + 2 ^ 31) mod 2 ^ 32 - 2 ^ 31 <= INT_MAX /\
    uploadData max_value report_ok
    = Ok (EvReportVendorAtom "" kBrownoutDetected values
            :: (if report_ok then []
                else [EvALOGE "Unable to report ChargeStats to Stats service"])) /\
    length values = 47%nat /\
    (NoDup (map (fun name => slot_of (FieldNumber name)) atom_field_names) ->
     Forall (fun name => slot_of (FieldNumber name) < 47) atom_field_names ->
     forall name content, In (name, content) fields ->
       values !! Z.to_nat (slot_of (FieldNumber name)) = Some (intValue content)).
Proof.
  intros Hodpm Hdvfs Hsoc. unfold uploadData, atom_fields. rewrite Hsoc. cbn [bind].
  destruct (channel_fields_defined odpm_field_names (odpm_value_ max_value) 0%nat)
    as [odpm Ho]; [simpl; lia|].
  destruct (channel_fields_defined dvfs_field_names (dvfs_value_ max_value) 0%nat)
    as [dvfs Hd]; [simpl; lia|].
  rewrite Ho. cbn [bind]. rewrite Hd. cbn [bind].
  pose proof (channel_fields_names _ _ _ _ Ho) as Hon.
  pose proof (channel_fields_names _ _ _ _ Hd) as Hdn.
  apply channel_fields_combine in Ho. apply channel_fields_combine in Hd.
  rewrite drop_0 in Ho, Hd. subst odpm dvfs.
  eexists _, _. split; [reflexivity|].
  split; [reflexivity|].
  assert (Hfs : map fst
                  ([ ("TriggeredIrq", triggered_irq_ max_value);
                     ("TriggeredTimestamp",
                      (triggered_timestamp_ max_value + 2 ^ 31) mod 2 ^ 32 - 2 ^ 31);
                     ("BatteryTemp", battery_temp_ max_value);
                     ("BatterySoc", 100 - battery_soc_ max_value);
                     ("BatteryCycle", battery_cycle_ max_value);
                     ("VoltageNow", voltage_now_ max_value) ]
                   ++ combine odpm_field_names (odpm_value_ max_value)
                   ++ combine dvfs_field_names (dvfs_value_ max_value)
                   ++ [ ("BrownoutReason", brownout_reason_ max_value);
                        ("MaxCurrent", max_curr_ max_value);
                        ("EvtCntUvlo1", evt_cnt_uvlo1_ max_value);
                        ("EvtCntUvlo2", evt_cnt_uvlo2_ max_value);
                        ("EvtCntOilo1", evt_cnt_oilo1_ max_value);
                        ("EvtCntOilo2", evt_cnt_oilo2_ max_value);
                        ("VimonVbatt", vimon_vbatt_ max_value);
                        ("VimonIbatt", vimon_ibatt_ max_value);
                        ("MitigationMethod0", mitigation_method_0_ max_value);
                        ("MitigationMethod0Count", mitigation_method_0_count_ max_value);
                        ("MitigationMethod0TimeUs", mitigation_method_0_time_us_ max_value) ])
                = atom_field_names).
  { rewrite !map_app, Hon, Hdn. reflexivity. }
  split; [exact Hfs|].
  split; [unfold INT_MIN, INT_MAX;
          pose proof (Z.mod_pos_bound (triggered_timestamp_ max_value + 2 ^ 31) (2 ^ 32)
                        ltac:(lia)); lia|].
  split; [reflexivity|split].
  - rewrite set_fields_length. apply length_replicate.
  - intros Hnd Hslots name content Hin.
    apply set_fields_lookup.
    + rewrite <- Hfs in Hnd. rewrite map_map in Hnd. exact Hnd.
    + exact Hin.
    + rewrite length_replicate.
      rewrite Forall_forall in Hslots. apply Hslots.
      rewrite <- Hfs. apply list_elem_of_In. apply in_map_iff. exists (name, content). auto.
Qed.

End UploadExtras.

Lemma X1_witness :
  length ["battery:250"; "battery"; "250"] = S (mark_count kBatteryTempPattern) /\
  sub_match ["battery:250"; "battery"; "250"] KEY_IDX = "battery:250".
Proof.
  exact (proj1 (@X1_no_early_return sample_header sample_libc)
           "battery:250" kBatteryTempPattern _ eq_refl).
Defined.

Lemma X2_witness :
  updateIfFound "soc:87" kBatterySocPattern 87 kUpdateMin = Ok (true, 87) /\
  exists v2,
    updateIfFound "soc:90" kBatterySocPattern DEFAULT_BATTERY_SOC kUpdateMin = Ok (true, v2) /\
    updateIfFound "soc:87" kBatterySocPattern v2 kUpdateMin = Ok (true, 87).
Proof.
  exact (X2_updateIfFound_order "soc:87" kBatterySocPattern "soc:90" kBatterySocPattern
           kUpdateMin DEFAULT_BATTERY_SOC true 87 true 87 eq_refl eq_refl).
Defined.

Lemma X3_witness :
  match logBrownout_scan 9 (getlines newline sample_log) with
  | Ok (Some (max_value, _)) => readings_in_range 9 max_value
  | Ok None => False
  | Throw e => e = out_of_range
  | Undefined => False
  end.
Proof.
  apply (@X3_logBrownout_scan_bounds sample_header sample_libc 9
           (getlines newline sample_log)); simpl; lia.
Defined.

Lemma X4_witness :
  readings_in_range (brownoutReasonCheck reason_prop sample_device) sample_info /\
  battery_temp_ sample_info < DEFAULT_BATTERY_TEMP /\
  0 <= brownout_reason_ sample_info /\
  exists enumerator,
    In (GetProperty reason_prop "" sample_device, enumerator) kBrownoutReason /\
    brownout_reason_ sample_info = BrownoutDetected enumerator.
Proof.
  apply (@X4_logBrownout_uploaded_record sample_header sample_libc Device Device_platform
           log_path reason_prop sample_device
           (snd (WriteStringToFile (LASTMEAL_UPDATED +:+ nl +:+ sample_log) log_path
                   sample_device))
           [EvWriteStringToFile (LASTMEAL_UPDATED +:+ nl +:+ sample_log) log_path;
            EvUploadData sample_info]).
  - simpl. lia.
  - simpl. lia.
  - vm_compute. reflexivity.
  - right. left. reflexivity.
Defined.

Lemma X5_witness :
  length (setAtomFieldValue (replicate 47 unset) 5 13) = length (replicate 47 unset) /\
  setAtomFieldValue (replicate 47 unset) 5 13
  = <[Z.to_nat (5 - kVendorAtomOffset) := intValue 13]> (replicate 47 unset) /\
  setAtomFieldValue (replicate 47 unset) 1 13 = replicate 47 unset /\
  setAtomFieldValue (replicate 47 unset) 49 13 = replicate 47 unset.
Proof.
  assert (Hint : forall z, -100 <= z <= 100 -> INT_MIN <= z <= INT_MAX)
    by (unfold INT_MIN, INT_MAX; lia).
  assert (Hlen : Z.of_nat (length (replicate 47 unset)) <= 2 ^ 63)
    by (rewrite length_replicate; lia).
  destruct (@X5_setAtomFieldValue sample_layout (replicate 47 unset) 5 13
              (Hint 5 ltac:(lia)) (Hint 2 ltac:(lia)) Hlen) as (H5 & Hin & _).
  destruct (@X5_setAtomFieldValue sample_layout (replicate 47 unset) 1 13
              (Hint 1 ltac:(lia)) (Hint 2 ltac:(lia)) Hlen) as (_ & _ & Hlow).
  destruct (@X5_setAtomFieldValue sample_layout (replicate 47 unset) 49 13
              (Hint 49 ltac:(lia)) (Hint 2 ltac:(lia)) Hlen) as (_ & _ & Hhigh).
  split; [exact H5|]. split; [|split].
  - apply Hin. rewrite length_replicate. simpl. lia.
  - apply Hlow. left. simpl. lia.
  - apply Hhigh. right. rewrite length_replicate. simpl. lia.
Defined.

Lemma X6_witness :
  exists values,
    uploadData late_info false
    = Ok [EvReportVendorAtom "" kBrownoutDetected values;
          EvALOGE "Unable to report ChargeStats to Stats service"] /\
    length values = 47%nat /\
    values !! Z.to_nat (slot_of (FieldNumber "TriggeredTimestamp"))
    = Some (intValue (-192522496)) /\
    values !! Z.to_nat (slot_of (FieldNumber "BatterySoc")) = Some (intValue 13) /\
    values !! Z.to_nat (slot_of (FieldNumber "OdpmChannel24")) = Some (intValue 24) /\
    values !! Z.to_nat (slot_of (FieldNumber "DvfsChannel1")) = Some (intValue 2028000) /\
    values !! Z.to_nat (slot_of (FieldNumber "MitigationMethod0TimeUs"))
    = Some (intValue 40).
Proof.
  destruct (@X6_uploadData sample_layout late_info false)
    as (fields & values & -> & _ & _ & _ & Hrun & Hlen & Hslots).
  - simpl. lia.
  - simpl. lia.
  - reflexivity.
  - assert (Hnd : NoDup (map (fun name => slot_of (FieldNumber name)) atom_field_names)).
    { apply (bool_decide_unpack _). vm_compute. exact I. }
    assert (Hlt : Forall (fun name => slot_of (FieldNumber name) < 47) atom_field_names).
    { apply (bool_decide_unpack _). vm_compute. exact I. }
    exists values. split; [exact Hrun|]. split; [exact Hlen|].
    repeat split; apply (Hslots Hnd Hlt); vm_compute; tauto.
Defined.

Lemma X7_witness :
  getlines comma (terminated comma ["87"; "250"]) = ["87"; "250"] /\
  getlines comma (terminated comma ["87"; "250"] +:+ "12") = ["87"; "250"] ++ ["12"] /\
  getlines comma (terminated comma ["87"; "250"] +:+ "") = ["87"; "250"].
Proof.
  assert (Hno : forall piece, In piece ["87"; "250"; "12"] -> ~ has_char comma piece).
  { intros piece Hin Hc. unfold has_char in Hc.
    simpl in Hin. destruct Hin as [<-|[<-|[<-|[]]]]; simpl in Hc;
      intuition discriminate. }
  destruct (X7_getlines_round_trip comma ["87"; "250"]) as (Hall & Hlast & Hempty & _).
  - repeat constructor; apply Hno; simpl; tauto.
  - split; [exact Hall|]. split; [|exact Hempty].
    apply Hlast; [apply Hno; simpl; tauto|discriminate].
Defined.

Lemma X8_witness :
  logBrownoutCsv_scan 9 ("timestamp,irq" :: getlines newline "1,2")
  = logBrownoutCsv_scan 9 ("" :: getlines newline "1,2") /\
  logBrownoutCsv csv_path reason_prop (device_with csv_path "timestamp,irq")
  = Ok (device_with csv_path "timestamp,irq", []).
Proof.
  destruct (@X8_csv_header_ignored sample_header sample_libc Device Device_platform)
    as [Hheader Hshort].
  split.
  - apply Hheader; discriminate.
  - apply (Hshort csv_path reason_prop _ "timestamp,irq").
    + apply lookup_insert_eq.
    + vm_compute. lia.
Defined.


Lemma X13_witness :
  exists max_value file header rows row,
    ReadFileToString csv_path sample_csv_device = Some file /\
    getlines newline file = header :: rows ++ [row] /\
    reports_row row max_value /\
    brownout_reason_ max_value = brownoutReasonCheck reason_prop sample_csv_device /\
    0 <= brownout_reason_ max_value /\
    battery_temp_ max_value <> DEFAULT_BATTERY_TEMP.
Proof.
  eexists.
  eapply (@X13_csv_uploaded_record sample_header sample_libc Device Device_platform
            csv_path reason_prop sample_csv_device).
  - vm_compute. reflexivity.
  - right. left. reflexivity.
Defined.

Lemma X10_witness :
  parseTimestamp ("2024-01-01 00:00:00" +:+ ".000") = parseTimestamp "2024-01-01 00:00:00" /\
  parseTimestamp "triggered" = 0 /\
  parseTimestamp "2024-01-01 00:00:00.000" = 1704067200.
Proof.
  destruct (@X10_parseTimestamp sample_libc) as (Hprefix & Hbad & Hgood).
  split; [|split].
  - apply Hprefix. simpl. lia.
  - apply Hbad. reflexivity.
  - apply (Hgood eq_refl). reflexivity.
Defined.

End BrownoutExtras.
